(** * LearnAbility backend: document ingestion and retrieval pipeline

    A shallow embedding of the ingestion / vector-search core of the
    LearnAbility backend:

    - [src/services/gemini.service.ts]  ([getEmbeddings],
      [extractTextFromDocument]),
    - [src/services/milvus.ts]          ([insertEmbeddings], [searchMilvus],
      [resetMilvusIndex], [createCollection], [createIndex], ...),
    - [src/handler/source.handler.ts]   ([processFileAsync]),
    - [src/handler/query.handler.ts]    ([answerUserQuery]),
    - the admin handler                 ([resetMilvusIndexHandler]).

    The TypeScript functions are [async] functions that talk to three
    external services (the Milvus client, the Vertex AI models, the Prisma
    database) and use [try]/[catch].  They are embedded in a monad [M] of
    computations that read the history of external calls made so far, emit
    the calls they make themselves, and end by returning, by throwing a
    JavaScript error, or by running out of recursion fuel.  The external
    services are a record [Env] of oracles; an oracle sees the whole history,
    so it can answer the same request differently at different times.
    Console output is not modelled.

    The file has two parts.  The first holds the definitions: the values and
    records of the code, the calls and the monad, the functions themselves,
    what is read off a history (inserted rows, status writes, search
    requests), the filter expressions and the way the vector store reads a
    filter string, the entities of the vector store, some scripted
    environments, and the notions the statements use.  The
    second holds the proofs: rules for computations, the lemmas about each
    function, and the properties of search, query, reset and ingestion. *)

From Stdlib Require Import String Ascii List Bool Arith NArith Lia.
From Stdlib Require Import Floats.
Import ListNotations.
Local Open Scope list_scope.
Local Open Scope string_scope.

Set Implicit Arguments.

(** * Part I: definitions *)

(** ** JavaScript values the code relies on *)

(** The double quote and the line feed, for the template strings. *)
Definition dquote : string := String "034"%char EmptyString.
Definition newline : string := String "010"%char EmptyString.

(** [Boolean(s)] for a string: the empty string is falsy. *)
Definition truthy (s : string) : bool :=
  match s with
  | EmptyString => false
  | String _ _ => true
  end.

(** [Boolean(x)] for an optional string ([undefined], [null] are falsy). *)
Definition truthy_opt (x : option string) : bool :=
  match x with
  | Some s => truthy s
  | None => false
  end.

(** [x || d] on an optional string. *)
Definition or_else (x : option string) (d : string) : string :=
  match x with
  | Some s => if truthy s then s else d
  | None => d
  end.

(** [x || null] and [x || undefined] on an optional string. *)
Definition or_null (x : option string) : option string :=
  match x with
  | Some s => if truthy s then Some s else None
  | None => None
  end.

(** [s.includes(sub)]. *)
Fixpoint includes (s sub : string) : bool :=
  if String.prefix sub s then true
  else match s with
       | EmptyString => false
       | String _ s' => includes s' sub
       end.

(** [s.split(c)] for a one-character separator.  The separator used by the
    code is the ASCII semicolon, so splitting the UTF-8 bytes and splitting
    the UTF-16 code units cut the text at the same places. *)
Fixpoint split (sep : ascii) (s : string) : list string :=
  match s with
  | EmptyString => [EmptyString]
  | String c rest =>
      if Ascii.eqb c sep then EmptyString :: split sep rest
      else match split sep rest with
           | [] => [String c EmptyString]
           | seg :: segs => String c seg :: segs
           end
  end.

(** [xs.map((x, index) => f x index)]. *)
Fixpoint mapi_from {A B : Type} (i : nat) (f : A -> nat -> B) (xs : list A)
  : list B :=
  match xs with
  | [] => []
  | x :: xs' => f x i :: mapi_from (S i) f xs'
  end.

Definition mapi {A B : Type} (f : A -> nat -> B) (xs : list A) : list B :=
  mapi_from 0 f xs.

(** A thrown JavaScript error, with what [Error.prototype.toString] and
    [.message] read of it. *)
Record JsError : Type := mkJsError {
  err_name : string;
  err_message : string
}.

(** [new Error(msg)]. *)
Definition newError (msg : string) : JsError :=
  {| err_name := "Error"; err_message := msg |}.

(** Reading a property of [undefined]. *)
Definition typeError (msg : string) : JsError :=
  {| err_name := "TypeError"; err_message := msg |}.

Definition error_toString (e : JsError) : string :=
  if negb (truthy (err_name e)) then err_message e
  else if negb (truthy (err_message e)) then err_name e
  else err_name e ++ ": " ++ err_message e.

(** ** Data model *)

(** An embedding vector: the [numberValue]s of one prediction. *)
Definition Vector : Type := list float.

(** [DataSourceStatus] of the Prisma schema. *)
Inductive DataSourceStatus : Type :=
| PROCESSING
| COMPLETED
| ERROR
| READY.

(** The [metadata] JSON stored with a chunk:
    [{ chunk_id, subjectId, dataSourceId }]. *)
Record ChunkMetadata : Type := mkChunkMetadata {
  chunk_id : nat;
  md_subjectId : option string;
  md_dataSourceId : string
}.

(** One chunk handed to [insertEmbeddings]:
    [{ pageContent, metadata: { chunk_id } }]. *)
Record ChunkDoc : Type := mkChunkDoc {
  pageContent : string;
  doc_chunk_id : nat
}.

(** One entity of the collection, as [client.insert] receives it. *)
Record Row : Type := mkRow {
  row_text : string;
  row_embedding : Vector;
  row_metadata : ChunkMetadata;
  row_user_id : string;
  row_subject_id : string;
  row_data_source_id : string
}.

(** One result of [client.search], and what [searchMilvus] keeps of it. *)
Record SearchResult : Type := mkSearchResult {
  res_text : string;
  res_score : float;
  res_metadata : ChunkMetadata
}.

Record Hit : Type := mkHit {
  hit_text : string;
  hit_score : float;
  hit_metadata : ChunkMetadata
}.

(** The request of [client.search]. *)
Record SearchReq : Type := mkSearchReq {
  sr_collection_name : string;
  sr_vector : Vector;
  sr_limit : nat;
  sr_metric_type : string;
  sr_filter : string
}.

(** The [options] argument of [searchMilvus]. *)
Record SearchOptions : Type := mkSearchOptions {
  topK : option nat;
  subjectId : option string;
  dataSourceIds : option (list string)
}.

(** The second argument of [insertEmbeddings]. *)
Record InsertMetadata : Type := mkInsertMetadata {
  im_subjectId : option string;
  im_dataSourceId : string
}.

(** A field of the collection schema. *)
Inductive DataType : Type :=
| Int64
| VarChar
| FloatVector
| JSON.

Record FieldType : Type := mkFieldType {
  field_name : string;
  data_type : DataType;
  is_primary_key : bool;
  autoID : bool;
  max_length : option N;
  dim : option N
}.

(** The request of [client.createIndex]. *)
Record CreateIndexReq : Type := mkCreateIndexReq {
  ci_collection_name : string;
  ci_field_name : string;
  ci_index_type : string;
  ci_metric_type : string;
  ci_M : nat;
  ci_efConstruction : nat
}.

(** One instance sent to the embedding model. *)
Record Instance : Type := mkInstance {
  inst_content : string;
  inst_task_type : string
}.

(** A part of a prompt, and the reply of the generative model:
    [result.response.candidates[i].content.parts[j].text]. *)
Inductive PromptPart : Type :=
| TextPart (text : string)
| InlineData (data mimeType : string).

Record Candidate : Type := mkCandidate {
  cand_content : option (list string)
}.

(** [None] when [response] or [response.candidates] is missing. *)
Definition GenResponse : Type := option (list Candidate).

Record GenerationConfig : Type := mkGenerationConfig {
  maxOutputTokens : N;
  temperature : float;
  topP : float
}.

(** The [topP: 0.95] of the generation requests, as the binary64 value that
    the literal denotes. *)
Definition topP_095 : float := 0x1.e666666666666p-1%float.

(** The configuration of the text splitter. *)
Record SplitterConfig : Type := mkSplitterConfig {
  chunkSize : N;
  chunkOverlap : N;
  separators : list string
}.

(** ** External calls and their history *)

(** The two places of [searchMilvus] that call [client.search]: the search
    of an invocation, and the second try after the index was rebuilt. *)
Inductive SearchSite : Type :=
| FirstTry
| AfterIndexRebuild.

Inductive Call : Type :=
| MilvusShowCollections
| MilvusLoadCollection (collection_name : string)
| MilvusCreateCollection (collection_name : string) (fields : list FieldType)
| MilvusDropCollection (collection_name : string)
| MilvusDescribeIndex (collection_name : string)
| MilvusCreateIndex (req : CreateIndexReq)
| MilvusDropIndex (collection_name : string)
| MilvusInsert (collection_name : string) (data : list Row)
| MilvusSearch (site : SearchSite) (req : SearchReq)
| MilvusDeleteEntities (collection_name filter : string)
| VertexPredict (endpoint : string) (instances : list Instance)
| GenerateContent (model : string) (parts : list PromptPart)
    (config : GenerationConfig)
| FsReadFile (path : string)
| DbFindUnique (id : string)
| DbFindMany (userId subject : string)
| DbUpdate (id content : string) (status : DataSourceStatus).

(** An event is a call with whether it succeeded or threw. *)
Record Event : Type := mkEvent {
  ev_call : Call;
  ev_ok : bool
}.

Definition Trace : Type := list Event.

(** The external world.  Each oracle is given the history of all earlier
    calls and answers with a value or with a thrown error. *)
Record Env : Type := mkEnv {
  (* Milvus client *)
  client_showCollections : Trace -> JsError + list string;
  client_loadCollection : Trace -> string -> JsError + unit;
  client_createCollection : Trace -> string -> list FieldType -> JsError + unit;
  client_describeIndex : Trace -> string -> JsError + list string;
  client_createIndex : Trace -> CreateIndexReq -> JsError + unit;
  client_dropIndex : Trace -> string -> JsError + unit;
  client_insert : Trace -> string -> list Row -> JsError + unit;
  client_search : Trace -> SearchReq -> JsError + option (list SearchResult);
  client_deleteEntities : Trace -> string -> string -> JsError + unit;
  (* Vertex AI *)
  GOOGLE_CLOUD_PROJECT : option string;
  predictionClient_predict :
    Trace -> string -> list Instance -> JsError + list Vector;
  gemini_model_ready : bool;
  query_model_ready : bool;
  model_generateContent :
    Trace -> string -> list PromptPart -> GenerationConfig ->
    JsError + GenResponse;
  (* file system and pure libraries *)
  fs_readFile : Trace -> string -> JsError + string;
  base64 : string -> string;
  mime_lookup : string -> option string;
  textSplitter_createDocuments : SplitterConfig -> list string -> list string;
  (* Prisma *)
  db_dataSource_findUnique : Trace -> string -> JsError + option (option string);
  db_dataSource_findMany : Trace -> string -> string -> JsError + list string;
  db_dataSource_update :
    Trace -> string -> string -> DataSourceStatus -> JsError + unit
}.

(** ** The monad of the asynchronous functions *)

Inductive Outcome (A : Type) : Type :=
| Returned (a : A)
| Thrown (e : JsError)
| OutOfFuel.

Arguments Returned {A} a.
Arguments Thrown {A} e.
Arguments OutOfFuel {A}.

(** A computation is run after a history and gives the events it emitted
    itself, oldest first, and how it ended. *)
Definition M (A : Type) : Type := Trace -> list Event * Outcome A.

Definition ret {A : Type} (a : A) : M A :=
  fun _ => ([], Returned a).

Definition throw {A : Type} (e : JsError) : M A :=
  fun _ => ([], Thrown e).

Definition diverge {A : Type} : M A :=
  fun _ => ([], OutOfFuel).

Definition bind {A B : Type} (m : M A) (k : A -> M B) : M B :=
  fun h =>
    match m h with
    | (evs, Returned a) =>
        let (evs', out) := k a (h ++ evs)%list in ((evs ++ evs')%list, out)
    | (evs, Thrown e) => (evs, Thrown e)
    | (evs, OutOfFuel) => (evs, OutOfFuel)
    end.

(** [try { m } catch (error) { handler error }]. *)
Definition try_catch {A : Type} (m : M A) (handler : JsError -> M A) : M A :=
  fun h =>
    match m h with
    | (evs, Thrown e) =>
        let (evs', out) := handler e (h ++ evs)%list in ((evs ++ evs')%list, out)
    | r => r
    end.

(** One call to an external service. *)
Definition call {R : Type} (c : Call) (oracle : Trace -> JsError + R) : M R :=
  fun h =>
    match oracle h with
    | inr r => ([mkEvent c true], Returned r)
    | inl e => ([mkEvent c false], Thrown e)
    end.

Declare Scope js_scope.
Delimit Scope js_scope with js.
Notation "x <- m ;; k" := (bind m (fun x => k))
  (at level 61, m at next level, right associativity) : js_scope.
Notation "m ;; k" := (bind m (fun _ => k))
  (at level 61, right associativity) : js_scope.
Notation "'try' m 'catch' x => k" := (try_catch m (fun x => k))
  (at level 10, m at level 200, x name, k at level 200) : js_scope.

Definition events {A : Type} (m : M A) (h : Trace) : list Event := fst (m h).
Definition outcome {A : Type} (m : M A) (h : Trace) : Outcome A := snd (m h).

(** ** The services and handlers *)

Section Model.

Variable E : Env.

Local Open Scope js_scope.

(** *** [src/services/gemini.service.ts] *)

Definition PROJECT_ID : string :=
  or_else (GOOGLE_CLOUD_PROJECT E) "learnability-project".
Definition LOCATION : string := "us-central1".
Definition MODEL_NAME : string := "gemini-2.5-flash".

Definition fileToGenerativePart (filePath : string) : M PromptPart :=
  fileContent <- call (FsReadFile filePath) (fun h => fs_readFile E h filePath) ;;
  let mimeType :=
    match mime_lookup E filePath with
    | Some t => t
    | None => "application/octet-stream"
    end in
  ret (InlineData (base64 E fileContent) mimeType).

(** [candidate.content.parts[0].text]; reading [parts[0]] of an empty
    [parts] throws a [TypeError]. *)
Definition first_part_text (parts : list string) : M string :=
  match parts with
  | text :: _ => ret text
  | [] => throw (typeError "Cannot read properties of undefined (reading 'text')")
  end.

Definition extractTextFromDocument (filePath : string) : M string :=
  try (
    if negb (gemini_model_ready E) then
      throw (newError "Gemini model not initialized")
    else
      filePart <- fileToGenerativePart filePath ;;
      let instructionText :=
        "Your task is to read the data from the given file, extract all the informations and write it in a structured format, if there any images" in
      let promptParts := [TextPart instructionText; filePart; TextPart "output"] in
      let config := mkGenerationConfig 8192 1%float topP_095 in
      response <- call (GenerateContent MODEL_NAME promptParts config)
                    (fun h => model_generateContent E h MODEL_NAME promptParts config) ;;
      match response with
      | None | Some [] => throw (newError "No response candidates returned")
      | Some (candidate :: _) =>
          extractedText <-
            match cand_content candidate with
            | Some parts => first_part_text parts
            | None => ret EmptyString
            end ;;
          (* [if (!extractedText) console.warn(...)]: a warning only *)
          ret extractedText
      end
  ) catch error =>
    throw (newError ("[GeminiService] Failed to extract text from document: "
                     ++ err_message error)).

(** The predictions are taken as already decoded to vectors; a malformed
    prediction makes the decoding throw, which is an error of the call. *)
Definition getEmbeddings (texts : string) : M (option Vector) :=
  let project := PROJECT_ID in
  let model := "text-embedding-005" in
  let task := "QUESTION_ANSWERING" in
  let location := "us-central1" in
  let endpoint :=
    "projects/" ++ project ++ "/locations/" ++ location
    ++ "/publishers/google/models/" ++ model in
  let instances := map (fun e => mkInstance e task) (split ";"%char texts) in
  predictions <- call (VertexPredict endpoint instances)
                   (fun h => predictionClient_predict E h endpoint instances) ;;
  let embeddings := predictions in
  ret (nth_error embeddings 0).

(** *** [src/services/milvus.ts] *)

Definition COLLECTION_NAME : string := "learnability_sources".
Definition DIMENSION : N := 768.

Definition has_collection (collections : list string) : bool :=
  existsb (String.eqb COLLECTION_NAME) collections.

Definition showCollections : M (list string) :=
  call MilvusShowCollections (client_showCollections E).

Definition loadCollection (name : string) : M unit :=
  call (MilvusLoadCollection name) (fun h => client_loadCollection E h name).

Definition schema_fields : list FieldType :=
  [ mkFieldType "id" Int64 true true None None;
    mkFieldType "text" VarChar false false (Some 4000%N) None;
    mkFieldType "embedding" FloatVector false false None (Some DIMENSION);
    mkFieldType "user_id" VarChar false false (Some 50%N) None;
    mkFieldType "subject_id" VarChar false false (Some 50%N) None;
    mkFieldType "data_source_id" VarChar false false (Some 50%N) None;
    mkFieldType "metadata" JSON false false (Some 2048%N) None ].

Definition createCollection : M unit :=
  try (
    collections <- showCollections ;;
    if has_collection collections then ret tt
    else call (MilvusCreateCollection COLLECTION_NAME schema_fields)
           (fun h => client_createCollection E h COLLECTION_NAME schema_fields)
  ) catch error => throw error.

Definition embedding_index_req : CreateIndexReq :=
  mkCreateIndexReq COLLECTION_NAME "embedding" "HNSW" "COSINE" 16 200.

Definition createIndex : M unit :=
  try (
    collections <- showCollections ;;
    if negb (has_collection collections) then ret tt
    else
      embeddingIndex <-
        (try (
           indexInfo <- call (MilvusDescribeIndex COLLECTION_NAME)
                          (fun h => client_describeIndex E h COLLECTION_NAME) ;;
           ret (existsb (String.eqb "embedding") indexInfo)
         ) catch error => ret false) ;;
      if embeddingIndex then ret tt
      else call (MilvusCreateIndex embedding_index_req)
             (fun h => client_createIndex E h embedding_index_req)
  ) catch error => throw error.

(** The initialisation that runs when the module is loaded. *)
Definition initialize : M unit :=
  try (createCollection ;; createIndex)
  catch error => ret tt.

Definition insert_row (doc : ChunkDoc) (embedding : Vector) (userId : string)
    (metadata : InsertMetadata) : Row :=
  let enhancedMetadata :=
    {| chunk_id := doc_chunk_id doc;
       md_subjectId := or_null (im_subjectId metadata);
       md_dataSourceId := im_dataSourceId metadata |} in
  {| row_text := pageContent doc;
     row_embedding := embedding;
     row_metadata := enhancedMetadata;
     row_user_id := userId;
     row_subject_id := or_else (im_subjectId metadata) EmptyString;
     row_data_source_id := im_dataSourceId metadata |}.

(** The [for (const doc of documents)] loop of [insertEmbeddings]. *)
Fixpoint insert_loop (documents : list ChunkDoc) (userId : string)
    (metadata : InsertMetadata) : M unit :=
  match documents with
  | [] => ret tt
  | doc :: rest =>
      embedding <- getEmbeddings (pageContent doc) ;;
      match embedding with
      | None => insert_loop rest userId metadata          (* [continue] *)
      | Some embedding =>
          let data := [insert_row doc embedding userId metadata] in
          call (MilvusInsert COLLECTION_NAME data)
            (fun h => client_insert E h COLLECTION_NAME data) ;;
          insert_loop rest userId metadata
      end
  end.

Definition insertEmbeddings (documents : list ChunkDoc) (userId : string)
    (metadata : InsertMetadata) : M unit :=
  try (insert_loop documents userId metadata)
  catch error => ret tt.

Definition has_ids (dataSourceIds : option (list string)) : bool :=
  match dataSourceIds with
  | Some (_ :: _) => true
  | _ => false
  end.

(** The [filter] string that [searchMilvus] builds. *)
Definition search_filter (userId : string) (subjectId : option string)
    (dataSourceIds : option (list string)) : string :=
  let filter := "user_id == " ++ dquote ++ userId ++ dquote in
  match dataSourceIds with
  | Some (id :: ids) =>
      let dataSourceFilter :=
        String.concat " || "
          (map (fun id => "data_source_id == " ++ dquote ++ id ++ dquote)
               (id :: ids)) in
      filter ++ " && (" ++ dataSourceFilter ++ ")"
  | _ =>
      match subjectId with
      | Some s =>
          if truthy s then filter ++ " && subject_id == " ++ dquote ++ s ++ dquote
          else filter
      | None => filter
      end
  end.

Definition no_results (searchResults : option (list SearchResult)) : bool :=
  match searchResults with
  | None | Some [] => true
  | Some (_ :: _) => false
  end.

Definition to_hits (searchResults : option (list SearchResult)) : list Hit :=
  match searchResults with
  | None => []
  | Some results =>
      map (fun result =>
             mkHit (res_text result) (res_score result) (res_metadata result))
          results
  end.

Definition search (site : SearchSite) (req : SearchReq)
  : M (option (list SearchResult)) :=
  call (MilvusSearch site req) (fun h => client_search E h req).

(** [searchMilvus] calls itself for the subject fallback; [fuel] bounds the
    depth of these calls. *)
Fixpoint searchMilvus_rec (fuel : nat) (queryText userId : string)
    (options : SearchOptions) : M (list Hit) :=
  match fuel with
  | O => diverge
  | S fuel' =>
    try (
      collections <- showCollections ;;
      if negb (has_collection collections) then ret []
      else
        loaded <- (try (loadCollection COLLECTION_NAME ;; ret true)
                   catch error => ret false) ;;
        if negb loaded then ret []
        else
          let topK := match topK options with Some k => k | None => 2 end in
          let subjectId := subjectId options in
          let dataSourceIds := dataSourceIds options in
          queryEmbedding <- getEmbeddings queryText ;;
          match queryEmbedding with
          | None => ret []
          | Some queryEmbedding =>
              let filter := search_filter userId subjectId dataSourceIds in
              let req :=
                mkSearchReq COLLECTION_NAME queryEmbedding topK "COSINE" filter in
              try (
                searchResults <- search FirstTry req ;;
                if no_results searchResults then
                  if has_ids dataSourceIds && truthy_opt subjectId then
                    searchMilvus_rec fuel' queryText userId
                      (mkSearchOptions (Some topK) subjectId None)
                  else ret []
                else ret (to_hits searchResults)
              ) catch error =>
                if includes (error_toString error) "IndexNotExist" then
                  createIndex ;;
                  (try (
                     searchResults <- search AfterIndexRebuild req ;;
                     if no_results searchResults then ret []
                     else ret (to_hits searchResults)
                   ) catch retryError => ret [])
                else ret []
          end
    ) catch error => ret []
  end.

(** One nested call is all a run can make (see [searchMilvus_fuel]), so two
    units of fuel stand for the unbounded recursion of the source. *)
Definition searchMilvus : string -> string -> SearchOptions -> M (list Hit) :=
  searchMilvus_rec 2.

Definition deleteEmbeddingsByDataSource (dataSourceId : string) : M unit :=
  try (
    loadCollection COLLECTION_NAME ;;
    let filter := "data_source_id == " ++ dquote ++ dataSourceId ++ dquote in
    call (MilvusDeleteEntities COLLECTION_NAME filter)
      (fun h => client_deleteEntities E h COLLECTION_NAME filter)
  ) catch error => ret tt.

Definition deleteEmbeddingsBySubject (subject : string) : M unit :=
  try (
    loadCollection COLLECTION_NAME ;;
    let filter := "subject_id == " ++ dquote ++ subject ++ dquote in
    call (MilvusDeleteEntities COLLECTION_NAME filter)
      (fun h => client_deleteEntities E h COLLECTION_NAME filter)
  ) catch error => ret tt.



(** *** [src/handler/source.handler.ts] *)

Record UploadedFile : Type := mkUploadedFile {
  file_path : string;
  originalname : string
}.

Definition splitter_config : SplitterConfig :=
  mkSplitterConfig 2000 200 [newline ++ newline; newline; " "; EmptyString].

Definition db_update (id content : string) (status : DataSourceStatus) : M unit :=
  call (DbUpdate id content status)
    (fun h => db_dataSource_update E h id content status).

(** [db.dataSource.findUnique] with [select: { subjectId: true }] answers
    [None] for no such record and [Some subjectId] otherwise. *)
Definition processFileAsync (file : UploadedFile) (dataSourceId userId : string)
  : M unit :=
  try (
    let filePath := file_path file in
    dataSource <- call (DbFindUnique dataSourceId)
                    (fun h => db_dataSource_findUnique E h dataSourceId) ;;
    extractedText <- extractTextFromDocument filePath ;;
    let bufferOutput :=
      textSplitter_createDocuments E splitter_config [extractedText] in
    let output :=
      mapi (fun chunk index => mkChunkDoc chunk index) bufferOutput in
    insertEmbeddings output userId
      {| im_subjectId :=
           or_null (match dataSource with
                    | Some subject => subject
                    | None => None
                    end);
         im_dataSourceId := dataSourceId |} ;;
    db_update dataSourceId extractedText COMPLETED
  ) catch error =>
    db_update dataSourceId ("Error processing: " ++ err_message error) ERROR ;;
    throw error.

(** *** [src/handler/query.handler.ts] *)

Definition QUERY_MODEL_NAME : string := "gemini-2.5-flash-preview-04-17".

(** The request after the authentication middleware: the tenant, and the
    [query] and [subjectId] of the body.  [body_query] is [None] when the
    field is missing or is not a string. *)
Record QueryRequest : Type := mkQueryRequest {
  req_userId : string;
  body_query : option string;
  body_subjectId : option string
}.

Inductive ResponseBody : Type :=
| MessageBody (success : bool) (message : string) (error : option string)
| AnswerBody (success : bool) (answer query : string)
    (relevanceScore : float) (subject : option string).

Record HttpResponse : Type := mkHttpResponse {
  res_status : nat;
  res_body : ResponseBody
}.

Definition no_context_answer : string :=
  "I couldn't find any relevant information related to your question in the materials for this subject. Would you like to add more materials on this topic?".

Definition search_trouble_answer : string :=
  "I'm having trouble searching through your materials right now. This could be because the vector database is still initializing or needs maintenance. Please try again in a few moments.".

Definition systemPrompt : string :=
  newline
  ++ "      You are a helpful AI tutor designed to help students learn. " ++ newline
  ++ "      Your knowledge comes from the provided context only." ++ newline
  ++ "      If the context doesn't contain enough information to fully answer the question, acknowledge what you know " ++ newline
  ++ "      from the context and suggest what additional information might be needed." ++ newline
  ++ "      Always be encouraging, clear, and explain concepts in a way that's easy to understand." ++ newline
  ++ "    ".

(** [contextChunks[0].score] when there is a first chunk, else [0]. *)
Definition first_score (contextChunks : list Hit) : float :=
  match contextChunks with
  | chunk :: _ => hit_score chunk
  | [] => 0%float
  end.

Definition answerUserQuery (req : QueryRequest) : M HttpResponse :=
  try (
    let userId := req_userId req in
    let subject := body_subjectId req in
    match body_query req with
    | None =>
        ret (mkHttpResponse 400
               (MessageBody false "Query is required and must be a string" None))
    | Some query =>
      if negb (truthy query) then
        ret (mkHttpResponse 400
               (MessageBody false "Query is required and must be a string" None))
      else if negb (query_model_ready E) then
        ret (mkHttpResponse 500
               (MessageBody false "Gemini model not initialized" None))
      else
        let searchOptions := mkSearchOptions (Some 3) None None in
        try (
          searchOptions <-
            (if truthy_opt subject then
               let s := or_else subject EmptyString in
               dataSources <- call (DbFindMany userId s)
                                (fun h => db_dataSource_findMany E h userId s) ;;
               let ids := dataSources in
               if Nat.ltb 0 (List.length ids) then
                 ret (mkSearchOptions (topK searchOptions)
                        (subjectId searchOptions) (Some ids))
               else
                 ret (mkSearchOptions (topK searchOptions) (Some s)
                        (dataSourceIds searchOptions))
             else ret searchOptions) ;;
          contextChunks <- searchMilvus query userId searchOptions ;;
          if Nat.eqb (List.length contextChunks) 0 then
            ret (mkHttpResponse 200
                   (AnswerBody true no_context_answer query 0%float
                      (or_null subject)))
          else
            let contextText :=
              String.concat (newline ++ newline) (map hit_text contextChunks) in
            let prompt :=
              systemPrompt ++ newline ++ newline ++ "Context:" ++ newline
              ++ contextText ++ newline ++ newline ++ "User Question: " ++ query in
            let config := mkGenerationConfig 8192 1%float topP_095 in
            response <- call (GenerateContent QUERY_MODEL_NAME [TextPart prompt] config)
                          (fun h => model_generateContent E h QUERY_MODEL_NAME
                                      [TextPart prompt] config) ;;
            match response with
            | None | Some [] =>
                ret (mkHttpResponse 500
                       (MessageBody false "No response generated from AI" None))
            | Some (candidate :: _) =>
                answer <-
                  match cand_content candidate with
                  | Some parts => first_part_text parts
                  | None =>
                      throw (typeError
                               "Cannot read properties of undefined (reading 'parts')")
                  end ;;
                ret (mkHttpResponse 200
                       (AnswerBody true answer query (first_score contextChunks)
                          (or_null subject)))
            end
        ) catch searchError =>
          ret (mkHttpResponse 200
                 (AnswerBody true search_trouble_answer query 0%float
                    (or_null subject)))
    end
  ) catch error =>
    ret (mkHttpResponse 500
           (MessageBody false "Failed to answer query" (Some (err_message error)))).

(** *** The admin handler *)


End Model.

Arguments PROJECT_ID E : simpl never.

(** ** Notions used in the statements *)

(** The instances that [getEmbeddings] sends for a text. *)
Definition instances_of (text : string) : list Instance :=
  map (fun e => mkInstance e "QUESTION_ANSWERING") (split ";"%char text).

(** The text before the first semicolon of [s] (all of [s] when it has
    none). *)
Fixpoint before_semicolon (s : string) : string :=
  match s with
  | EmptyString => EmptyString
  | String c rest =>
      if Ascii.eqb c ";"%char then EmptyString
      else String c (before_semicolon rest)
  end.

(** The nesting depth of [searchMilvus] calls that the options can lead to. *)
Definition fallback_depth (options : SearchOptions) : nat :=
  if has_ids (dataSourceIds options) && truthy_opt (subjectId options)
  then 2 else 1.

(** ** What a run leaves behind *)

(** The rows that reached the index: the data of the inserts that
    succeeded. *)
Definition inserted_rows (evs : list Event) : list Row :=
  flat_map (fun ev =>
              match ev_call ev, ev_ok ev with
              | MilvusInsert _ data, true => data
              | _, _ => []
              end) evs.

(** The embedding requests that were sent. *)
Definition predict_calls (evs : list Event) : list (list Instance) :=
  flat_map (fun ev =>
              match ev_call ev with
              | VertexPredict _ instances => [instances]
              | _ => []
              end) evs.

(** The writes to the document record that succeeded, as
    [(id, content, status)]. *)
Definition status_writes (evs : list Event)
  : list (string * string * DataSourceStatus) :=
  flat_map (fun ev =>
              match ev_call ev, ev_ok ev with
              | DbUpdate id content status, true => [(id, content, status)]
              | _, _ => []
              end) evs.

(** The search requests that were sent, with the place that sent them. *)
Definition search_requests (evs : list Event) : list (SearchSite * SearchReq) :=
  flat_map (fun ev =>
              match ev_call ev with
              | MilvusSearch site req => [(site, req)]
              | _ => []
              end) evs.

(** The searches of the [FirstTry] place: the primary search of a run and
    the primary search of each nested fallback invocation. *)
Definition first_tries (evs : list Event) : list SearchReq :=
  flat_map (fun ev =>
              match ev_call ev with
              | MilvusSearch FirstTry req => [req]
              | _ => []
              end) evs.

(** The text extractions that were started (one model request each). *)
Definition extraction_calls (evs : list Event) : nat :=
  List.length
    (List.filter (fun ev =>
                    match ev_call ev with
                    | GenerateContent _ _ _ => true
                    | _ => false
                    end) evs).

(** Calls that change the stored entities or remove a collection. *)
Definition changes_entities (c : Call) : bool :=
  match c with
  | MilvusInsert _ _ | MilvusDeleteEntities _ _ | MilvusDropCollection _ => true
  | _ => false
  end.

(** The calls by which [searchMilvus] checks and prepares the collection. *)
Definition is_upkeep (c : Call) : bool :=
  match c with
  | MilvusShowCollections | MilvusLoadCollection _
  | MilvusDescribeIndex _ | MilvusCreateIndex _ => true
  | _ => false
  end.


(** The arguments with which [resetMilvusIndex] makes its calls. *)
Definition reset_call (c : Call) : Prop :=
  match c with
  | MilvusShowCollections => True
  | MilvusCreateCollection name fields =>
      name = COLLECTION_NAME /\ fields = schema_fields
  | MilvusDropIndex name | MilvusDescribeIndex name | MilvusLoadCollection name =>
      name = COLLECTION_NAME
  | MilvusCreateIndex req => req = embedding_index_req
  | _ => False
  end.

(** The error with which the environment answers the call [c] made after
    the history [h], when it answers with one. *)
Definition error_of {R : Type} (answer : JsError + R) : option JsError :=
  match answer with
  | inl e => Some e
  | inr _ => None
  end.

Definition thrown_by (E : Env) (h : Trace) (c : Call) : option JsError :=
  match c with
  | MilvusShowCollections => error_of (client_showCollections E h)
  | MilvusLoadCollection name => error_of (client_loadCollection E h name)
  | MilvusCreateCollection name fields =>
      error_of (client_createCollection E h name fields)
  | MilvusDropCollection _ => None
  | MilvusDescribeIndex name => error_of (client_describeIndex E h name)
  | MilvusCreateIndex req => error_of (client_createIndex E h req)
  | MilvusDropIndex name => error_of (client_dropIndex E h name)
  | MilvusInsert name data => error_of (client_insert E h name data)
  | MilvusSearch _ req => error_of (client_search E h req)
  | MilvusDeleteEntities name filter =>
      error_of (client_deleteEntities E h name filter)
  | VertexPredict endpoint instances =>
      error_of (predictionClient_predict E h endpoint instances)
  | GenerateContent model parts config =>
      error_of (model_generateContent E h model parts config)
  | FsReadFile path => error_of (fs_readFile E h path)
  | DbFindUnique id => error_of (db_dataSource_findUnique E h id)
  | DbFindMany userId subject => error_of (db_dataSource_findMany E h userId subject)
  | DbUpdate id content status =>
      error_of (db_dataSource_update E h id content status)
  end.

(** [l1] is [l2] with some elements left out. *)
Inductive subsequence {A : Type} : list A -> list A -> Prop :=
| sub_nil : subsequence [] []
| sub_skip (x : A) (l1 l2 : list A) :
    subsequence l1 l2 -> subsequence l1 (x :: l2)
| sub_keep (x : A) (l1 l2 : list A) :
    subsequence l1 l2 -> subsequence (x :: l1) (x :: l2).

(** The calls of the embedding loop, and those of the text extraction. *)
Definition is_embedding_call (c : Call) : bool :=
  match c with
  | VertexPredict _ _ | MilvusInsert _ _ => true
  | _ => false
  end.

Definition is_extraction_call (c : Call) : bool :=
  match c with
  | FsReadFile _ | GenerateContent _ _ _ => true
  | _ => false
  end.

(** A candidate of the model from which no text is extracted: it has no
    content, or its first part is the empty text. *)
Definition empty_candidate (c : Candidate) : Prop :=
  cand_content c = None
  \/ exists parts, cand_content c = Some (EmptyString :: parts).

(** Some insert of the history threw. *)
Definition insert_failed (evs : list Event) : bool :=
  existsb (fun ev => match ev_call ev with
                     | MilvusInsert _ _ => negb (ev_ok ev)
                     | _ => false
                     end) evs.

(** The chunks that [processFileAsync] makes of an extracted text. *)
Definition chunks_of (E : Env) (extractedText : string) : list string :=
  textSplitter_createDocuments E splitter_config [extractedText].

(** The rows that the loop of [insertEmbeddings] leaves in the index, read
    off the answers [embed] of the embedding model and [store] of the vector
    store to each chunk: a chunk whose embedding comes back empty is
    skipped, and the first embedding or insert that throws ends the loop. *)
Fixpoint indexed (embed : string -> JsError + list Vector)
    (store : list Row -> JsError + unit) (userId : string)
    (metadata : InsertMetadata) (documents : list ChunkDoc) : list Row :=
  match documents with
  | [] => []
  | doc :: rest =>
      match embed (pageContent doc) with
      | inl _ => []
      | inr [] => indexed embed store userId metadata rest
      | inr (embedding :: _) =>
          let row := insert_row doc embedding userId metadata in
          match store [row] with
          | inl _ => []
          | inr _ => row :: indexed embed store userId metadata rest
          end
      end
  end.

(** ** Filters as expressions

    [searchMilvus] hands the vector store a filter written as a string.
    [FilterExpr] is the boolean expression that such a string denotes for
    the store, [render] prints an expression the way the code writes it, and
    [eval] is its truth value on a stored row. *)

Inductive Field : Type :=
| F_user_id
| F_subject_id
| F_data_source_id.

Definition field_text (f : Field) : string :=
  match f with
  | F_user_id => "user_id"
  | F_subject_id => "subject_id"
  | F_data_source_id => "data_source_id"
  end.

Definition field_of (f : Field) (r : Row) : string :=
  match f with
  | F_user_id => row_user_id r
  | F_subject_id => row_subject_id r
  | F_data_source_id => row_data_source_id r
  end.

Inductive FilterExpr : Type :=
| FEq (f : Field) (value : string)
| FIn (f : Field) (values : list string)
| FAnd (a b : FilterExpr).

Definition render_eq (f : Field) (value : string) : string :=
  field_text f ++ " == " ++ dquote ++ value ++ dquote.

Fixpoint render (e : FilterExpr) : string :=
  match e with
  | FEq f value => render_eq f value
  | FIn f values => "(" ++ String.concat " || " (map (render_eq f) values) ++ ")"
  | FAnd a b => render a ++ " && " ++ render b
  end.

Fixpoint eval (e : FilterExpr) (r : Row) : bool :=
  match e with
  | FEq f value => String.eqb (field_of f r) value
  | FIn f values => existsb (String.eqb (field_of f r)) values
  | FAnd a b => eval a r && eval b r
  end.

(** The expression of the filter that [searchMilvus] builds. *)
Definition filter_expr (userId : string) (subjectId : option string)
    (dataSourceIds : option (list string)) : FilterExpr :=
  let tenant := FEq F_user_id userId in
  match dataSourceIds with
  | Some (id :: ids) =>
      FAnd tenant (FIn F_data_source_id (id :: ids))
  | _ =>
      match subjectId with
      | Some s => if truthy s then FAnd tenant (FEq F_subject_id s) else tenant
      | None => tenant
      end
  end.

(** The scope of a query in the words of the specification: with a subject
    and at least one document of that subject, the tenant and membership of
    the document in the set; with a subject and no document, the tenant and
    the subject; without a subject, the tenant alone. *)
Definition scope_expr (tenant : string) (subject : option string)
    (ids : list string) : FilterExpr :=
  if truthy_opt subject then
    match ids with
    | _ :: _ => FAnd (FEq F_user_id tenant) (FIn F_data_source_id ids)
    | [] => FAnd (FEq F_user_id tenant)
              (FEq F_subject_id (or_else subject EmptyString))
    end
  else FEq F_user_id tenant.

(** The rows that the scope of a query admits. *)
Definition in_scope (tenant : string) (subject : option string)
    (ids : list string) (r : Row) : Prop :=
  row_user_id r = tenant
  /\ (truthy_opt subject = true ->
      match ids with
      | _ :: _ => In (row_data_source_id r) ids
      | [] => row_subject_id r = or_else subject EmptyString
      end).

(** ** The store's reading of a filter string

    The vector store does not receive an expression but a string, which it
    reads itself.  [read_filter] is that reading for the part of the filter
    language that the code writes: comparisons [name == "text"], joined by
    [&&] and [||] ([&&] binding tighter) and grouped by parentheses.  A
    string that is not of this form, or that has a backslash inside a text,
    is not read ([None]), and then no row is selected. *)

Inductive Token : Type :=
| TName (name : string)
| TText (text : string)
| TEquals
| TAnd
| TOr
| TOpen
| TClose.

Inductive LexState : Type :=
| Between
| InName (acc : string)
| InText (acc : string)
| AfterEquals
| AfterAmpersand
| AfterBar.

Definition backslash : ascii := "092"%char.

Definition is_name_char (c : ascii) : bool :=
  let n := N_of_ascii c in
  (N.leb 97 n && N.leb n 122) || (N.leb 65 n && N.leb n 90)
  || (N.leb 48 n && N.leb n 57) || N.eqb n 95.

Definition lex_start (c : ascii) : option (list Token * LexState) :=
  if Ascii.eqb c " " then Some ([], Between)
  else if Ascii.eqb c "(" then Some ([TOpen], Between)
  else if Ascii.eqb c ")" then Some ([TClose], Between)
  else if Ascii.eqb c "=" then Some ([], AfterEquals)
  else if Ascii.eqb c "&" then Some ([], AfterAmpersand)
  else if Ascii.eqb c "|" then Some ([], AfterBar)
  else if Ascii.eqb c "034" then Some ([], InText EmptyString)
  else if is_name_char c then Some ([], InName (String c EmptyString))
  else None.

Definition lex_step (st : LexState) (c : ascii) : option (list Token * LexState) :=
  match st with
  | Between => lex_start c
  | InName acc =>
      if is_name_char c then Some ([], InName (acc ++ String c EmptyString))
      else match lex_start c with
           | Some (ts, st') => Some (TName acc :: ts, st')
           | None => None
           end
  | InText acc =>
      if Ascii.eqb c "034" then Some ([TText acc], Between)
      else if Ascii.eqb c backslash then None
      else Some ([], InText (acc ++ String c EmptyString))
  | AfterEquals => if Ascii.eqb c "=" then Some ([TEquals], Between) else None
  | AfterAmpersand => if Ascii.eqb c "&" then Some ([TAnd], Between) else None
  | AfterBar => if Ascii.eqb c "|" then Some ([TOr], Between) else None
  end.

Fixpoint lex_from (st : LexState) (s : string) : option (list Token) :=
  match s with
  | EmptyString =>
      match st with
      | Between => Some []
      | InName acc => Some [TName acc]
      | _ => None
      end
  | String c rest =>
      match lex_step st c with
      | None => None
      | Some (ts, st') =>
          match lex_from st' rest with
          | Some ts' => Some (ts ++ ts')%list
          | None => None
          end
      end
  end.

Definition lex : string -> option (list Token) := lex_from Between.

Inductive Expr : Type :=
| EEq (name value : string)
| EAnd (a b : Expr)
| EOr (a b : Expr).

Record Frame : Type := mkFrame {
  alternatives : option Expr;
  conjunction : option Expr
}.

Definition and_with (acc : option Expr) (e : Expr) : Expr :=
  match acc with
  | Some a => EAnd a e
  | None => e
  end.

Definition or_with (acc : option Expr) (e : Expr) : Expr :=
  match acc with
  | Some a => EOr a e
  | None => e
  end.

Fixpoint parse_from (operand : bool) (cur : Frame) (stack : list Frame)
    (ts : list Token) : option Expr :=
  match ts with
  | [] =>
      if operand then None
      else match stack, conjunction cur with
           | [], Some c => Some (or_with (alternatives cur) c)
           | _, _ => None
           end
  | t :: rest =>
      if operand then
        match t, rest with
        | TName name, TEquals :: TText value :: rest' =>
            parse_from false
              (mkFrame (alternatives cur)
                 (Some (and_with (conjunction cur) (EEq name value))))
              stack rest'
        | TOpen, _ => parse_from true (mkFrame None None) (cur :: stack) rest
        | _, _ => None
        end
      else
        match t with
        | TAnd => parse_from true cur stack rest
        | TOr =>
            match conjunction cur with
            | Some c =>
                parse_from true
                  (mkFrame (Some (or_with (alternatives cur) c)) None) stack rest
            | None => None
            end
        | TClose =>
            match stack, conjunction cur with
            | parent :: stack', Some c =>
                parse_from false
                  (mkFrame (alternatives parent)
                     (Some (and_with (conjunction parent)
                              (or_with (alternatives cur) c))))
                  stack' rest
            | _, _ => None
            end
        | _ => None
        end
  end.

Definition read_filter (filter : string) : option Expr :=
  match lex filter with
  | Some ts => parse_from true (mkFrame None None) [] ts
  | None => None
  end.

Definition column (name : string) (r : Row) : option string :=
  if String.eqb name "user_id" then Some (row_user_id r)
  else if String.eqb name "subject_id" then Some (row_subject_id r)
  else if String.eqb name "data_source_id" then Some (row_data_source_id r)
  else if String.eqb name "text" then Some (row_text r)
  else None.

Fixpoint holds (e : Expr) (r : Row) : bool :=
  match e with
  | EEq name value =>
      match column name r with
      | Some v => String.eqb v value
      | None => false
      end
  | EAnd a b => holds a r && holds b r
  | EOr a b => holds a r || holds b r
  end.

Definition selects (filter : string) (r : Row) : bool :=
  match read_filter filter with
  | Some e => holds e r
  | None => false
  end.

Fixpoint plain (s : string) : bool :=
  match s with
  | EmptyString => true
  | String c rest =>
      negb (Ascii.eqb c "034") && negb (Ascii.eqb c backslash) && plain rest
  end.

Definition plain_opt (x : option string) : bool :=
  match x with
  | Some s => plain s
  | None => true
  end.

Definition plain_ids (x : option (list string)) : bool :=
  match x with
  | Some ids => forallb plain ids
  | None => true
  end.

(** The filter string confines a search to the rows of the tenant
    [userId]: the store can read it, and it selects only rows whose
    [user_id] is [userId]. *)
Definition confines (userId : string) (filter : string) : Prop :=
  (exists e, read_filter filter = Some e)
  /\ forall r, selects filter r = true -> row_user_id r = userId.

(** The tokens of one comparison, and of comparisons joined by [||]. *)
Definition atom_tokens (f : Field) (value : string) : list Token :=
  [TName (field_text f); TEquals; TText value].

Fixpoint or_tokens (f : Field) (values : list string) : list Token :=
  match values with
  | [] => []
  | [value] => atom_tokens f value
  | value :: rest => (atom_tokens f value ++ TOr :: or_tokens f rest)%list
  end.

(** The tokens of a piece of text and the state of the reader after it. *)
Fixpoint lex_run (st : LexState) (s : string) : option (list Token * LexState) :=
  match s with
  | EmptyString => Some ([], st)
  | String c rest =>
      match lex_step st c with
      | None => None
      | Some (ts, st') =>
          match lex_run st' rest with
          | Some (ts', st'') => Some ((ts ++ ts')%list, st'')
          | None => None
          end
      end
  end.

(** A search result is taken from the row [r], and so is a hit. *)
Definition result_of (r : Row) (res : SearchResult) : Prop :=
  res_text res = row_text r /\ res_metadata res = row_metadata r.

Definition hit_of (r : Row) (hit : Hit) : Prop :=
  hit_text hit = row_text r /\ hit_metadata hit = row_metadata r.

(** The vector store holds [rows] and answers a search only with rows that
    the filter of the request selects. *)
Definition honest_store (E : Env) (rows : list Row) : Prop :=
  forall h req results,
    client_search E h req = inr (Some results) ->
    Forall (fun res => exists r,
                In r rows /\ selects (sr_filter req) r = true /\ result_of r res)
      results.

(** ** The entities of the vector store

    What the calls of a history do to the stored entities, for a store that
    appends on insert, removes the matching rows on delete and forgets a
    dropped collection.  [matches] is the store's reading of a filter
    string. *)

Definition Store : Type := list (string * list Row).

Fixpoint entities (st : Store) (name : string) : list Row :=
  match st with
  | [] => []
  | (n, rows) :: st' => if String.eqb n name then rows else entities st' name
  end.

Fixpoint has_entry (st : Store) (name : string) : bool :=
  match st with
  | [] => false
  | (n, _) :: st' => String.eqb n name || has_entry st' name
  end.

Fixpoint update_rows (st : Store) (name : string)
    (f : list Row -> list Row) : Store :=
  match st with
  | [] => []
  | (n, rows) :: st' =>
      if String.eqb n name then (n, f rows) :: st'
      else (n, rows) :: update_rows st' name f
  end.

Fixpoint drop_entry (st : Store) (name : string) : Store :=
  match st with
  | [] => []
  | (n, rows) :: st' =>
      if String.eqb n name then drop_entry st' name
      else (n, rows) :: drop_entry st' name
  end.

Section StoreSemantics.

Variable matches : string -> Row -> bool.

Definition store_step (st : Store) (ev : Event) : Store :=
  if negb (ev_ok ev) then st
  else
    match ev_call ev with
    | MilvusCreateCollection name _ =>
        if has_entry st name then st else (name, []) :: st
    | MilvusDropCollection name => drop_entry st name
    | MilvusInsert name data => update_rows st name (fun rows => (rows ++ data)%list)
    | MilvusDeleteEntities name filter =>
        update_rows st name
          (List.filter (fun r => negb (matches filter r)))
    | _ => st
    end.

Definition store_after (evs : list Event) (st : Store) : Store :=
  fold_left store_step evs st.

End StoreSemantics.

(** ** Scripted environments

    Environments whose answers do not depend on the history, given by a
    small script; every call that the script does not mention succeeds. *)

Record Script : Type := mkScript {
  sc_collections : list string;
  sc_predict : list Instance -> JsError + list Vector;
  sc_search : SearchReq -> JsError + option (list SearchResult);
  sc_insert : list Row -> JsError + unit;
  sc_generate : string -> JsError + GenResponse;
  sc_documents : string -> string -> list string;
  sc_splitter : SplitterConfig -> string -> list string
}.

Definition scripted (s : Script) : Env :=
  {| client_showCollections := fun _ => inr (sc_collections s);
     client_loadCollection := fun _ _ => inr tt;
     client_createCollection := fun _ _ _ => inr tt;
     client_describeIndex := fun _ _ => inr ["embedding"];
     client_createIndex := fun _ _ => inr tt;
     client_dropIndex := fun _ _ => inr tt;
     client_insert := fun _ _ data => sc_insert s data;
     client_search := fun _ req => sc_search s req;
     client_deleteEntities := fun _ _ _ => inr tt;
     GOOGLE_CLOUD_PROJECT := None;
     predictionClient_predict := fun _ _ instances => sc_predict s instances;
     gemini_model_ready := true;
     query_model_ready := true;
     model_generateContent := fun _ model _ _ => sc_generate s model;
     fs_readFile := fun _ _ => inr "%PDF";
     base64 := fun content => content;
     mime_lookup := fun _ => Some "application/pdf";
     textSplitter_createDocuments :=
       fun config texts => flat_map (sc_splitter s config) texts;
     db_dataSource_findUnique := fun _ _ => inr (Some None);
     db_dataSource_findMany := fun _ userId subject => inr (sc_documents s userId subject);
     db_dataSource_update := fun _ _ _ _ => inr tt |}.

(** A stand-in embedding model: one coordinate per character of the text. *)
Definition length_embedding (text : string) : Vector :=
  repeat 1%float (String.length text).

Definition embed_each (instances : list Instance) : JsError + list Vector :=
  inr (map (fun i => length_embedding (inst_content i)) instances).

(** A stand-in for the text splitter, for texts without white space at
    their ends: a text that fits in one chunk is one chunk (no chunk when it
    is empty), and a longer text is cut at its blank lines.  It gives the
    chunks of [RecursiveCharacterTextSplitter] for a text that fits in one
    chunk, and for a longer text each of whose paragraphs fits in one chunk
    while no two neighbours fit in one together. *)
Fixpoint split_blank_lines (s : string) : list string :=
  match s with
  | EmptyString => [EmptyString]
  | String c rest =>
      let continued :=
        match split_blank_lines rest with
        | [] => [String c EmptyString]
        | seg :: segs => String c seg :: segs
        end in
      match rest with
      | String c' rest' =>
          if Ascii.eqb c "010" && Ascii.eqb c' "010"
          then EmptyString :: split_blank_lines rest'
          else continued
      | EmptyString => continued
      end
  end.

Definition paragraphs (config : SplitterConfig) (text : string) : list string :=
  if N.leb (N.of_nat (String.length text)) (chunkSize config)
  then List.filter truthy [text]
  else List.filter truthy (split_blank_lines text).

(** A stand-in vector store that holds [rows]: it answers a search with the
    rows that it reads the filter to select, at most [limit] of them. *)
Definition search_rows (rows : list Row) (req : SearchReq)
  : JsError + option (list SearchResult) :=
  inr (Some (map (fun r => mkSearchResult (row_text r) 0.5%float (row_metadata r))
               (firstn (sr_limit req)
                  (List.filter (selects (sr_filter req)) rows)))).

(** A model reply with one candidate made of the given text. *)
Definition reply (text : string) : JsError + GenResponse :=
  inr (Some [mkCandidate (Some [text])]).

(** A thrown error of the given text. *)
Definition failure {R : Type} (msg : string) : JsError + R :=
  inl (newError msg).

(** The store is up, the embedding model works, nothing is indexed yet. *)
Definition quiet_script : Script :=
  {| sc_collections := [COLLECTION_NAME];
     sc_predict := embed_each;
     sc_search := fun _ => inr (Some []);
     sc_insert := fun _ => inr tt;
     sc_generate := fun _ => reply "Paragraph one.";
     sc_documents := fun _ _ => [];
     sc_splitter := paragraphs |}.

(** The collection was never created. *)
Definition empty_store_script : Script :=
  {| sc_collections := [];
     sc_predict := embed_each;
     sc_search := fun _ => failure "collection not found";
     sc_insert := fun _ => failure "collection not found";
     sc_generate := fun _ => reply "Paragraph one.";
     sc_documents := fun _ _ => [];
     sc_splitter := paragraphs |}.

(** The embedding model is down. *)
Definition no_embedding_script : Script :=
  {| sc_collections := [COLLECTION_NAME];
     sc_predict := fun _ => failure "14 UNAVAILABLE: embedding model unavailable";
     sc_search := fun _ => inr (Some []);
     sc_insert := fun _ => inr tt;
     sc_generate := fun _ => reply "Paragraph one.";
     sc_documents := fun _ _ => [];
     sc_splitter := paragraphs |}.

(** The subject has two ingested documents, and the index holds one chunk
    that every search finds. *)
Definition two_documents_script : Script :=
  {| sc_collections := [COLLECTION_NAME];
     sc_predict := embed_each;
     sc_search := fun _ =>
       inr (Some [mkSearchResult "Cells are the unit of life."
                    0.5%float (mkChunkMetadata 0 (Some "s1") "d1")]);
     sc_insert := fun _ => inr tt;
     sc_generate := fun _ => reply "A cell is the unit of life.";
     sc_documents := fun _ _ => ["d1"; "d2"];
     sc_splitter := paragraphs |}.

(** The extracted text has two paragraphs, each shorter than a chunk and
    together longer than one, and the embedding model rejects the second. *)
Definition first_paragraph : string :=
  String.concat " " (repeat "photosynthesis" 100).

Definition second_paragraph : string :=
  String.concat " " (repeat "respiration" 120).

Definition two_paragraphs : string :=
  first_paragraph ++ newline ++ newline ++ second_paragraph.

Definition second_embedding_fails_script : Script :=
  {| sc_collections := [COLLECTION_NAME];
     sc_predict := fun instances =>
       match instances with
       | i :: _ =>
           if String.eqb (inst_content i) second_paragraph
           then failure "3 INVALID_ARGUMENT: text rejected"
           else embed_each instances
       | [] => inr []
       end;
     sc_search := fun _ => inr (Some []);
     sc_insert := fun _ => inr tt;
     sc_generate := fun _ => reply two_paragraphs;
     sc_documents := fun _ _ => [];
     sc_splitter := paragraphs |}.

(** The vector store rejects every insert. *)
Definition insert_fails_script : Script :=
  {| sc_collections := [COLLECTION_NAME];
     sc_predict := embed_each;
     sc_search := fun _ => inr (Some []);
     sc_insert := fun _ => failure "collection not loaded";
     sc_generate := fun _ => reply "Paragraph one.";
     sc_documents := fun _ _ => [];
     sc_splitter := paragraphs |}.

(** The generative model is overloaded: the text extraction fails. *)
Definition extraction_fails_script : Script :=
  {| sc_collections := [COLLECTION_NAME];
     sc_predict := embed_each;
     sc_search := fun _ => inr (Some []);
     sc_insert := fun _ => inr tt;
     sc_generate := fun _ => failure "503 model overloaded";
     sc_documents := fun _ _ => [];
     sc_splitter := paragraphs |}.

(** The model answers with a candidate that has no content. *)
Definition empty_extraction_script : Script :=
  {| sc_collections := [COLLECTION_NAME];
     sc_predict := embed_each;
     sc_search := fun _ => inr (Some []);
     sc_insert := fun _ => inr tt;
     sc_generate := fun _ => inr (Some [mkCandidate None]);
     sc_documents := fun _ _ => [];
     sc_splitter := paragraphs |}.

(** The tenant [u1] has two documents under the subject [s1], and the
    index holds one chunk of that tenant, tagged with the subject and with
    no document, beside a chunk of another tenant. *)
Definition subject_chunk : Row :=
  mkRow "Cells are the unit of life." [] (mkChunkMetadata 0 (Some "s1") EmptyString)
    "u1" "s1" EmptyString.

Definition foreign_chunk : Row :=
  mkRow "Mitochondria make ATP." [] (mkChunkMetadata 0 (Some "s1") "d1")
    "u2" "s1" "d1".

Definition subject_chunks_script : Script :=
  {| sc_collections := [COLLECTION_NAME];
     sc_predict := embed_each;
     sc_search := search_rows [foreign_chunk; subject_chunk];
     sc_insert := fun _ => inr tt;
     sc_generate := fun _ => reply "A cell is the unit of life.";
     sc_documents := fun _ _ => ["d1"; "d2"];
     sc_splitter := paragraphs |}.

(** A store that holds three chunks of one subject of one tenant. *)
Definition three_chunks_script : Script :=
  {| sc_collections := [COLLECTION_NAME];
     sc_predict := embed_each;
     sc_search := search_rows [subject_chunk; subject_chunk; subject_chunk];
     sc_insert := fun _ => inr tt;
     sc_generate := fun _ => reply "A cell is the unit of life.";
     sc_documents := fun _ _ => [];
     sc_splitter := paragraphs |}.

Definition upload : UploadedFile := mkUploadedFile "uploads/notes.pdf" "notes.pdf".

(** An environment that depends on the history: the index is missing until
    [createIndex] has looked for it; no chunk carries a document identifier
    and one chunk carries the subject. *)
Definition index_seen (h : Trace) : bool :=
  existsb (fun ev => match ev_call ev with
                     | MilvusDescribeIndex _ => true
                     | _ => false
                     end) h.

Definition legacy_chunk : SearchResult :=
  mkSearchResult "Cells are the unit of life." 0.5%float
    (mkChunkMetadata 0 (Some "s1") EmptyString).

Definition legacy_env : Env :=
  let E := scripted quiet_script in
  {| client_showCollections := client_showCollections E;
     client_loadCollection := client_loadCollection E;
     client_createCollection := client_createCollection E;
     client_describeIndex := fun _ _ => inr [];
     client_createIndex := client_createIndex E;
     client_dropIndex := client_dropIndex E;
     client_insert := client_insert E;
     client_search := fun h req =>
       if includes (sr_filter req) "data_source_id" then inr (Some [])
       else if index_seen h then inr (Some [legacy_chunk])
       else inl (newError "IndexNotExist: index not found");
     client_deleteEntities := client_deleteEntities E;
     GOOGLE_CLOUD_PROJECT := GOOGLE_CLOUD_PROJECT E;
     predictionClient_predict := predictionClient_predict E;
     gemini_model_ready := gemini_model_ready E;
     query_model_ready := query_model_ready E;
     model_generateContent := model_generateContent E;
     fs_readFile := fs_readFile E;
     base64 := base64 E;
     mime_lookup := mime_lookup E;
     textSplitter_createDocuments := textSplitter_createDocuments E;
     db_dataSource_findUnique := db_dataSource_findUnique E;
     db_dataSource_findMany := db_dataSource_findMany E;
     db_dataSource_update := db_dataSource_update E |}.


(** ** Specifications of computations *)

(** [satisfies P Q m]: whatever the history, every event that [m] emits
    satisfies [P] and the way [m] ends satisfies [Q]. *)
Definition satisfies {A : Type} (P : Event -> Prop) (Q : Outcome A -> Prop)
    (m : M A) : Prop :=
  forall h, Forall P (events m h) /\ Q (outcome m h).

(** The same for the run of [m] after one given history. *)
Definition holds_at {A : Type} (h : Trace) (P : Event -> Prop)
    (Q : Outcome A -> Prop) (m : M A) : Prop :=
  Forall P (events m h) /\ Q (outcome m h).

(** The ways a computation can end, as postconditions: a returned value
    satisfies [R], a thrown error is accepted, and the fuel runs out only
    when [b]. *)
Definition post (b : Prop) {A : Type} (R : A -> Prop) : Outcome A -> Prop :=
  fun out =>
    match out with
    | Returned a => R a
    | Thrown _ => True
    | OutOfFuel => b
    end.

Definition any {A : Type} : A -> Prop := fun _ => True.

(** The run ends (by a value or by an error). *)
Definition halts {A : Type} : Outcome A -> Prop := post False any.

(** The run ends by returning a value that satisfies [Q]. *)
Definition returns {A : Type} (Q : A -> Prop) : Outcome A -> Prop :=
  fun out => exists a, out = Returned a /\ Q a.

(** Whatever the history, [m] makes at most [n] searches of the [FirstTry]
    place. *)
Definition first_try_bound {A : Type} (n : nat) (m : M A) : Prop :=
  forall h, List.length (first_tries (events m h)) <= n.
(** * Part II: proofs *)

(** ** Reasoning about computations *)

Lemma satisfies_ret {A : Type} (P : Event -> Prop) (Q : Outcome A -> Prop) (a : A) :
  Q (Returned a) -> satisfies P Q (ret a).
Proof. intros HQ h. split; [constructor | exact HQ]. Qed.

Lemma satisfies_throw {A : Type} (P : Event -> Prop) (Q : Outcome A -> Prop) e :
  Q (Thrown e) -> satisfies P Q (throw e).
Proof. intros HQ h. split; [constructor | exact HQ]. Qed.

Lemma satisfies_diverge {A : Type} (P : Event -> Prop) (Q : Outcome A -> Prop) :
  Q OutOfFuel -> satisfies P Q (@diverge A).
Proof. intros HQ h. split; [constructor | exact HQ]. Qed.

Lemma satisfies_call {R : Type} (P : Event -> Prop) (Q : Outcome R -> Prop)
    (c : Call) (oracle : Trace -> JsError + R) :
  (forall ok, P (mkEvent c ok)) ->
  (forall h r, oracle h = inr r -> Q (Returned r)) ->
  (forall h e, oracle h = inl e -> Q (Thrown e)) ->
  satisfies P Q (call c oracle).
Proof.
  intros HP Hr He h. unfold events, outcome, call.
  destruct (oracle h) as [e | r] eqn:Ho; cbn.
  - split; [repeat constructor; apply HP | eapply He; eassumption].
  - split; [repeat constructor; apply HP | eapply Hr; eassumption].
Qed.

Lemma satisfies_bind {A B : Type} (P : Event -> Prop)
    (Q1 : Outcome A -> Prop) (Q2 : Outcome B -> Prop) (m : M A) (k : A -> M B) :
  satisfies P Q1 m ->
  (forall a, Q1 (Returned a) -> satisfies P Q2 (k a)) ->
  (forall e, Q1 (Thrown e) -> Q2 (Thrown e)) ->
  (Q1 OutOfFuel -> Q2 OutOfFuel) ->
  satisfies P Q2 (bind m k).
Proof.
  intros Hm Hk He Hf h. destruct (Hm h) as [Hev Hout].
  unfold events, outcome, bind in *.
  destruct (m h) as [evs [a | e | ]]; cbn in *.
  - destruct (Hk a Hout (h ++ evs)%list) as [Hev' Hout'].
    unfold events, outcome in *.
    destruct (k a (h ++ evs)%list) as [evs' out']; cbn in *.
    split; [apply Forall_app; split; assumption | assumption].
  - split; [assumption | apply He; assumption].
  - split; [assumption | apply Hf; assumption].
Qed.

Lemma satisfies_try {A : Type} (P : Event -> Prop)
    (Q1 Q2 : Outcome A -> Prop) (m : M A) (handler : JsError -> M A) :
  satisfies P Q1 m ->
  (forall e, Q1 (Thrown e) -> satisfies P Q2 (handler e)) ->
  (forall a, Q1 (Returned a) -> Q2 (Returned a)) ->
  (Q1 OutOfFuel -> Q2 OutOfFuel) ->
  satisfies P Q2 (try_catch m handler).
Proof.
  intros Hm Hh Hr Hf h. destruct (Hm h) as [Hev Hout].
  unfold events, outcome, try_catch in *.
  destruct (m h) as [evs [a | e | ]]; cbn in *.
  - split; [assumption | apply Hr; assumption].
  - destruct (Hh e Hout (h ++ evs)%list) as [Hev' Hout'].
    unfold events, outcome in *.
    destruct (handler e (h ++ evs)%list) as [evs' out']; cbn in *.
    split; [apply Forall_app; split; assumption | assumption].
  - split; [assumption | apply Hf; assumption].
Qed.

Lemma satisfies_weaken {A : Type} (P P' : Event -> Prop)
    (Q Q' : Outcome A -> Prop) (m : M A) :
  satisfies P Q m ->
  (forall ev, P ev -> P' ev) ->
  (forall out, Q out -> Q' out) ->
  satisfies P' Q' m.
Proof.
  intros Hm HP HQ h. destruct (Hm h) as [Hev Hout]. split.
  - eapply Forall_impl; [exact HP | exact Hev].
  - apply HQ, Hout.
Qed.


(** Rules for [post]: the events keep the invariant [P], returned values
    are tracked, errors are accepted. *)

Lemma run_ret {A : Type} (P : Event -> Prop) (b : Prop) (R : A -> Prop) (a : A) :
  R a -> satisfies P (post b R) (ret a).
Proof. intros H. apply satisfies_ret. exact H. Qed.

Lemma run_throw {A : Type} (P : Event -> Prop) (b : Prop) (R : A -> Prop)
    (e : JsError) :
  satisfies P (post b R) (@throw A e).
Proof. apply satisfies_throw. exact I. Qed.

Lemma run_call {A : Type} (P : Event -> Prop) (b : Prop) (R : A -> Prop)
    (c : Call) (oracle : Trace -> JsError + A) :
  (forall ok, P (mkEvent c ok)) ->
  (forall h r, oracle h = inr r -> R r) ->
  satisfies P (post b R) (call c oracle).
Proof.
  intros HP HR. apply satisfies_call; [exact HP | exact HR | intros; exact I].
Qed.

Lemma run_bind {A B : Type} (P : Event -> Prop) (b : Prop)
    (R1 : A -> Prop) (R2 : B -> Prop) (m : M A) (k : A -> M B) :
  satisfies P (post b R1) m ->
  (forall a, R1 a -> satisfies P (post b R2) (k a)) ->
  satisfies P (post b R2) (bind m k).
Proof.
  intros Hm Hk. eapply satisfies_bind; [exact Hm | exact Hk | | ]; auto.
Qed.

Lemma run_try {A : Type} (P : Event -> Prop) (b : Prop) (R : A -> Prop)
    (m : M A) (handler : JsError -> M A) :
  satisfies P (post b R) m ->
  (forall e, satisfies P (post b R) (handler e)) ->
  satisfies P (post b R) (try_catch m handler).
Proof.
  intros Hm Hh. eapply satisfies_try; [exact Hm | | | ]; auto.
Qed.

(** A [try] whose handler returns a value never throws. *)
Lemma run_try_returns {A : Type} (P : Event -> Prop) (R : A -> Prop) (m : M A)
    (handler : JsError -> A) :
  satisfies P (post False R) m ->
  (forall e, R (handler e)) ->
  satisfies P (returns R) (try_catch m (fun e => ret (handler e))).
Proof.
  intros Hm Hh. eapply satisfies_try; [exact Hm | | | ].
  - intros e _. apply satisfies_ret. eexists; split; [reflexivity | apply Hh].
  - intros a Ha. eexists; split; [reflexivity | exact Ha].
  - intros [].
Qed.

(** One step of a structural walk over a computation whose intermediate
    values need not be tracked. *)
Ltac run_step :=
  lazymatch goal with
  | |- satisfies _ _ (ret _) => apply run_ret
  | |- satisfies _ _ (throw _) => apply run_throw
  | |- satisfies _ _ (bind _ _) =>
      apply run_bind with (R1 := any); [ | intros ? _ ]
  | |- satisfies _ _ (try_catch _ _) => apply run_try; [ | intros ? ]
  | |- satisfies _ _ (call _ _) => apply run_call; [ intros ? | intros ? ? _ ]
  | |- satisfies _ _ (if ?c then _ else _) => destruct c
  | |- satisfies _ _ (match ?x with _ => _ end) => destruct x
  | |- satisfies _ _ (let _ := _ in _) => cbv zeta
  end.

(** ** Properties of the helpers *)

Lemma split_before_semicolon (s : string) :
  exists rest, split ";"%char s = before_semicolon s :: rest.
Proof.
  induction s as [| c s IH]; cbn.
  - eexists; reflexivity.
  - destruct (Ascii.eqb c ";"%char).
    + eexists; reflexivity.
    + destruct IH as [rest ->]. eexists; reflexivity.
Qed.

Lemma before_semicolon_prefix (p rest : string) :
  before_semicolon p = p ->
  before_semicolon (p ++ String ";"%char rest) = p.
Proof.
  induction p as [| c p IH]; cbn; intros H.
  - reflexivity.
  - destruct (Ascii.eqb c ";"%char); [discriminate |].
    injection H as H. rewrite IH by exact H. reflexivity.
Qed.

Lemma Forall_flat_map {A B : Type} (Q : B -> Prop) (f : A -> list B) (l : list A) :
  Forall (fun x => Forall Q (f x)) l -> Forall Q (flat_map f l).
Proof.
  induction 1; cbn; [constructor | apply Forall_app; split; assumption].
Qed.

(** ** Walking [createIndex] and [searchMilvus] *)

Section Walk.

Variable E : Env.
Variable P : Event -> Prop.

Hypothesis P_other : forall c ok, is_upkeep c = true -> P (mkEvent c ok).

Lemma createIndex_run (b : Prop) :
  satisfies P (post b any) (createIndex E).
Proof.
  unfold createIndex, showCollections.
  repeat run_step; try exact I; apply P_other; reflexivity.
Qed.

Variable Embedded : Vector -> Prop.
Variable Found : option (list SearchResult) -> Prop.
Variable Result : list Hit -> Prop.
Variables queryText userId : string.
Variable subject0 : option string.
Variable ids0 : option (list string).
Variable limit0 : nat.

Hypothesis embeds :
  satisfies P (post False (fun v => forall x, v = Some x -> Embedded x))
    (getEmbeddings E queryText).

(** The filter is built from the identifiers of the options, or, in the
    fallback invocation, from no identifiers. *)
Let ids_of_run (d : option (list string)) : Prop :=
  d = ids0 \/ (d = None /\ has_ids ids0 && truthy_opt subject0 = true).

Hypothesis P_search :
  forall site v d ok,
    Embedded v -> ids_of_run d ->
    P (mkEvent (MilvusSearch site
                  (mkSearchReq COLLECTION_NAME v limit0 "COSINE"
                     (search_filter userId subject0 d))) ok).

Hypothesis search_post :
  forall h v d r,
    Embedded v -> ids_of_run d ->
    client_search E h
      (mkSearchReq COLLECTION_NAME v limit0 "COSINE"
         (search_filter userId subject0 d)) = inr r ->
    Found r.

Hypothesis R_nil : Result [].
Hypothesis R_hits :
  forall r, Found r -> no_results r = false -> Result (to_hits r).

Lemma searchMilvus_rec_run (fuel : nat) :
  forall options,
    subjectId options = subject0 ->
    ids_of_run (dataSourceIds options) ->
    match topK options with Some k => k | None => 2 end = limit0 ->
    satisfies P (post (fuel < fallback_depth options) Result)
      (searchMilvus_rec E fuel queryText userId options).
Proof.
  induction fuel as [| fuel IH]; intros options Hs Hd Hk.
  - apply satisfies_diverge. cbn. unfold fallback_depth.
    destruct (has_ids (dataSourceIds options) && truthy_opt (subjectId options));
      lia.
  - cbn [searchMilvus_rec]. unfold showCollections, loadCollection, search.
    apply run_try; [ | intros ?; apply run_ret; exact R_nil ].
    apply run_bind with (R1 := any);
      [ apply run_call; [ intros ?; apply P_other; reflexivity | intros; exact I ]
      | intros collections _ ].
    destruct (negb (has_collection collections)); [ apply run_ret; exact R_nil | ].
    apply run_bind with (R1 := any);
      [ repeat run_step; try exact I; apply P_other; reflexivity
      | intros loaded _ ].
    destruct (negb loaded); [ apply run_ret; exact R_nil | ].
    cbv zeta.
    apply run_bind with (R1 := fun v => forall x, v = Some x -> Embedded x).
    { eapply satisfies_weaken; [ exact embeds | auto | ].
      intros [v | e | ]; cbn; auto. intros []. }
    intros [v |] HV; [ | apply run_ret; exact R_nil ].
    specialize (HV v eq_refl).
    rewrite Hs, Hk.
    set (req := mkSearchReq COLLECTION_NAME v limit0 "COSINE"
                  (search_filter userId subject0 (dataSourceIds options))).
    assert (Hreq : forall site ok, P (mkEvent (MilvusSearch site req) ok)).
    { intros site ok. apply P_search; [exact HV | exact Hd]. }
    assert (Hres : forall h r, client_search E h req = inr r -> Found r).
    { intros h r. apply search_post; [exact HV | exact Hd]. }
    apply run_try.
    + apply run_bind with (R1 := Found);
        [ apply run_call; [ intros ?; apply Hreq | exact Hres ]
        | intros searchResults HS ].
      destruct (no_results searchResults) eqn:Hno;
        [ | apply run_ret; apply R_hits; assumption ].
      destruct (has_ids (dataSourceIds options) && truthy_opt subject0) eqn:Hfb;
        [ | apply run_ret; exact R_nil ].
      assert (Hids : dataSourceIds options = ids0).
      { destruct Hd as [Hd | [Hd _]]; [ exact Hd | ].
        rewrite Hd in Hfb. discriminate. }
      eapply satisfies_weaken;
        [ apply IH; cbn;
          [ reflexivity | right; split; [ reflexivity | ] | reflexivity ]
        | auto | ].
      * rewrite <- Hids. exact Hfb.
      * intros [hits | e | ]; cbn; auto.
        unfold fallback_depth. rewrite Hs, Hfb. cbn. lia.
    + intros error.
      destruct (includes (error_toString error) "IndexNotExist");
        [ | apply run_ret; exact R_nil ].
      apply run_bind with (R1 := any); [ apply createIndex_run | intros _ _ ].
      apply run_try; [ | intros ?; apply run_ret; exact R_nil ].
      apply run_bind with (R1 := Found);
        [ apply run_call; [ intros ?; apply Hreq | exact Hres ]
        | intros searchResults HS ].
      destruct (no_results searchResults) eqn:Hno; apply run_ret;
        [ exact R_nil | apply R_hits; assumption ].
Qed.

End Walk.

Lemma searchMilvus_fuel (E : Env) (fuel : nat) (queryText userId : string)
    (options : SearchOptions) :
  searchMilvus_rec E (S (S fuel)) queryText userId options
  = searchMilvus E queryText userId options.
Proof. reflexivity. Qed.

Lemma getEmbeddings_run (E : Env) (P : Event -> Prop) (b : Prop) (text : string) :
  (forall endpoint instances ok,
      P (mkEvent (VertexPredict endpoint instances) ok)) ->
  satisfies P (post b any) (getEmbeddings E text).
Proof.
  intros HP. unfold getEmbeddings. repeat run_step; try exact I. apply HP.
Qed.

Lemma getEmbeddings_any (E : Env) (P : Event -> Prop) (text : string) :
  (forall endpoint instances ok,
      P (mkEvent (VertexPredict endpoint instances) ok)) ->
  satisfies P (post False (fun v => forall x, v = Some x -> any x))
    (getEmbeddings E text).
Proof.
  intros HP. eapply satisfies_weaken;
    [ apply (getEmbeddings_run E P False text HP) | auto | ].
  intros [v | e | ]; cbn; auto.
Qed.

(** [searchMilvus] always returns a list: it neither throws nor needs more
    than two levels of calls. *)
Lemma searchMilvus_returns (E : Env) (queryText userId : string)
    (options : SearchOptions) (h : Trace) :
  exists hits, outcome (searchMilvus E queryText userId options) h = Returned hits.
Proof.
  assert (H : satisfies (fun _ => True) (post (2 < fallback_depth options) any)
                (searchMilvus E queryText userId options)).
  { unfold searchMilvus.
    apply searchMilvus_rec_run
      with (Embedded := any) (Found := any) (subject0 := subjectId options)
           (ids0 := dataSourceIds options)
             (limit0 := match topK options with Some k => k | None => 2 end);
      try (intros; exact I); try (left; reflexivity); auto.
    apply getEmbeddings_any. intros; exact I. }
  destruct (H h) as [_ Hout].
  assert (Htry : forall e, outcome (searchMilvus E queryText userId options) h
                           <> Thrown e).
  { assert (H' : satisfies (fun _ => True)
                   (fun out => forall e, out <> Thrown e)
                   (searchMilvus E queryText userId options)).
    { unfold searchMilvus. cbn [searchMilvus_rec].
      intros h'. split; [ | ].
      - apply Forall_forall. intros; exact I.
      - unfold outcome, try_catch.
        destruct (bind _ _ h') as [evs [a | e | ]]; cbn; try discriminate. }
    apply H'. }
  destruct (outcome (searchMilvus E queryText userId options) h) as [hits | e | ] eqn:Ho.
  - eexists; reflexivity.
  - exfalso. eapply Htry. reflexivity.
  - exfalso. cbn in Hout. unfold fallback_depth in Hout.
    destruct (_ && _); lia.
Qed.

(** ** The embedding client *)

Section Embedding.

Variable E : Env.
Variable model : string -> Vector.

Hypothesis pointwise :
  forall h endpoint instances,
    predictionClient_predict E h endpoint instances
    = inr (map (fun i => model (inst_content i)) instances).

Lemma getEmbeddings_pointwise (text : string) (h : Trace) :
  predict_calls (events (getEmbeddings E text) h)
  = [map (fun e => mkInstance e "QUESTION_ANSWERING") (split ";"%char text)]
  /\ outcome (getEmbeddings E text) h
     = Returned (Some (model (before_semicolon text))).
Proof.
  unfold getEmbeddings, events, outcome, bind, call, ret.
  cbv zeta. rewrite pointwise.
  destruct (split_before_semicolon text) as [rest ->].
  cbn. split; reflexivity.
Qed.

Lemma getEmbeddings_post (P : Event -> Prop) (text : string) :
  (forall endpoint instances ok,
      P (mkEvent (VertexPredict endpoint instances) ok)) ->
  satisfies P
    (post False (fun v => forall x, v = Some x ->
                                    x = model (before_semicolon text)))
    (getEmbeddings E text).
Proof.
  intros HP h. destruct (getEmbeddings_pointwise text h) as [_ Hout].
  split.
  - apply (getEmbeddings_run E P False text HP).
  - rewrite Hout. cbn. intros x Hx. injection Hx as <-. reflexivity.
Qed.

Lemma insert_loop_first_segment (documents : list ChunkDoc) (userId : string)
    (metadata : InsertMetadata) :
  satisfies
    (fun ev => match ev_call ev with
               | MilvusInsert _ data =>
                   Forall (fun r => row_embedding r
                                    = model (before_semicolon (row_text r))) data
               | _ => True
               end)
    halts (insert_loop E documents userId metadata).
Proof.
  induction documents as [| doc rest IH]; cbn [insert_loop].
  - apply run_ret. exact I.
  - eapply run_bind; [ apply getEmbeddings_post; intros; exact I | ].
    intros [v |] Hv; [ | exact IH ].
    specialize (Hv v eq_refl). subst v.
    cbv zeta. apply run_bind with (R1 := any); [ | intros _ _; exact IH ].
    apply run_call; [ | intros; exact I ]. intros ok. cbn.
    constructor; [ reflexivity | constructor ].
Qed.

(** C10.  The embedding client cuts its input at every semicolon, sends the
    pieces as separate instances and keeps the first prediction only.  With
    an embedding model that answers each instance by [model] of its content,
    the call on [text] sends [split ";" text] and returns [model] of the
    text before the first semicolon; hence every row that [insertEmbeddings]
    stores pairs the full chunk text with the embedding of its first
    segment, and every search of [searchMilvus] uses the embedding of the
    first segment of the question. *)
Theorem getEmbeddings_embeds_first_segment_only :
  (forall prefix rest,
      before_semicolon prefix = prefix ->
      before_semicolon (prefix ++ String ";"%char rest) = prefix)
  /\ (forall text h,
        predict_calls (events (getEmbeddings E text) h)
        = [map (fun e => mkInstance e "QUESTION_ANSWERING")
             (split ";"%char text)]
        /\ outcome (getEmbeddings E text) h
           = Returned (Some (model (before_semicolon text))))
  /\ (forall documents userId metadata h,
        Forall (fun r => row_embedding r
                         = model (before_semicolon (row_text r)))
          (inserted_rows
             (events (insertEmbeddings E documents userId metadata) h)))
  /\ (forall queryText userId options h,
        Forall (fun sr => sr_vector (snd sr)
                          = model (before_semicolon queryText))
          (search_requests
             (events (searchMilvus E queryText userId options) h))).
Proof.
  split; [ exact before_semicolon_prefix | ].
  split; [ exact getEmbeddings_pointwise | ].
  split.
  - intros documents userId metadata h.
    assert (H : satisfies
                  (fun ev => match ev_call ev with
                             | MilvusInsert _ data =>
                                 Forall (fun r => row_embedding r
                                           = model (before_semicolon (row_text r)))
                                   data
                             | _ => True
                             end)
                  halts (insertEmbeddings E documents userId metadata)).
    { unfold insertEmbeddings. apply run_try.
      - apply insert_loop_first_segment.
      - intros e. apply run_ret. exact I. }
    destruct (H h) as [Hev _]. unfold inserted_rows.
    apply Forall_flat_map. eapply Forall_impl; [ | exact Hev ].
    intros [c ok] Hc. cbn in *.
    destruct c; try constructor. destruct ok; [ exact Hc | constructor ].
  - intros queryText userId options h.
    assert (H : satisfies
                  (fun ev => match ev_call ev with
                             | MilvusSearch _ req =>
                                 sr_vector req = model (before_semicolon queryText)
                             | _ => True
                             end)
                  (post (2 < fallback_depth options) any)
                  (searchMilvus E queryText userId options)).
    { unfold searchMilvus.
      apply searchMilvus_rec_run
        with (Embedded := fun v => v = model (before_semicolon queryText))
             (Found := any) (subject0 := subjectId options)
             (ids0 := dataSourceIds options)
             (limit0 := match topK options with Some k => k | None => 2 end);
        try (intros; exact I); try (left; reflexivity); auto.
      - intros c ok Hc. destruct c; cbn in *; try exact I. discriminate.
      - apply getEmbeddings_post. intros; exact I. }
    destruct (H h) as [Hev _]. unfold search_requests.
    apply Forall_flat_map. eapply Forall_impl; [ | exact Hev ].
    intros [c ok] Hc. cbn in *.
    destruct c; try constructor; [ exact Hc | constructor ].
Qed.

End Embedding.

Lemma getEmbeddings_embeds_first_segment_only_witness :
  outcome (getEmbeddings (scripted quiet_script) "alpha;beta") []
  = Returned (Some (length_embedding "alpha"))
  /\ inserted_rows
       (events (insertEmbeddings (scripted quiet_script)
                  [mkChunkDoc "alpha;beta" 0] "u1"
                  (mkInsertMetadata None "d1")) [])
     = [mkRow "alpha;beta" (length_embedding "alpha")
          (mkChunkMetadata 0 None "d1") "u1" EmptyString "d1"].
Proof.
  split.
  - exact (proj2 (proj1 (proj2
             (getEmbeddings_embeds_first_segment_only
                (scripted quiet_script) length_embedding
                (fun _ _ _ => eq_refl)))
             "alpha;beta" [])).
  - reflexivity.
Defined.

(** ** Filters *)

Lemma append_empty_r (s : string) : s ++ EmptyString = s.
Proof. induction s as [| c s IH]; cbn; [ reflexivity | now rewrite IH ]. Qed.

Lemma search_filter_render (userId : string) (subject : option string)
    (ids : option (list string)) :
  search_filter userId subject ids = render (filter_expr userId subject ids).
Proof.
  unfold search_filter, filter_expr.
  destruct ids as [[| id ids] |]; try reflexivity;
    destruct subject as [s |]; try reflexivity;
    destruct (truthy s); reflexivity.
Qed.

Lemma filter_expr_tenant (userId : string) (subject : option string)
    (ids : option (list string)) (r : Row) :
  eval (filter_expr userId subject ids) r = true -> row_user_id r = userId.
Proof.
  assert (Hfirst : forall rest,
             eval (FAnd (FEq F_user_id userId) rest) r = true ->
             row_user_id r = userId).
  { intros rest H. cbn in H. apply andb_true_iff in H as [H _].
    apply String.eqb_eq, H. }
  assert (Honly : eval (FEq F_user_id userId) r = true -> row_user_id r = userId).
  { intros H. apply String.eqb_eq, H. }
  unfold filter_expr.
  destruct ids as [[| id ids] |]; try apply Hfirst;
    (destruct subject as [s |]; [ destruct (truthy s) | ]);
    first [ apply Hfirst | apply Honly ].
Qed.

(** ** Reading a filter string *)

Lemma append_assoc (a b c : string) : (a ++ b) ++ c = a ++ b ++ c.
Proof. induction a as [| x a IH]; cbn; [ reflexivity | now rewrite IH ]. Qed.

(** Reading inside a text: up to the closing quote. *)
Lemma lex_text (v : string) :
  plain v = true ->
  forall acc rest,
    lex_from (InText acc) (v ++ String "034"%char rest)
    = match lex_from Between rest with
      | Some ts => Some (TText (acc ++ v) :: ts)
      | None => None
      end.
Proof.
  induction v as [| c v IH]; intros Hv acc rest.
  - cbn. rewrite append_empty_r. reflexivity.
  - cbn in Hv. apply andb_true_iff in Hv as [Hc Hv].
    apply andb_true_iff in Hc as [Hq Hb].
    cbn [append lex_from lex_step].
    destruct (Ascii.eqb c "034"); [ discriminate | ].
    destruct (Ascii.eqb c backslash); [ discriminate | ].
    rewrite IH by assumption.
    rewrite append_assoc. cbn.
    destruct (lex_from Between rest); reflexivity.
Qed.

Lemma lex_from_app (s rest : string) :
  forall st,
    lex_from st (s ++ rest)
    = match lex_run st s with
      | Some (ts, st') =>
          match lex_from st' rest with
          | Some ts' => Some (ts ++ ts')%list
          | None => None
          end
      | None => None
      end.
Proof.
  induction s as [| c s IH]; intros st; cbn [append lex_from lex_run].
  - cbn. destruct (lex_from st rest); reflexivity.
  - destruct (lex_step st c) as [[ts st'] |]; [ | reflexivity ].
    rewrite IH. destruct (lex_run st' s) as [[ts' st''] |]; [ | reflexivity ].
    destruct (lex_from st'' rest); [ | reflexivity ].
    now rewrite app_assoc.
Qed.

(** Reads the literal text at the head of the string. *)
Ltac lex_prefix :=
  rewrite lex_from_app;
  match goal with
  | |- context [lex_run ?st ?s] =>
      let r := eval vm_compute in (lex_run st s) in
      change (lex_run st s) with r
  end;
  cbv iota beta.

Lemma lex_render_eq (f : Field) (v rest : string) :
  plain v = true ->
  lex_from Between (render_eq f v ++ rest)
  = match lex_from Between rest with
    | Some ts => Some (atom_tokens f v ++ ts)%list
    | None => None
    end.
Proof.
  intros Hv.
  replace (render_eq f v ++ rest)
    with ((field_text f ++ " == " ++ dquote) ++ v ++ String "034"%char rest)
    by (unfold render_eq, dquote; rewrite !append_assoc; reflexivity).
  destruct f; lex_prefix; rewrite lex_text by exact Hv;
    destruct (lex_from Between rest); reflexivity.
Qed.

Lemma lex_alternatives (f : Field) (values : list string) (rest : string) :
  values <> [] ->
  forallb plain values = true ->
  lex_from Between (String.concat " || " (map (render_eq f) values) ++ rest)
  = match lex_from Between rest with
    | Some ts => Some (or_tokens f values ++ ts)%list
    | None => None
    end.
Proof.
  induction values as [| v values IH]; intros Hne Hplain; [ contradiction | ].
  cbn in Hplain. apply andb_true_iff in Hplain as [Hv Hvalues].
  destruct values as [| v' values].
  - cbn [map String.concat or_tokens]. apply lex_render_eq. exact Hv.
  - cbn [map String.concat or_tokens] in *.
    rewrite !append_assoc. rewrite lex_render_eq by exact Hv.
    lex_prefix.
    rewrite IH by (try discriminate; exact Hvalues).
    destruct (lex_from Between rest); [ | reflexivity ].
    cbn [atom_tokens app]. reflexivity.
Qed.

Lemma or_tokens_concat (f : Field) (v : string) (values : list string) :
  or_tokens f (v :: values)
  = (atom_tokens f v ++ concat (map (fun v => TOr :: atom_tokens f v) values))%list.
Proof.
  revert v. induction values as [| v' values IH]; intros v.
  - reflexivity.
  - change (or_tokens f (v :: v' :: values))
      with (atom_tokens f v ++ TOr :: or_tokens f (v' :: values))%list.
    rewrite IH. reflexivity.
Qed.

Lemma parse_alternatives (f : Field) (values : list string) :
  forall acc c parent stack rest,
    parse_from false (mkFrame acc (Some c)) (parent :: stack)
      (concat (map (fun v => TOr :: atom_tokens f v) values) ++ TClose :: rest)%list
    = parse_from false
        (mkFrame (alternatives parent)
           (Some (and_with (conjunction parent)
                    (fold_left (fun e v => EOr e (EEq (field_text f) v)) values
                       (or_with acc c)))))
        stack rest.
Proof.
  induction values as [| v values IH]; intros acc c parent stack rest.
  - reflexivity.
  - cbn [map concat app atom_tokens parse_from conjunction alternatives fold_left].
    cbn [and_with]. rewrite IH. cbn [or_with]. reflexivity.
Qed.

Lemma holds_any (f : Field) (values : list string) (r : Row) :
  forall e,
    holds (fold_left (fun e v => EOr e (EEq (field_text f) v)) values e) r
    = holds e r || existsb (String.eqb (field_of f r)) values.
Proof.
  induction values as [| v values IH]; intros e; cbn [fold_left existsb].
  - now rewrite orb_false_r.
  - rewrite IH. cbn [holds]. rewrite orb_assoc. f_equal. f_equal.
    destruct f; reflexivity.
Qed.

(** The store reads the filter of [searchMilvus] as the expression it was
    built from, when the identifiers hold no quote and no backslash. *)
Lemma read_search_filter (userId : string) (subject : option string)
    (ids : option (list string)) :
  plain userId = true -> plain_opt subject = true -> plain_ids ids = true ->
  exists e,
    read_filter (search_filter userId subject ids) = Some e
    /\ forall r, holds e r = eval (filter_expr userId subject ids) r.
Proof.
  intros Hu Hs Hids.
  assert (Htenant :
            read_filter (render_eq F_user_id userId)
            = Some (EEq "user_id" userId)).
  { unfold read_filter, lex.
    rewrite <- (append_empty_r (render_eq F_user_id userId)).
    rewrite lex_render_eq by exact Hu. reflexivity. }
  assert (Hsubject :
            forall s, plain s = true ->
              read_filter (render_eq F_user_id userId ++ " && "
                           ++ render_eq F_subject_id s)
              = Some (EAnd (EEq "user_id" userId) (EEq "subject_id" s))).
  { intros s Hp. unfold read_filter, lex.
    rewrite lex_render_eq by exact Hu. lex_prefix.
    rewrite <- (append_empty_r (render_eq F_subject_id s)).
    rewrite lex_render_eq by exact Hp. reflexivity. }
  assert (Hscope :
            exists e,
              read_filter
                (match subject with
                 | Some s =>
                     if truthy s
                     then render_eq F_user_id userId ++ " && "
                          ++ render_eq F_subject_id s
                     else render_eq F_user_id userId
                 | None => render_eq F_user_id userId
                 end) = Some e
              /\ forall r,
                   holds e r
                   = eval (match subject with
                           | Some s =>
                               if truthy s
                               then FAnd (FEq F_user_id userId) (FEq F_subject_id s)
                               else FEq F_user_id userId
                           | None => FEq F_user_id userId
                           end) r).
  { destruct subject as [s |]; [ destruct (truthy s) | ];
      eexists; (split; [ first [ apply Hsubject; exact Hs | exact Htenant ] | ]);
      reflexivity. }
  destruct ids as [[| id ids] |]; try exact Hscope.
  change (search_filter userId subject (Some (id :: ids)))
    with (render_eq F_user_id userId ++ " && ("
          ++ String.concat " || " (map (render_eq F_data_source_id) (id :: ids))
          ++ ")").
  unfold read_filter, lex.
  rewrite lex_render_eq by exact Hu. lex_prefix.
  rewrite lex_alternatives by (try discriminate; exact Hids).
  change (lex_from Between ")") with (Some [TClose]).
  rewrite or_tokens_concat.
  cbn [atom_tokens app parse_from conjunction alternatives and_with].
  rewrite parse_alternatives.
  cbn [parse_from conjunction alternatives and_with or_with].
  eexists. split; [ reflexivity | ].
  intros r. cbn [filter_expr eval holds]. rewrite holds_any. reflexivity.
Qed.

Lemma selects_search_filter (userId : string) (subject : option string)
    (ids : option (list string)) (r : Row) :
  plain userId = true -> plain_opt subject = true -> plain_ids ids = true ->
  selects (search_filter userId subject ids) r
  = eval (filter_expr userId subject ids) r.
Proof.
  intros Hu Hs Hids.
  destruct (read_search_filter userId subject ids Hu Hs Hids) as (e & He & Heval).
  unfold selects. rewrite He. apply Heval.
Qed.

Lemma search_filter_confines (userId : string) (subject : option string)
    (ids : option (list string)) :
  plain userId = true -> plain_opt subject = true -> plain_ids ids = true ->
  confines userId (search_filter userId subject ids).
Proof.
  intros Hu Hs Hids. split.
  - destruct (read_search_filter userId subject ids Hu Hs Hids) as (e & He & _).
    exists e. exact He.
  - intros r Hr. rewrite selects_search_filter in Hr by assumption.
    eapply filter_expr_tenant. exact Hr.
Qed.

(** The stand-in store [search_rows] is an honest store of its rows. *)
Lemma search_rows_honest (s : Script) (rows : list Row) :
  sc_search s = search_rows rows -> honest_store (scripted s) rows.
Proof.
  intros Hs h req results Hres. cbn in Hres. rewrite Hs in Hres.
  unfold search_rows in Hres. injection Hres as <-.
  apply Forall_forall. intros res Hin.
  apply in_map_iff in Hin as (r & <- & Hr).
  assert (Hf : In r (List.filter (selects (sr_filter req)) rows)).
  { clear -Hr. revert Hr. generalize (sr_limit req).
    induction (List.filter (selects (sr_filter req)) rows) as [| x l IH];
      intros [| k] Hr; cbn in Hr; try contradiction.
    destruct Hr as [-> | Hr]; [ left; reflexivity | right; eapply IH; exact Hr ]. }
  apply filter_In in Hf as [Hin Hadm].
  exists r. repeat split; assumption.
Qed.

(** ** Search *)

(** C6.  When the identifiers of the request hold no quote and no backslash
    (the route accepts a subject only in the form of a UUID, and the other
    identifiers come from the token and from the database), every search
    request that a run of [searchMilvus] sends to the vector store -- the
    first try of the invocation, the first try of the subject fallback, and
    the second try after the index was rebuilt -- names the collection and
    carries a filter string that the store reads as selecting only rows
    whose [user_id] is the requesting tenant.  So, the store answering a
    search only with rows that the filter selects, every hit that
    [searchMilvus] returns is taken from a row of that tenant. *)
Theorem searchMilvus_searches_are_tenant_scoped (E : Env)
    (queryText userId : string) (options : SearchOptions) (h : Trace) :
  plain userId = true ->
  plain_opt (subjectId options) = true ->
  plain_ids (dataSourceIds options) = true ->
  Forall (fun sr => sr_collection_name (snd sr) = COLLECTION_NAME
                    /\ confines userId (sr_filter (snd sr)))
    (search_requests (events (searchMilvus E queryText userId options) h))
  /\ forall rows,
       honest_store E rows ->
       exists hits,
         outcome (searchMilvus E queryText userId options) h = Returned hits
         /\ Forall (fun hit => exists r,
                        In r rows /\ row_user_id r = userId /\ hit_of r hit)
              hits.
Proof.
  intros Hu Hs Hids.
  assert (Hd : forall d,
             d = dataSourceIds options
             \/ d = None
                /\ has_ids (dataSourceIds options) && truthy_opt (subjectId options)
                   = true ->
             plain_ids d = true).
  { intros d [-> | [-> _]]; [ exact Hids | reflexivity ]. }
  split.
  - assert (H : satisfies
                  (fun ev => match ev_call ev with
                             | MilvusSearch _ req =>
                                 sr_collection_name req = COLLECTION_NAME
                                 /\ confines userId (sr_filter req)
                             | _ => True
                             end)
                  (post (2 < fallback_depth options) any)
                  (searchMilvus E queryText userId options)).
    { unfold searchMilvus.
      apply searchMilvus_rec_run
        with (Embedded := any) (Found := any) (subject0 := subjectId options)
             (ids0 := dataSourceIds options)
             (limit0 := match topK options with Some k => k | None => 2 end);
        try (intros; exact I); try (left; reflexivity); auto.
      - intros c ok Hc. destruct c; cbn in *; try exact I. discriminate.
      - apply getEmbeddings_any. intros; exact I.
      - intros site v d ok _ Hrun. cbn. split; [ reflexivity | ].
        apply search_filter_confines; auto. }
    destruct (H h) as [Hev _]. unfold search_requests.
    apply Forall_flat_map. eapply Forall_impl; [ | exact Hev ].
    intros [c ok] Hc. cbn in *.
    destruct c; try constructor; [ exact Hc | constructor ].
  - intros rows Hhonest.
    set (Owned := fun hit : Hit =>
                    exists r, In r rows /\ row_user_id r = userId /\ hit_of r hit).
    assert (H : satisfies (fun _ => True)
                  (post (2 < fallback_depth options) (Forall Owned))
                  (searchMilvus E queryText userId options)).
    { unfold searchMilvus.
      apply searchMilvus_rec_run
        with (Embedded := any)
             (Found := fun found =>
                         forall results, found = Some results ->
                           Forall (fun res => exists r,
                                       In r rows /\ row_user_id r = userId
                                       /\ result_of r res) results)
             (subject0 := subjectId options) (ids0 := dataSourceIds options)
             (limit0 := match topK options with Some k => k | None => 2 end);
        try (intros; exact I); try (left; reflexivity); auto.
      - apply getEmbeddings_any. intros; exact I.
      - intros h' v d found _ Hrun Hfound results ->.
        eapply Forall_impl; [ | exact (Hhonest _ _ _ Hfound) ].
        intros res (r & Hin & Hadm & Hres). cbn in Hadm.
        exists r. split; [ exact Hin | split; [ | exact Hres ] ].
        apply (search_filter_confines userId (subjectId options) d); auto.
      - intros found Hfound _. destruct found as [results |]; [ | constructor ].
        specialize (Hfound results eq_refl). cbn [to_hits].
        apply Forall_map. eapply Forall_impl; [ | exact Hfound ].
        intros res (r & Hin & Hr & Hres). exists r. repeat split; try assumption;
          apply Hres. }
    destruct (searchMilvus_returns E queryText userId options h) as [hits Hhits].
    exists hits. split; [ exact Hhits | ].
    destruct (H h) as [_ Hout]. rewrite Hhits in Hout. exact Hout.
Qed.

Lemma searchMilvus_searches_are_tenant_scoped_witness :
  exists hits,
    outcome (searchMilvus (scripted subject_chunks_script) "What is a cell?" "u1"
               (mkSearchOptions (Some 3) (Some "s1") None)) []
    = Returned hits
    /\ Forall (fun hit => exists r,
                   In r [foreign_chunk; subject_chunk]
                   /\ row_user_id r = "u1" /\ hit_of r hit)
         hits.
Proof.
  apply (proj2 (searchMilvus_searches_are_tenant_scoped
                  (scripted subject_chunks_script) "What is a cell?" "u1"
                  (mkSearchOptions (Some 3) (Some "s1") None) []
                  eq_refl eq_refl eq_refl)).
  apply search_rows_honest. reflexivity.
Defined.

(** The hypothesis on the identifiers is needed: a subject that holds a
    quote yields a filter that the store reads as selecting the rows of
    another tenant. *)
Example search_filter_with_a_quote :
  let subject := "s1" ++ dquote ++ " || user_id == " ++ dquote ++ "u2" in
  plain subject = false
  /\ search_filter "u1" (Some subject) None
     = "user_id == " ++ dquote ++ "u1" ++ dquote ++ " && subject_id == "
       ++ dquote ++ "s1" ++ dquote ++ " || user_id == " ++ dquote ++ "u2" ++ dquote
  /\ selects (search_filter "u1" (Some subject) None) foreign_chunk = true.
Proof. repeat split; reflexivity. Qed.




(** ** Counting the first tries of a run *)

Lemma events_bind {A B : Type} (m : M A) (k : A -> M B) (h : Trace) :
  events (bind m k) h
  = (events m h
     ++ match outcome m h with
        | Returned a => events (k a) (h ++ events m h)
        | _ => []
        end)%list.
Proof.
  unfold events, outcome, bind.
  destruct (m h) as [evs [a | e | ]]; cbn.
  - destruct (k a (h ++ evs)%list); reflexivity.
  - now rewrite app_nil_r.
  - now rewrite app_nil_r.
Qed.

Lemma events_try {A : Type} (m : M A) (handler : JsError -> M A) (h : Trace) :
  events (try_catch m handler) h
  = (events m h
     ++ match outcome m h with
        | Thrown e => events (handler e) (h ++ events m h)
        | _ => []
        end)%list.
Proof.
  unfold events, outcome, try_catch.
  destruct (m h) as [evs [a | e | ]]; cbn.
  - now rewrite app_nil_r.
  - destruct (handler e (h ++ evs)%list); reflexivity.
  - now rewrite app_nil_r.
Qed.

Lemma first_tries_app (evs evs' : list Event) :
  first_tries (evs ++ evs') = (first_tries evs ++ first_tries evs')%list.
Proof. apply flat_map_app. Qed.

Lemma bound_ret {A : Type} (a : A) : first_try_bound 0 (ret a).
Proof. intros h. cbn. lia. Qed.

Lemma bound_call {R : Type} (c : Call) (oracle : Trace -> JsError + R) :
  first_try_bound (match c with MilvusSearch FirstTry _ => 1 | _ => 0 end)
    (call c oracle).
Proof.
  intros h. unfold events, call.
  destruct (oracle h); cbn; destruct c; cbn; try lia; destruct site; cbn; lia.
Qed.

Lemma bound_bind {A B : Type} (n1 n2 : nat) (m : M A) (k : A -> M B) :
  first_try_bound n1 m ->
  (forall a, first_try_bound n2 (k a)) ->
  first_try_bound (n1 + n2) (bind m k).
Proof.
  intros Hm Hk h. rewrite events_bind, first_tries_app, length_app.
  specialize (Hm h).
  destruct (outcome m h) as [a | e | ]; cbn [first_tries flat_map List.length];
    [ specialize (Hk a (h ++ events m h)%list) | | ]; lia.
Qed.

Lemma bound_try {A : Type} (n1 n2 : nat) (m : M A) (handler : JsError -> M A) :
  first_try_bound n1 m ->
  (forall e, first_try_bound n2 (handler e)) ->
  first_try_bound (n1 + n2) (try_catch m handler).
Proof.
  intros Hm Hh h. rewrite events_try, first_tries_app, length_app.
  specialize (Hm h).
  destruct (outcome m h) as [a | e | ]; cbn [first_tries flat_map List.length];
    [ | specialize (Hh e (h ++ events m h)%list) | ]; lia.
Qed.

Lemma bound_weaken {A : Type} (n n' : nat) (m : M A) :
  first_try_bound n m -> n <= n' -> first_try_bound n' m.
Proof. intros Hm Hn h. specialize (Hm h). lia. Qed.

(** A computation none of whose events is a first try. *)
Lemma bound_zero {A : Type} (Q : Outcome A -> Prop) (m : M A) :
  satisfies (fun ev => match ev_call ev with
                       | MilvusSearch FirstTry _ => False
                       | _ => True
                       end) Q m ->
  first_try_bound 0 m.
Proof.
  intros Hm h. destruct (Hm h) as [Hev _].
  induction Hev as [| [c ok] evs Hc _ IH]; cbn in *; [ lia | ].
  destruct c; cbn; try exact IH. destruct site; [ contradiction | exact IH ].
Qed.

Lemma searchMilvus_rec_bound (E : Env) (queryText userId : string) (fuel : nat) :
  forall options,
    first_try_bound (fallback_depth options)
      (searchMilvus_rec E fuel queryText userId options).
Proof.
  induction fuel as [| fuel IH]; intros options.
  - intros h. cbn. lia.
  - cbn [searchMilvus_rec].
    apply bound_weaken with (n := (0 + (0 + (0 + (fallback_depth options + 0)))) + 0); [ | lia ].
    apply bound_try; [ | intros; apply bound_ret ].
    apply bound_bind; [ apply (bound_call MilvusShowCollections) | intros collections ].
    destruct (negb (has_collection collections));
      [ eapply bound_weaken; [ apply bound_ret | lia ] | ].
    apply bound_bind.
    { apply bound_zero with (Q := post False any).
      unfold loadCollection. repeat run_step; exact I. }
    intros loaded.
    destruct (negb loaded); [ eapply bound_weaken; [ apply bound_ret | lia ] | ].
    cbv zeta.
    apply bound_bind.
    { apply bound_zero with (Q := post False any).
      apply getEmbeddings_run. intros; exact I. }
    intros [v |]; [ | eapply bound_weaken; [ apply bound_ret | lia ] ].
    apply bound_try.
    + unfold fallback_depth.
      destruct (has_ids (dataSourceIds options) && truthy_opt (subjectId options)).
      * apply (@bound_bind _ _ 1 1); [ apply (bound_call (MilvusSearch FirstTry _)) | ].
        intros searchResults.
        destruct (no_results searchResults);
          [ | eapply bound_weaken; [ apply bound_ret | lia ] ].
        apply (IH (mkSearchOptions _ _ None)).
      * apply (@bound_bind _ _ 1 0); [ apply (bound_call (MilvusSearch FirstTry _)) | ].
        intros searchResults.
        destruct (no_results searchResults); apply bound_ret.
    + intros error.
      apply bound_zero with (Q := post False any).
      destruct (includes (error_toString error) "IndexNotExist");
        [ | apply run_ret; exact I ].
      apply run_bind with (R1 := any);
        [ apply createIndex_run; intros c ok Hc; destruct c; try exact I; discriminate
        | intros _ _ ].
      unfold search. repeat run_step; exact I.
Qed.

Section Fallback.

Variable E : Env.
Variables queryText userId : string.
Variable options : SearchOptions.

Hypothesis with_ids : has_ids (dataSourceIds options) = true.
Hypothesis with_subject : truthy_opt (subjectId options) = true.

Hypothesis collection_listed :
  forall h, exists collections,
    client_showCollections E h = inr collections
    /\ has_collection collections = true.
Hypothesis collection_loads :
  forall h, client_loadCollection E h COLLECTION_NAME = inr tt.
Hypothesis question_embeds :
  forall h endpoint, exists v vs,
    predictionClient_predict E h endpoint
      (map (fun e => mkInstance e "QUESTION_ANSWERING")
         (split ";"%char queryText))
    = inr (v :: vs).
Hypothesis nothing_under_ids :
  forall h req,
    sr_filter req
    = search_filter userId (subjectId options) (dataSourceIds options) ->
    exists r, client_search E h req = inr r /\ no_results r = true.

Lemma searchMilvus_fallback_tries (h : Trace) :
  exists req1 req2,
    first_tries (events (searchMilvus E queryText userId options) h)
    = [req1; req2]
    /\ sr_filter req1
       = search_filter userId (subjectId options) (dataSourceIds options)
    /\ sr_filter req2 = search_filter userId (subjectId options) None.
Proof.
  unfold searchMilvus, events. cbn [searchMilvus_rec].
  unfold createIndex, showCollections, loadCollection, search, getEmbeddings.
  unfold try_catch, bind, call, ret.
  cbv zeta.
  destruct (collection_listed h) as (cs & -> & ->). cbn.
  rewrite collection_loads. cbn.
  match goal with
  | |- context [predictionClient_predict E ?h' ?ep _] =>
      destruct (question_embeds h' ep) as (v & vs & ->)
  end.
  cbn.
  match goal with
  | |- context [client_search E ?h' ?req] =>
      destruct (nothing_under_ids h' req eq_refl) as (r & -> & ->)
  end.
  cbn. rewrite with_ids, with_subject. cbn.
  match goal with
  | |- context [client_showCollections E ?h'] =>
      destruct (collection_listed h') as (cs' & -> & ->)
  end.
  cbn. rewrite collection_loads. cbn.
  match goal with
  | |- context [predictionClient_predict E ?h' ?ep _] =>
      destruct (question_embeds h' ep) as (v' & vs' & ->)
  end.
  cbn.
  do 2 eexists.
  repeat match goal with
         | |- context [match client_search E ?h' ?req with _ => _ end] =>
             destruct (client_search E h' req); cbn
         | |- context [if no_results ?r then _ else _] =>
             destruct (no_results r); cbn
         | |- context [if includes ?s ?t then _ else _] =>
             destruct (includes s t); cbn
         | |- context [match client_showCollections E ?h' with _ => _ end] =>
             destruct (client_showCollections E h'); cbn
         | |- context [if negb (has_collection ?c) then _ else _] =>
             destruct (has_collection c); cbn
         | |- context [match client_describeIndex E ?h' ?n with _ => _ end] =>
             destruct (client_describeIndex E h' n); cbn
         | |- context [if existsb ?f ?l then _ else _] =>
             destruct (existsb f l); cbn
         | |- context [match client_createIndex E ?h' ?n with _ => _ end] =>
             destruct (client_createIndex E h' n); cbn
         end.
  all: split; [ reflexivity | split; reflexivity ].
Qed.

End Fallback.

(** ** Runs after a given history *)

Lemma at_call {R : Type} (h : Trace) (P : Event -> Prop) (Q : Outcome R -> Prop)
    (c : Call) (oracle : Trace -> JsError + R) :
  (forall ok, P (mkEvent c ok)) ->
  (forall r, oracle h = inr r -> Q (Returned r)) ->
  (forall e, oracle h = inl e -> Q (Thrown e)) ->
  holds_at h P Q (call c oracle).
Proof.
  intros HP Hr He. unfold holds_at, events, outcome, call.
  destruct (oracle h) as [e | r]; cbn.
  - split; [ repeat constructor; apply HP | apply He; reflexivity ].
  - split; [ repeat constructor; apply HP | apply Hr; reflexivity ].
Qed.

Lemma at_bind {A B : Type} (h : Trace) (P : Event -> Prop)
    (Q1 : Outcome A -> Prop) (Q2 : Outcome B -> Prop) (m : M A) (k : A -> M B) :
  holds_at h P Q1 m ->
  (forall a, Q1 (Returned a) -> satisfies P Q2 (k a)) ->
  (forall e, Q1 (Thrown e) -> Q2 (Thrown e)) ->
  (Q1 OutOfFuel -> Q2 OutOfFuel) ->
  holds_at h P Q2 (bind m k).
Proof.
  intros [Hev Hout] Hk He Hf.
  unfold holds_at, events, outcome, bind in *.
  destruct (m h) as [evs [a | e | ]]; cbn in *.
  - destruct (Hk a Hout (h ++ evs)%list) as [Hev' Hout'].
    unfold events, outcome in *.
    destruct (k a (h ++ evs)%list) as [evs' out']; cbn in *.
    split; [ apply Forall_app; split; assumption | assumption ].
  - split; [ assumption | apply He; assumption ].
  - split; [ assumption | apply Hf; assumption ].
Qed.

Lemma at_try {A : Type} (h : Trace) (P : Event -> Prop)
    (Q1 Q2 : Outcome A -> Prop) (m : M A) (handler : JsError -> M A) :
  holds_at h P Q1 m ->
  (forall e, Q1 (Thrown e) -> satisfies P Q2 (handler e)) ->
  (forall a, Q1 (Returned a) -> Q2 (Returned a)) ->
  (Q1 OutOfFuel -> Q2 OutOfFuel) ->
  holds_at h P Q2 (try_catch m handler).
Proof.
  intros [Hev Hout] Hh Hr Hf.
  unfold holds_at, events, outcome, try_catch in *.
  destruct (m h) as [evs [a | e | ]]; cbn in *.
  - split; [ assumption | apply Hr; assumption ].
  - destruct (Hh e Hout (h ++ evs)%list) as [Hev' Hout'].
    unfold events, outcome in *.
    destruct (handler e (h ++ evs)%list) as [evs' out']; cbn in *.
    split; [ apply Forall_app; split; assumption | assumption ].
  - split; [ assumption | apply Hf; assumption ].
Qed.

Lemma at_ret {A : Type} (h : Trace) (P : Event -> Prop) (Q : Outcome A -> Prop)
    (a : A) :
  Q (Returned a) -> holds_at h P Q (ret a).
Proof. intros H. split; [ constructor | exact H ]. Qed.

Lemma returns_inv {A : Type} (R : A -> Prop) (a : A) :
  returns R (Returned a) -> R a.
Proof. intros (a' & H & Ha). injection H as ->. exact Ha. Qed.

Lemma returns_not_thrown {A : Type} (R : A -> Prop) (e : JsError) :
  ~ returns R (Thrown e).
Proof. intros (a & H & _). discriminate. Qed.

Lemma returns_not_out_of_fuel {A : Type} (R : A -> Prop) :
  ~ returns R (@OutOfFuel A).
Proof. intros (a & H & _). discriminate. Qed.

Lemma returns_intro {A : Type} (R : A -> Prop) (a : A) :
  R a -> returns R (Returned a).
Proof. intros H. exists a. split; [ reflexivity | exact H ]. Qed.

(** ** The query handler *)

Section QueryWithoutEmbedding.

Variable E : Env.
Variable query : string.

Hypothesis embedding_fails :
  forall h endpoint,
    match predictionClient_predict E h endpoint (instances_of query) with
    | inl _ => True
    | inr predictions => predictions = []
    end.

Lemma getEmbeddings_fails (P : Event -> Prop) :
  (forall endpoint instances ok,
      P (mkEvent (VertexPredict endpoint instances) ok)) ->
  satisfies P (post False (fun v => forall x, v = Some x -> False))
    (getEmbeddings E query).
Proof.
  intros HP h. split.
  - apply (getEmbeddings_run E P False query HP).
  - unfold outcome, getEmbeddings, bind, call, ret. cbv zeta.
    match goal with
    | |- context [predictionClient_predict E ?h' ?ep _] =>
        pose proof (embedding_fails h' ep) as H
    end.
    unfold instances_of in H.
    destruct (predictionClient_predict E h _ _) as [e | predictions]; cbn.
    + exact I.
    + subst predictions. cbn. discriminate.
Qed.

Lemma searchMilvus_without_embedding (P : Event -> Prop) (userId : string)
    (options : SearchOptions) :
  (forall c ok, is_upkeep c = true -> P (mkEvent c ok)) ->
  (forall endpoint instances ok,
      P (mkEvent (VertexPredict endpoint instances) ok)) ->
  satisfies P (returns (fun hits => hits = []))
    (searchMilvus E query userId options).
Proof.
  intros HP HP' h.
  assert (H : satisfies P (post (2 < fallback_depth options) (fun hits => hits = []))
                (searchMilvus E query userId options)).
  { unfold searchMilvus.
    apply searchMilvus_rec_run
      with (Embedded := fun _ => False) (Found := fun _ => False)
           (subject0 := subjectId options) (ids0 := dataSourceIds options)
             (limit0 := match topK options with Some k => k | None => 2 end);
      try (left; reflexivity); auto; try contradiction.
    apply getEmbeddings_fails. exact HP'. }
  destruct (H h) as [Hev Hout]. split; [ exact Hev | ].
  destruct (searchMilvus_returns E query userId options h) as [hits Hhits].
  rewrite Hhits in *. cbn in Hout. apply returns_intro. exact Hout.
Qed.

(** C2 (as the code has it).  When embedding the question fails -- the call
    throws or yields no prediction -- and the lookup of the subject's
    documents does not throw, the query is answered with status 200,
    [success: true], the fixed no-context answer and relevance score 0,
    exactly as when nothing relevant was found; no search is sent and no
    answer is generated. *)
Theorem answerUserQuery_answers_no_context_when_embedding_fails
    (req : QueryRequest) (h : Trace) :
  body_query req = Some query ->
  truthy query = true ->
  query_model_ready E = true ->
  (forall h' userId subject, exists ids,
      db_dataSource_findMany E h' userId subject = inr ids) ->
  outcome (answerUserQuery E req) h
  = Returned (mkHttpResponse 200
                (AnswerBody true no_context_answer query 0%float
                   (or_null (body_subjectId req))))
  /\ Forall (fun ev => match ev_call ev with
                       | MilvusSearch _ _ | GenerateContent _ _ _ => False
                       | _ => True
                       end)
       (events (answerUserQuery E req) h).
Proof.
  intros Hquery Htruthy Hready Hfind.
  set (response := mkHttpResponse 200
                     (AnswerBody true no_context_answer query 0%float
                        (or_null (body_subjectId req)))).
  set (P := fun ev => match ev_call ev with
                      | MilvusSearch _ _ | GenerateContent _ _ _ => False
                      | _ => True
                      end).
  assert (H : satisfies P (returns (eq response)) (answerUserQuery E req)).
  { unfold answerUserQuery. cbv zeta. rewrite Hquery, Htruthy, Hready. cbn [negb].
    apply satisfies_try with (Q1 := returns (eq response)); auto;
      [ | intros e He; exfalso; eapply returns_not_thrown; exact He ].
    apply satisfies_try with (Q1 := returns (eq response)); auto;
      [ | intros e He; exfalso; eapply returns_not_thrown; exact He ].
    apply satisfies_bind with (Q1 := returns any);
      [ | | intros e He; exfalso; eapply returns_not_thrown; exact He
        | intros He; exfalso; eapply returns_not_out_of_fuel; exact He ].
    - destruct (truthy_opt (body_subjectId req));
        [ | apply satisfies_ret, returns_intro; exact I ].
      apply satisfies_bind with (Q1 := returns any);
        [ | | intros e He; exfalso; eapply returns_not_thrown; exact He
          | intros He; exfalso; eapply returns_not_out_of_fuel; exact He ].
      + apply satisfies_call.
        * intros ok. exact I.
        * intros h' r _. apply returns_intro. exact I.
        * intros h' e He. cbv beta in He.
          destruct (Hfind h' (req_userId req)
                      (or_else (body_subjectId req) EmptyString)) as [ids Hids].
          rewrite Hids in He. discriminate.
      + intros ids _. cbv zeta.
        destruct (Nat.ltb 0 (List.length ids));
          apply satisfies_ret, returns_intro; exact I.
    - intros searchOptions _.
      apply satisfies_bind with (Q1 := returns (fun hits => hits = []));
        [ | | intros e He; exfalso; eapply returns_not_thrown; exact He
          | intros He; exfalso; eapply returns_not_out_of_fuel; exact He ].
      + apply searchMilvus_without_embedding.
        * intros c ok Hc. destruct c; try exact I; discriminate.
        * intros; exact I.
      + intros hits Hhits. apply returns_inv in Hhits. subst hits. cbn.
        apply satisfies_ret, returns_intro. reflexivity. }
  destruct (H h) as [Hev (response' & Hout & <-)]. split; assumption.
Qed.

End QueryWithoutEmbedding.

Lemma answerUserQuery_answers_no_context_when_embedding_fails_witness :
  outcome (answerUserQuery (scripted no_embedding_script)
             (mkQueryRequest "u1" (Some "What is a cell?") (Some "s1"))) []
  = Returned (mkHttpResponse 200
                (AnswerBody true no_context_answer "What is a cell?" 0%float
                   (Some "s1"))).
Proof.
  refine (proj1 (@answerUserQuery_answers_no_context_when_embedding_fails
                   (scripted no_embedding_script) "What is a cell?" _
                   (mkQueryRequest "u1" (Some "What is a cell?") (Some "s1")) []
                   eq_refl eq_refl eq_refl _)).
  - intros h endpoint. exact I.
  - intros h' userId subject. eexists. reflexivity.
Defined.

(** C2 as the specification states it does not hold: the embedding model is
    down, and the query is answered with status 200 instead of a 5xx
    error. *)
Lemma answerUserQuery_embedding_failure_is_not_fatal :
  (forall h endpoint instances,
      predictionClient_predict (scripted no_embedding_script) h endpoint instances
      = failure "14 UNAVAILABLE: embedding model unavailable")
  /\ exists response,
       outcome (answerUserQuery (scripted no_embedding_script)
                  (mkQueryRequest "u1" (Some "What is a cell?") None)) []
       = Returned response
       /\ res_status response = 200
       /\ ~ 500 <= res_status response.
Proof.
  split; [ reflexivity | ].
  eexists. split; [ reflexivity | ]. split; [ reflexivity | ]. cbn. lia.
Qed.

Lemma scope_expr_in_scope (tenant : string) (subject : option string)
    (ids : list string) (r : Row) :
  eval (scope_expr tenant subject ids) r = true
  <-> in_scope tenant subject ids r.
Proof.
  unfold scope_expr, in_scope.
  destruct (truthy_opt subject); [ destruct ids as [| id ids] | ]; cbn [eval field_of].
  - rewrite andb_true_iff, !String.eqb_eq. tauto.
  - rewrite andb_true_iff, String.eqb_eq, existsb_exists. split.
    + intros [Hu (x & Hx & Heq)]. apply String.eqb_eq in Heq. subst x.
      split; [ exact Hu | intros _; exact Hx ].
    + intros [Hu Hin]. split; [ exact Hu | ].
      exists (row_data_source_id r). split; [ apply Hin; reflexivity | ].
      apply String.eqb_refl.
  - rewrite String.eqb_eq. split; [ intros Hu; split; [ exact Hu | discriminate ] | tauto ].
Qed.

(** C3.  Scope resolution of a query.  With a subject and at least one
    document of the tenant under it, every search of the query carries the
    filter "tenant and document among the found identifiers"; with a subject
    and no document, "tenant and subject"; without a subject, "tenant"
    alone.  The rows that satisfy the filter expression are exactly those in
    that scope. *)
Theorem answerUserQuery_scope_resolution (E : Env) (req : QueryRequest)
    (query : string) (ids : list string) (h : Trace) :
  body_query req = Some query ->
  truthy query = true ->
  query_model_ready E = true ->
  (truthy_opt (body_subjectId req) = true ->
   db_dataSource_findMany E h (req_userId req)
     (or_else (body_subjectId req) EmptyString) = inr ids) ->
  Forall (fun sr =>
            sr_filter (snd sr)
            = render (scope_expr (req_userId req) (body_subjectId req) ids))
    (search_requests (events (answerUserQuery E req) h))
  /\ forall r,
       eval (scope_expr (req_userId req) (body_subjectId req) ids) r = true
       <-> in_scope (req_userId req) (body_subjectId req) ids r.
Proof.
  intros Hquery Htruthy Hready Hfind.
  split; [ | intros r; apply scope_expr_in_scope ].
  set (F := render (scope_expr (req_userId req) (body_subjectId req) ids)).
  set (P := fun ev => match ev_call ev with
                      | MilvusSearch _ rq => sr_filter rq = F
                      | _ => True
                      end).
  set (expected :=
         if truthy_opt (body_subjectId req) then
           if Nat.ltb 0 (List.length ids)
           then mkSearchOptions (Some 3) None (Some ids)
           else mkSearchOptions (Some 3)
                  (Some (or_else (body_subjectId req) EmptyString)) None
         else mkSearchOptions (Some 3) None None).
  assert (Hfilter :
            has_ids (dataSourceIds expected) && truthy_opt (subjectId expected)
            = false
            /\ search_filter (req_userId req) (subjectId expected)
                 (dataSourceIds expected) = F).
  { subst expected F. unfold scope_expr.
    destruct (body_subjectId req) as [[| c s] |]; cbn;
      try (split; reflexivity).
    destruct ids as [| id ids]; cbn; split; reflexivity. }
  destruct Hfilter as [Hnofallback Hfilter].
  assert (H : holds_at h P (post False any) (answerUserQuery E req)).
  { unfold answerUserQuery. cbv zeta. rewrite Hquery, Htruthy, Hready. cbn [negb].
    apply at_try with (Q1 := post False any); auto;
      [ | intros e _; apply run_ret; exact I ].
    apply at_try with (Q1 := post False any); auto;
      [ | intros e _; apply run_ret; exact I ].
    apply at_bind with (Q1 := post False (eq expected)); auto.
    - subst expected.
      destruct (truthy_opt (body_subjectId req));
        [ | apply at_ret; reflexivity ].
      apply at_bind with (Q1 := post False (eq ids)); auto.
      + apply at_call; [ intros ok; exact I | | intros; exact I ].
        intros r Hr. rewrite (Hfind eq_refl) in Hr. injection Hr as <-.
        reflexivity.
      + intros ids' Hids. cbn in Hids. subst ids'. cbv zeta.
        destruct (Nat.ltb 0 (List.length ids)); apply run_ret; reflexivity.
    - intros searchOptions Hoptions. cbn in Hoptions. subst searchOptions.
      apply run_bind with (R1 := any).
      + eapply satisfies_weaken with (P := P);
          [ unfold searchMilvus;
            apply searchMilvus_rec_run
              with (Embedded := any) (Found := any) (Result := any)
                   (subject0 := subjectId expected)
                   (ids0 := dataSourceIds expected)
                   (limit0 := match topK expected with Some k => k | None => 2 end);
            try (left; reflexivity); try (intros; exact I); auto
          | auto | ].
        * intros c ok Hc. destruct c; try exact I; discriminate.
        * apply getEmbeddings_any. intros; exact I.
        * intros site v d ok _ [-> | [_ Hd]]; [ exact Hfilter | ].
          rewrite Hnofallback in Hd. discriminate.
        * intros [hits | e | ]; cbn; auto.
          unfold fallback_depth. rewrite Hnofallback. lia.
      + intros contextChunks _. unfold first_part_text.
        repeat run_step; exact I. }
  destruct H as [Hev _]. unfold search_requests.
  apply Forall_flat_map. eapply Forall_impl; [ | exact Hev ].
  intros [c ok] Hc. cbn in *.
  destruct c; try constructor; [ exact Hc | constructor ].
Qed.

Lemma answerUserQuery_scope_resolution_witness :
  Forall (fun sr =>
            sr_filter (snd sr)
            = render (FAnd (FEq F_user_id "u1")
                        (FIn F_data_source_id ["d1"; "d2"])))
    (search_requests
       (events (answerUserQuery (scripted two_documents_script)
                  (mkQueryRequest "u1" (Some "What is a cell?") (Some "s1")))
          []))
  /\ List.length
       (search_requests
          (events (answerUserQuery (scripted two_documents_script)
                     (mkQueryRequest "u1" (Some "What is a cell?") (Some "s1")))
             []))
     = 1.
Proof.
  split.
  - exact (proj1 (@answerUserQuery_scope_resolution
                    (scripted two_documents_script)
                    (mkQueryRequest "u1" (Some "What is a cell?") (Some "s1"))
                    "What is a cell?" ["d1"; "d2"] []
                    eq_refl eq_refl eq_refl (fun _ => eq_refl))).
  - reflexivity.
Defined.

(** ** Resetting the index *)

Lemma store_step_frame (matches : string -> Row -> bool) (st : Store)
    (ev : Event) (name : string) :
  changes_entities (ev_call ev) = false ->
  entities (store_step matches st ev) name = entities st name.
Proof.
  intros Hc. unfold store_step.
  destruct (negb (ev_ok ev)); [ reflexivity | ].
  destruct (ev_call ev); try discriminate; try reflexivity.
  destruct (has_entry st collection_name) eqn:Hentry; [ reflexivity | ].
  cbn. destruct (String.eqb collection_name name) eqn:Heq; [ | reflexivity ].
  apply String.eqb_eq in Heq. subst name.
  induction st as [| [n rows] st IH]; cbn in *; [ reflexivity | ].
  destruct (String.eqb n collection_name); [ discriminate | ].
  apply IH. exact Hentry.
Qed.

Lemma store_after_frame (matches : string -> Row -> bool) (evs : list Event) :
  Forall (fun ev => changes_entities (ev_call ev) = false) evs ->
  forall st name, entities (store_after matches evs st) name = entities st name.
Proof.
  unfold store_after.
  induction 1 as [| ev evs Hev _ IH]; intros st name; cbn; [ reflexivity | ].
  rewrite IH. apply store_step_frame. exact Hev.
Qed.










(** ** Ingestion *)

Lemma inserted_rows_app (evs evs' : list Event) :
  inserted_rows (evs ++ evs') = (inserted_rows evs ++ inserted_rows evs')%list.
Proof. apply flat_map_app. Qed.

Lemma status_writes_app (evs evs' : list Event) :
  status_writes (evs ++ evs') = (status_writes evs ++ status_writes evs')%list.
Proof. apply flat_map_app. Qed.

Lemma predict_calls_app (evs evs' : list Event) :
  predict_calls (evs ++ evs') = (predict_calls evs ++ predict_calls evs')%list.
Proof. apply flat_map_app. Qed.

Lemma extraction_calls_app (evs evs' : list Event) :
  extraction_calls (evs ++ evs') = extraction_calls evs + extraction_calls evs'.
Proof. unfold extraction_calls. now rewrite filter_app, length_app. Qed.

Lemma embedding_calls_only (evs : list Event) :
  Forall (fun ev => is_embedding_call (ev_call ev) = true) evs ->
  status_writes evs = [] /\ extraction_calls evs = 0.
Proof.
  induction 1 as [| [c ok] evs Hc _ [IH1 IH2]]; [ split; reflexivity | ].
  unfold extraction_calls in *. cbn in *.
  destruct c; try discriminate; cbn; split; assumption.
Qed.

Lemma extraction_calls_only (evs : list Event) :
  Forall (fun ev => is_extraction_call (ev_call ev) = true) evs ->
  status_writes evs = [] /\ inserted_rows evs = [] /\ predict_calls evs = [].
Proof.
  induction 1 as [| [c ok] evs Hc _ (IH1 & IH2 & IH3)];
    [ repeat split; reflexivity | ].
  cbn in *. destruct c; try discriminate; cbn; repeat split; assumption.
Qed.

Section Ingestion.

Variable E : Env.

Lemma getEmbeddings_events (text : string) (h : Trace) :
  exists ok,
    events (getEmbeddings E text) h
    = [mkEvent (VertexPredict
                  ("projects/" ++ PROJECT_ID E ++ "/locations/" ++ "us-central1"
                   ++ "/publishers/google/models/" ++ "text-embedding-005")
                  (instances_of text)) ok]
    /\ (ok = false -> exists e, outcome (getEmbeddings E text) h = Thrown e).
Proof.
  unfold getEmbeddings, events, outcome, bind, call, ret, instances_of. cbv zeta.
  destruct (predictionClient_predict E h _ _) as [e | predictions]; cbn.
  - exists false. split; [ reflexivity | ]. intros _. exists e. reflexivity.
  - exists true. split; [ reflexivity | discriminate ].
Qed.

Lemma insert_loop_calls (documents : list ChunkDoc) (userId : string)
    (metadata : InsertMetadata) :
  satisfies (fun ev => is_embedding_call (ev_call ev) = true) halts
    (insert_loop E documents userId metadata).
Proof.
  induction documents as [| doc rest IH]; cbn [insert_loop].
  - apply run_ret. exact I.
  - apply run_bind with (R1 := any).
    + apply getEmbeddings_run. reflexivity.
    + intros [v |] _; [ | exact IH ].
      cbv zeta. apply run_bind with (R1 := any); [ | intros _ _; exact IH ].
      apply run_call; [ reflexivity | intros; exact I ].
Qed.

(** [insertEmbeddings] catches every error of the loop. *)
Lemma insertEmbeddings_returns (documents : list ChunkDoc) (userId : string)
    (metadata : InsertMetadata) :
  satisfies (fun ev => is_embedding_call (ev_call ev) = true)
    (returns (fun _ => True))
    (insertEmbeddings E documents userId metadata).
Proof.
  unfold insertEmbeddings.
  apply run_try_returns with (handler := fun _ => tt); [ | intros; exact I ].
  eapply satisfies_weaken; [ apply insert_loop_calls | auto | auto ].
Qed.

Lemma insertEmbeddings_events (documents : list ChunkDoc) (userId : string)
    (metadata : InsertMetadata) (h : Trace) :
  events (insertEmbeddings E documents userId metadata) h
  = events (insert_loop E documents userId metadata) h.
Proof.
  unfold insertEmbeddings. rewrite events_try.
  destruct (outcome _ h); cbn; apply app_nil_r.
Qed.

Lemma subsequence_nil {A : Type} (l : list A) : subsequence [] l.
Proof. induction l; constructor; assumption. Qed.

(** The rows that a run of the loop inserts are rows of its documents, in
    their order. *)
Lemma insert_loop_subsequence (userId : string) (metadata : InsertMetadata)
    (documents : list ChunkDoc) :
  forall h,
    subsequence
      (map row_text (inserted_rows (events (insert_loop E documents userId metadata) h)))
      (map pageContent documents).
Proof.
  induction documents as [| doc rest IH]; intros h; cbn [insert_loop map].
  - constructor.
  - rewrite events_bind, inserted_rows_app.
    destruct (getEmbeddings_events (pageContent doc) h) as (ok & -> & _).
    cbn [inserted_rows flat_map ev_call app].
    destruct (outcome (getEmbeddings E (pageContent doc)) h) as [[v |] | e | ].
    + cbv zeta. rewrite events_bind, inserted_rows_app.
      unfold events at 1, outcome at 1, call.
      destruct (client_insert E _ _ _) as [e | []]; cbn.
      * apply subsequence_nil.
      * apply sub_keep. apply IH.
    + apply sub_skip. apply IH.
    + apply subsequence_nil.
    + apply subsequence_nil.
Qed.

End Ingestion.

Lemma pageContent_mapi (chunks : list string) :
  map pageContent (mapi (fun chunk index => mkChunkDoc chunk index) chunks)
  = chunks.
Proof.
  unfold mapi. generalize 0.
  induction chunks as [| c chunks IH]; intros i; cbn; [ reflexivity | ].
  now rewrite IH.
Qed.

Lemma extractTextFromDocument_calls (E : Env) (filePath : string) :
  satisfies (fun ev => is_extraction_call (ev_call ev) = true) halts
    (extractTextFromDocument E filePath).
Proof.
  unfold extractTextFromDocument, fileToGenerativePart, first_part_text.
  repeat run_step; try exact I; reflexivity.
Qed.

Section IngestionRun.

Variable E : Env.
Variable file : UploadedFile.
Variables dataSourceId userId : string.

(** The steps around the embedding loop succeed. *)
Variable text : string.
Hypothesis lookup_ok :
  forall h, exists dataSource,
    db_dataSource_findUnique E h dataSourceId = inr dataSource.
Hypothesis extraction_ok :
  forall h,
    outcome (extractTextFromDocument E (file_path file)) h = Returned text.
Hypothesis update_ok :
  forall h content status,
    db_dataSource_update E h dataSourceId content status = inr tt.

Lemma processFileAsync_run (h : Trace) :
  exists dataSource evs_x evs_i,
    db_dataSource_findUnique E h dataSourceId = inr dataSource
    /\ processFileAsync E file dataSourceId userId h
    = ((mkEvent (DbFindUnique dataSourceId) true :: evs_x)
         ++ evs_i
         ++ [mkEvent (DbUpdate dataSourceId text COMPLETED) true],
       Returned tt)%list
    /\ Forall (fun ev => is_extraction_call (ev_call ev) = true) evs_x
    /\ evs_i
       = events (insertEmbeddings E
                   (mapi (fun chunk index => mkChunkDoc chunk index)
                      (chunks_of E text))
                   userId
                   (mkInsertMetadata
                      (or_null match dataSource with
                               | Some subject => subject
                               | None => None
                               end)
                      dataSourceId))
           ((h ++ [mkEvent (DbFindUnique dataSourceId) true]) ++ evs_x)%list.
Proof.
  destruct (lookup_ok h) as [dataSource Hlookup].
  pose proof (extraction_ok
                (h ++ [mkEvent (DbFindUnique dataSourceId) true])%list) as Hx.
  pose proof (extractTextFromDocument_calls E (file_path file)
                (h ++ [mkEvent (DbFindUnique dataSourceId) true])%list)
    as [Hcalls _].
  unfold outcome in Hx. unfold events in Hcalls.
  exists dataSource.
  unfold processFileAsync, db_update. cbv zeta.
  unfold try_catch at 1, bind at 1, call at 1. rewrite Hlookup.
  unfold bind at 1.
  destruct (extractTextFromDocument E (file_path file) _) as [evs_x out_x].
  cbn in Hx, Hcalls. subst out_x.
  exists evs_x. eexists.
  split; [ reflexivity | split; [ | split; [ exact Hcalls | reflexivity ] ] ].
  unfold bind at 1. unfold chunks_of.
  match goal with
  | |- context [insertEmbeddings E ?d ?u ?m ?h'] =>
      destruct (insertEmbeddings_returns E d u m h') as [_ (r & Hr & _)];
      unfold events, outcome in *;
      destruct (insertEmbeddings E d u m h') as [evs_i out_i]
  end.
  cbn in Hr. subst out_i. unfold call. rewrite update_ok. cbn.
  destruct r. reflexivity.
Qed.

(** When every embedding and every insert succeeds, the loop inserts a row
    for each document. *)
Lemma insert_loop_all (metadata : InsertMetadata) (documents : list ChunkDoc) :
  (forall h endpoint chunk, exists v vs,
      predictionClient_predict E h endpoint (instances_of chunk) = inr (v :: vs)) ->
  (forall h name data, client_insert E h name data = inr tt) ->
  forall h,
    map row_text
      (inserted_rows (events (insert_loop E documents userId metadata) h))
    = map pageContent documents.
Proof.
  intros Hembed Hinsert.
  induction documents as [| doc rest IH]; intros h; cbn [insert_loop map].
  - reflexivity.
  - assert (Hget : exists v evs,
               getEmbeddings E (pageContent doc) h = (evs, Returned (Some v))
               /\ inserted_rows evs = []).
    { unfold getEmbeddings, bind, call, ret. cbv zeta.
      match goal with
      | |- context [predictionClient_predict E ?h' ?ep _] =>
          destruct (Hembed h' ep (pageContent doc)) as (v & vs & Hv)
      end.
      unfold instances_of in Hv. rewrite Hv. cbn.
      do 2 eexists. split; reflexivity. }
    destruct Hget as (v & evs & Hget & Hnone).
    rewrite events_bind, inserted_rows_app.
    unfold events at 1, outcome at 1. rewrite Hget. cbn [fst snd].
    rewrite Hnone. cbv zeta.
    rewrite events_bind, inserted_rows_app.
    unfold events at 1, outcome at 1, call. rewrite Hinsert.
    cbn [fst snd inserted_rows flat_map ev_call ev_ok app map row_text insert_row].
    f_equal. apply IH.
Qed.

(** When the embedding model and the store answer each request in one way,
    whatever the history, the loop leaves in the index the rows of
    [indexed]: it skips the chunks without an embedding and stops at the
    first embedding or insert that throws. *)
Lemma insert_loop_indexed (embed : string -> JsError + list Vector)
    (store : list Row -> JsError + unit) (metadata : InsertMetadata)
    (documents : list ChunkDoc) :
  (forall h endpoint chunk,
      predictionClient_predict E h endpoint (instances_of chunk) = embed chunk) ->
  (forall h data, client_insert E h COLLECTION_NAME data = store data) ->
  forall h,
    inserted_rows (events (insert_loop E documents userId metadata) h)
    = indexed embed store userId metadata documents.
Proof.
  intros Hembed Hstore.
  induction documents as [| doc rest IH]; intros h; cbn [insert_loop indexed].
  - reflexivity.
  - assert (Hget : exists ok,
               getEmbeddings E (pageContent doc) h
               = ([mkEvent (VertexPredict
                              ("projects/" ++ PROJECT_ID E ++ "/locations/"
                               ++ "us-central1" ++ "/publishers/google/models/"
                               ++ "text-embedding-005")
                              (instances_of (pageContent doc))) ok],
                  match embed (pageContent doc) with
                  | inl e => Thrown e
                  | inr vs => Returned (nth_error vs 0)
                  end)).
    { unfold getEmbeddings, bind, call, ret. cbv zeta.
      match goal with
      | |- context [predictionClient_predict E ?h' ?ep _] =>
          pose proof (Hembed h' ep (pageContent doc)) as Hv
      end.
      unfold instances_of in Hv. rewrite Hv.
      destruct (embed (pageContent doc)); eexists; reflexivity. }
    destruct Hget as (ok & Hget).
    rewrite events_bind, inserted_rows_app.
    unfold events at 1, outcome at 1. rewrite Hget. cbn [fst snd].
    change (inserted_rows [mkEvent (VertexPredict _ _) ok]) with (@nil Row).
    cbn [app].
    destruct (embed (pageContent doc)) as [e | [| v vs]]; cbn [nth_error].
    + reflexivity.
    + apply IH.
    + cbv zeta. rewrite events_bind, inserted_rows_app.
      unfold events at 1, outcome at 1, call. rewrite Hstore.
      destruct (store [insert_row doc v userId metadata]) as [e | []];
        cbn [fst snd inserted_rows flat_map ev_call ev_ok app].
      * reflexivity.
      * f_equal. apply IH.
Qed.

(** C1 (as the code has it).  When the lookup, the text extraction and the
    status write succeed, the run ends with status COMPLETED whatever
    happens to the embeddings.  The chunks that reached the index are then
    some of the produced chunks, in their order.  When the embedding model
    and the store answer each request in one way, they are the rows of
    [indexed]: [insertEmbeddings] skips a chunk whose embedding comes back
    empty and stops at the first embedding or insert that throws.  They are
    all the chunks when every embedding and every insert succeeds. *)
Theorem processFileAsync_completes_whatever_the_embeddings (h : Trace) :
  outcome (processFileAsync E file dataSourceId userId) h = Returned tt
  /\ status_writes (events (processFileAsync E file dataSourceId userId) h)
     = [(dataSourceId, text, COMPLETED)]
  /\ subsequence
       (map row_text
          (inserted_rows (events (processFileAsync E file dataSourceId userId) h)))
       (chunks_of E text)
  /\ (exists dataSource,
         db_dataSource_findUnique E h dataSourceId = inr dataSource
         /\ forall embed store,
              (forall h' endpoint chunk,
                  predictionClient_predict E h' endpoint (instances_of chunk)
                  = embed chunk) ->
              (forall h' data,
                  client_insert E h' COLLECTION_NAME data = store data) ->
              inserted_rows
                (events (processFileAsync E file dataSourceId userId) h)
              = indexed embed store userId
                  (mkInsertMetadata
                     (or_null match dataSource with
                              | Some subject => subject
                              | None => None
                              end)
                     dataSourceId)
                  (mapi (fun chunk index => mkChunkDoc chunk index)
                     (chunks_of E text)))
  /\ ((forall h' endpoint chunk, exists v vs,
          predictionClient_predict E h' endpoint (instances_of chunk)
          = inr (v :: vs)) ->
      (forall h' name data, client_insert E h' name data = inr tt) ->
      map row_text
        (inserted_rows (events (processFileAsync E file dataSourceId userId) h))
      = chunks_of E text).
Proof.
  destruct (processFileAsync_run h)
    as (dataSource & evs_x & evs_i & Hlookup & Hrun & Hx & Hi).
  unfold outcome, events. rewrite Hrun. cbn [fst snd].
  destruct (extraction_calls_only Hx) as (Hx1 & Hx2 & _).
  assert (Hi1 : status_writes evs_i = []).
  { subst evs_i. apply embedding_calls_only.
    apply insertEmbeddings_returns. }
  split; [ reflexivity | ].
  split.
  { unfold status_writes in *. rewrite !flat_map_app. cbn.
    rewrite Hx1, Hi1. reflexivity. }
  assert (Hrows :
            inserted_rows
              ((mkEvent (DbFindUnique dataSourceId) true :: evs_x)
                 ++ evs_i
                 ++ [mkEvent (DbUpdate dataSourceId text COMPLETED) true])%list
            = inserted_rows evs_i).
  { unfold inserted_rows in *. rewrite !flat_map_app. cbn.
    rewrite Hx2. cbn. apply app_nil_r. }
  rewrite Hrows. subst evs_i. rewrite insertEmbeddings_events.
  split; [ | split ].
  - rewrite <- (pageContent_mapi (chunks_of E text)) at 2.
    apply insert_loop_subsequence.
  - exists dataSource. split; [ exact Hlookup | ].
    intros embed store Hembed Hstore.
    apply insert_loop_indexed; assumption.
  - intros Hembed Hinsert.
    rewrite insert_loop_all by assumption. apply pageContent_mapi.
Qed.

End IngestionRun.

(** The second of two chunks is rejected by the embedding model: the run
    completes with the first chunk alone in the index. *)
Lemma processFileAsync_completes_whatever_the_embeddings_witness :
  outcome (processFileAsync (scripted second_embedding_fails_script)
             upload "d1" "u1") []
  = Returned tt
  /\ status_writes
       (events (processFileAsync (scripted second_embedding_fails_script)
                  upload "d1" "u1") [])
     = [("d1", two_paragraphs, COMPLETED)]
  /\ inserted_rows
       (events (processFileAsync (scripted second_embedding_fails_script)
                  upload "d1" "u1") [])
     = [mkRow first_paragraph (length_embedding first_paragraph)
          (mkChunkMetadata 0 None "d1") "u1" EmptyString "d1"].
Proof.
  pose proof (@processFileAsync_completes_whatever_the_embeddings
                (scripted second_embedding_fails_script) upload "d1" "u1"
                two_paragraphs
                (fun _ => ex_intro _ (Some None) eq_refl)
                (fun _ => eq_refl)
                (fun _ _ _ => eq_refl) []) as (H1 & H2 & _ & H4 & _).
  split; [ exact H1 | split; [ exact H2 | ] ].
  destruct H4 as (dataSource & Hlookup & Hindexed).
  injection Hlookup as <-.
  rewrite (Hindexed
             (fun chunk => sc_predict second_embedding_fails_script
                             (instances_of chunk))
             (sc_insert second_embedding_fails_script)
             (fun _ _ _ => eq_refl) (fun _ _ => eq_refl)).
  vm_compute. reflexivity.
Defined.

(** C1 as the specification states it does not hold: the text is longer
    than a chunk and is cut into its two paragraphs, the embedding of the
    second fails, and the run ends with status COMPLETED, with the first
    chunk alone in the index. *)
Lemma processFileAsync_partial_index_for_completed_document :
  chunkSize splitter_config = 2000%N
  /\ String.length first_paragraph = 1499
  /\ String.length second_paragraph = 1439
  /\ String.length two_paragraphs = 2940
  /\ chunks_of (scripted second_embedding_fails_script) two_paragraphs
     = [first_paragraph; second_paragraph]
  /\ outcome (getEmbeddings (scripted second_embedding_fails_script)
                second_paragraph) []
     = Thrown (newError "3 INVALID_ARGUMENT: text rejected")
  /\ status_writes
       (events (processFileAsync (scripted second_embedding_fails_script)
                  upload "d1" "u1") [])
     = [("d1", two_paragraphs, COMPLETED)]
  /\ map row_text
       (inserted_rows
          (events (processFileAsync (scripted second_embedding_fails_script)
                     upload "d1" "u1") []))
     = [first_paragraph].
Proof. repeat split; vm_compute; reflexivity. Qed.

(** ** The status of a document *)

Lemma extractTextFromDocument_once (E : Env) (filePath : string) (h : Trace) :
  extraction_calls (events (extractTextFromDocument E filePath) h) <= 1.
Proof.
  unfold extractTextFromDocument, fileToGenerativePart, first_part_text.
  unfold events, extraction_calls, try_catch, bind, call, ret, throw.
  destruct (gemini_model_ready E); cbn; [ | lia ].
  destruct (fs_readFile E h filePath) as [e | content]; cbn; [ lia | ].
  destruct (model_generateContent E _ _ _ _) as [e | [[| [[[| t parts] |]] l] |]];
    cbn; lia.
Qed.

Section Status.

Variable E : Env.
Variable file : UploadedFile.
Variables dataSourceId userId : string.

Let run := processFileAsync E file dataSourceId userId.

(** What the steps before the status write leave behind. *)
Lemma extraction_facts (h : Trace) :
  status_writes (events (extractTextFromDocument E (file_path file)) h) = []
  /\ extraction_calls (events (extractTextFromDocument E (file_path file)) h) <= 1
  /\ outcome (extractTextFromDocument E (file_path file)) h <> OutOfFuel.
Proof.
  destruct (extractTextFromDocument_calls E (file_path file) h) as [Hev Hout].
  split; [ apply (extraction_calls_only Hev) | ].
  split; [ apply extractTextFromDocument_once | ].
  intros H. rewrite H in Hout. exact Hout.
Qed.

Lemma embedding_facts (documents : list ChunkDoc) (metadata : InsertMetadata)
    (h : Trace) :
  status_writes (events (insertEmbeddings E documents userId metadata) h) = []
  /\ extraction_calls (events (insertEmbeddings E documents userId metadata) h) = 0
  /\ outcome (insertEmbeddings E documents userId metadata) h = Returned tt.
Proof.
  destruct (insertEmbeddings_returns E documents userId metadata h)
    as [Hev ([] & Hout & _)].
  destruct (embedding_calls_only Hev) as [H1 H2].
  repeat split; assumption.
Qed.

(** The [try] block of [processFileAsync] ends in one of four ways: the
    lookup throws; the extraction throws; the COMPLETED write throws; or
    that write succeeds and the block returns. *)
Let try_block : M unit :=
  bind (call (DbFindUnique dataSourceId)
          (fun h => db_dataSource_findUnique E h dataSourceId))
    (fun dataSource =>
       bind (extractTextFromDocument E (file_path file))
         (fun extractedText =>
            bind (insertEmbeddings E
                    (mapi (fun chunk index => mkChunkDoc chunk index)
                       (textSplitter_createDocuments E
                          splitter_config [extractedText]))
                    userId
                    {| im_subjectId :=
                         or_null match dataSource with
                                 | Some subject => subject
                                 | None => None
                                 end;
                       im_dataSourceId := dataSourceId |})
              (fun _ => db_update E dataSourceId extractedText COMPLETED))).

Let catch_block (error : JsError) : M unit :=
  bind (db_update E dataSourceId ("Error processing: " ++ err_message error) ERROR)
    (fun _ => throw error).

Lemma processFileAsync_blocks : run = try_catch try_block catch_block.
Proof. reflexivity. Qed.

Lemma processFileAsync_try_block (h : Trace) :
  let find := mkEvent (DbFindUnique dataSourceId) in
  let h1 := (h ++ [find true])%list in
  (exists e,
      thrown_by E h (DbFindUnique dataSourceId) = Some e
      /\ try_block h = ([find false], Thrown e))
  \/ (exists evs_x e,
         extractTextFromDocument E (file_path file) h1 = (evs_x, Thrown e)
         /\ try_block h = (find true :: evs_x, Thrown e))
  \/ (exists evs_x text evs_i,
         extractTextFromDocument E (file_path file) h1 = (evs_x, Returned text)
         /\ status_writes evs_i = []
         /\ extraction_calls evs_i = 0
         /\ ((exists e,
                 thrown_by E (h ++ find true :: evs_x ++ evs_i)%list
                   (DbUpdate dataSourceId text COMPLETED) = Some e
                 /\ try_block h
                    = ((find true :: evs_x ++ evs_i
                          ++ [mkEvent (DbUpdate dataSourceId text COMPLETED) false])%list,
                       Thrown e))
             \/ try_block h
                = ((find true :: evs_x ++ evs_i
                      ++ [mkEvent (DbUpdate dataSourceId text COMPLETED) true])%list,
                   Returned tt))).
Proof.
  cbv zeta. remember (try_block h) as r eqn:Hr.
  unfold try_block in Hr. unfold bind at 1, call at 1 in Hr. cbn [thrown_by].
  destruct (db_dataSource_findUnique E h dataSourceId) as [e | dataSource].
  { left. exists e. subst r. split; reflexivity. }
  right. unfold bind at 1 in Hr.
  destruct (extraction_facts (h ++ [mkEvent (DbFindUnique dataSourceId) true])%list)
    as (_ & _ & Hx3).
  unfold outcome in Hx3.
  destruct (extractTextFromDocument E (file_path file)
              (h ++ [mkEvent (DbFindUnique dataSourceId) true])%list)
    as [evs_x [text | e | ]]; cbn [fst snd] in *.
  - right. unfold bind at 1 in Hr.
    match type of Hr with
    | context [insertEmbeddings E ?d ?u ?m ?h'] =>
        destruct (embedding_facts d m h') as (Hi1 & Hi2 & Hi3);
        unfold events, outcome in Hi1, Hi2, Hi3;
        destruct (insertEmbeddings E d u m h') as [evs_i out_i]
    end.
    cbn [fst snd] in *. subst out_i.
    exists evs_x, text, evs_i.
    split; [ reflexivity | split; [ exact Hi1 | split; [ exact Hi2 | ] ] ].
    unfold db_update, call in Hr.
    replace (h ++ mkEvent (DbFindUnique dataSourceId) true :: evs_x ++ evs_i)%list
      with (((h ++ [mkEvent (DbFindUnique dataSourceId) true]) ++ evs_x) ++ evs_i)%list
      by (rewrite <- !app_assoc; reflexivity).
    destruct (db_dataSource_update E _ dataSourceId text COMPLETED) as [e | []];
      subst r.
    + left. exists e. split; reflexivity.
    + right. reflexivity.
  - left. exists evs_x, e. subst r. split; reflexivity.
  - exfalso. apply Hx3. reflexivity.
Qed.

(** The [catch] block: one attempt to write the failure reason with status
    ERROR, after which the error is thrown on (or the error of the write,
    when the write throws). *)
Lemma processFileAsync_catch_block (cause : JsError) (h : Trace) :
  let content := "Error processing: " ++ err_message cause in
  exists ok error,
    catch_block cause h
    = ([mkEvent (DbUpdate dataSourceId content ERROR) ok], Thrown error)
    /\ (if ok then error = cause
        else thrown_by E h (DbUpdate dataSourceId content ERROR) = Some error).
Proof.
  cbv zeta. unfold catch_block, bind, db_update, call, throw. cbn [thrown_by].
  destruct (db_dataSource_update E h _ _ _) as [e | []];
    [ exists false, e | exists true, cause ]; split; reflexivity.
Qed.

(** The step of the run that threw the error [cause]: the lookup, the
    extraction, or the COMPLETED write at the end of the events [evs]. *)
Let failed_step (h : Trace) (cause : JsError) (evs : list Event) : Prop :=
  thrown_by E h (DbFindUnique dataSourceId) = Some cause
  \/ outcome (extractTextFromDocument E (file_path file))
       (h ++ [mkEvent (DbFindUnique dataSourceId) true])%list
     = Thrown cause
  \/ exists text evs0,
       outcome (extractTextFromDocument E (file_path file))
         (h ++ [mkEvent (DbFindUnique dataSourceId) true])%list
       = Returned text
       /\ evs = (evs0 ++ [mkEvent (DbUpdate dataSourceId text COMPLETED) false])%list
       /\ thrown_by E (h ++ evs0)%list (DbUpdate dataSourceId text COMPLETED)
          = Some cause.

Lemma processFileAsync_cases (h : Trace) :
  (exists text,
      outcome (extractTextFromDocument E (file_path file))
        (h ++ [mkEvent (DbFindUnique dataSourceId) true])%list
      = Returned text
      /\ outcome run h = Returned tt
      /\ status_writes (events run h) = [(dataSourceId, text, COMPLETED)]
      /\ extraction_calls (events run h) <= 1)
  \/ (exists cause error evs ok,
         outcome run h = Thrown error
         /\ events run h
            = (evs ++ [mkEvent (DbUpdate dataSourceId
                                  ("Error processing: " ++ err_message cause) ERROR)
                         ok])%list
         /\ status_writes evs = []
         /\ extraction_calls evs <= 1
         /\ failed_step h cause evs
         /\ (if ok then error = cause
             else thrown_by E (h ++ evs)%list
                    (DbUpdate dataSourceId
                       ("Error processing: " ++ err_message cause) ERROR)
                  = Some error)).
Proof.
  destruct (processFileAsync_try_block h) as [Hb | [Hb | Hb]];
    cbv zeta in Hb.
  all: unfold outcome, events; rewrite processFileAsync_blocks; unfold try_catch.
  - destruct Hb as (e & Hthrown & ->).
    destruct (processFileAsync_catch_block e
                (h ++ [mkEvent (DbFindUnique dataSourceId) false])%list)
      as (ok & error & Hcatch & Hok).
    cbv zeta in Hcatch, Hok. rewrite Hcatch. cbn [fst snd].
    right. exists e, error, [mkEvent (DbFindUnique dataSourceId) false], ok.
    repeat split; try reflexivity; try assumption.
    + unfold extraction_calls. cbn. lia.
    + left. exact Hthrown.
  - destruct Hb as (evs_x & e & Hx & ->).
    destruct (extraction_facts (h ++ [mkEvent (DbFindUnique dataSourceId) true])%list)
      as (Hx1 & Hx2 & _).
    unfold events in Hx1, Hx2. rewrite Hx in Hx1, Hx2. cbn [fst] in Hx1, Hx2.
    destruct (processFileAsync_catch_block e
                (h ++ mkEvent (DbFindUnique dataSourceId) true :: evs_x)%list)
      as (ok & error & Hcatch & Hok).
    cbv zeta in Hcatch, Hok. rewrite Hcatch. cbn [fst snd].
    right. exists e, error, (mkEvent (DbFindUnique dataSourceId) true :: evs_x), ok.
    repeat split; try reflexivity; try assumption.
    right. left. unfold outcome. rewrite Hx. reflexivity.
  - destruct Hb as (evs_x & text & evs_i & Hx & Hi1 & Hi2 & Hw).
    destruct (extraction_facts (h ++ [mkEvent (DbFindUnique dataSourceId) true])%list)
      as (Hx1 & Hx2 & _).
    unfold events in Hx1, Hx2. rewrite Hx in Hx1, Hx2. cbn [fst] in Hx1, Hx2.
    assert (Hw0 : status_writes
                    (mkEvent (DbFindUnique dataSourceId) true :: evs_x ++ evs_i)%list
                  = []).
    { change (status_writes (?ev :: ?l)) with (status_writes l).
      rewrite status_writes_app, Hx1, Hi1. reflexivity. }
    assert (Hc0 : extraction_calls
                    (mkEvent (DbFindUnique dataSourceId) true :: evs_x ++ evs_i)%list
                  <= 1).
    { change (extraction_calls (?ev :: ?l)) with (extraction_calls l).
      rewrite extraction_calls_app. lia. }
    destruct Hw as [(e & Hthrown & ->) | ->].
    + destruct (processFileAsync_catch_block e
                  (h ++ (mkEvent (DbFindUnique dataSourceId) true
                           :: evs_x ++ evs_i
                           ++ [mkEvent (DbUpdate dataSourceId text COMPLETED) false]))%list)
        as (ok & error & Hcatch & Hok).
      cbv zeta in Hcatch, Hok. rewrite Hcatch. cbn [fst snd].
      right.
      exists e, error,
        (mkEvent (DbFindUnique dataSourceId) true
           :: evs_x ++ evs_i
           ++ [mkEvent (DbUpdate dataSourceId text COMPLETED) false])%list, ok.
      split; [ reflexivity | split; [ reflexivity | ] ].
      assert (Hshape :
                (mkEvent (DbFindUnique dataSourceId) true
                   :: evs_x ++ evs_i
                   ++ [mkEvent (DbUpdate dataSourceId text COMPLETED) false])%list
                = ((mkEvent (DbFindUnique dataSourceId) true :: evs_x ++ evs_i)
                     ++ [mkEvent (DbUpdate dataSourceId text COMPLETED) false])%list).
      { cbn [app]. rewrite <- app_assoc. reflexivity. }
      split; [ | split; [ | split; [ | exact Hok ] ] ].
      * rewrite Hshape, status_writes_app, Hw0. reflexivity.
      * rewrite Hshape, extraction_calls_app.
        change (extraction_calls [_]) with 0. lia.
      * right. right.
        exists text, (mkEvent (DbFindUnique dataSourceId) true :: evs_x ++ evs_i)%list.
        split; [ unfold outcome; rewrite Hx; reflexivity | ].
        split; [ exact Hshape | exact Hthrown ].
    + left. exists text. cbn [fst snd].
      split; [ unfold outcome; rewrite Hx; reflexivity | ].
      split; [ reflexivity | ].
      assert (Hshape :
                (mkEvent (DbFindUnique dataSourceId) true
                   :: evs_x ++ evs_i
                   ++ [mkEvent (DbUpdate dataSourceId text COMPLETED) true])%list
                = ((mkEvent (DbFindUnique dataSourceId) true :: evs_x ++ evs_i)
                     ++ [mkEvent (DbUpdate dataSourceId text COMPLETED) true])%list).
      { cbn [app]. rewrite <- app_assoc. reflexivity. }
      rewrite Hshape, status_writes_app, extraction_calls_app, Hw0.
      split; [ reflexivity | ].
      change (extraction_calls [_]) with 0. lia.
Qed.

(** C7 (as the code has it).  A run makes at most one successful status
    write and extracts the text at most once.  When it returns, it has
    persisted the text that this run extracted, with status COMPLETED; it
    does so whenever the lookup, the extraction and the write succeed,
    because the failures of embeddings and inserts stay inside
    [insertEmbeddings].  When it throws, the lookup, the extraction or the
    COMPLETED write of this run has thrown an error, and the last call of
    the run is one attempt to write "Error processing: " and the message of
    that error with status ERROR: the write is persisted and the error
    thrown on, unless the write throws itself, which leaves no status
    written.  No run writes both statuses. *)
Theorem processFileAsync_single_status_write (h : Trace) :
  List.length (status_writes (events run h)) <= 1
  /\ extraction_calls (events run h) <= 1
  /\ (outcome run h = Returned tt ->
      exists text,
        outcome (extractTextFromDocument E (file_path file))
          (h ++ [mkEvent (DbFindUnique dataSourceId) true])%list
        = Returned text
        /\ status_writes (events run h) = [(dataSourceId, text, COMPLETED)])
  /\ (forall error,
         outcome run h = Thrown error ->
         exists cause evs ok,
           events run h
           = (evs ++ [mkEvent (DbUpdate dataSourceId
                                 ("Error processing: " ++ err_message cause) ERROR)
                        ok])%list
           /\ status_writes evs = []
           /\ (thrown_by E h (DbFindUnique dataSourceId) = Some cause
               \/ outcome (extractTextFromDocument E (file_path file))
                    (h ++ [mkEvent (DbFindUnique dataSourceId) true])%list
                  = Thrown cause
               \/ exists text evs0,
                    outcome (extractTextFromDocument E (file_path file))
                      (h ++ [mkEvent (DbFindUnique dataSourceId) true])%list
                    = Returned text
                    /\ evs = (evs0 ++ [mkEvent (DbUpdate dataSourceId text COMPLETED)
                                         false])%list
                    /\ thrown_by E (h ++ evs0)%list
                         (DbUpdate dataSourceId text COMPLETED)
                       = Some cause)
           /\ (if ok
               then error = cause
                    /\ status_writes (events run h)
                       = [(dataSourceId,
                           "Error processing: " ++ err_message cause, ERROR)]
               else thrown_by E (h ++ evs)%list
                      (DbUpdate dataSourceId
                         ("Error processing: " ++ err_message cause) ERROR)
                    = Some error
                    /\ status_writes (events run h) = []))
  /\ outcome run h <> OutOfFuel
  /\ ~ (exists content content',
           In (dataSourceId, content, COMPLETED) (status_writes (events run h))
           /\ In (dataSourceId, content', ERROR) (status_writes (events run h)))
  /\ (forall text,
         (forall h', exists dataSource,
             db_dataSource_findUnique E h' dataSourceId = inr dataSource) ->
         (forall h',
             outcome (extractTextFromDocument E (file_path file)) h'
             = Returned text) ->
         (forall h' content status,
             db_dataSource_update E h' dataSourceId content status = inr tt) ->
         outcome run h = Returned tt
         /\ status_writes (events run h) = [(dataSourceId, text, COMPLETED)]).
Proof.
  assert (Hlast :
            forall text,
              (forall h', exists dataSource,
                  db_dataSource_findUnique E h' dataSourceId = inr dataSource) ->
              (forall h',
                  outcome (extractTextFromDocument E (file_path file)) h'
                  = Returned text) ->
              (forall h' content status,
                  db_dataSource_update E h' dataSourceId content status = inr tt) ->
              outcome run h = Returned tt
              /\ status_writes (events run h) = [(dataSourceId, text, COMPLETED)]).
  { intros text Hfind Hextract Hupdate.
    destruct (@processFileAsync_run E file dataSourceId userId text
                Hfind Hextract Hupdate h)
      as (dataSource & evs_x & evs_i & Hlookup & Hrun & Hx & Hi).
    subst run. unfold outcome, events. rewrite Hrun. cbn [fst snd].
    split; [ reflexivity | ].
    destruct (extraction_calls_only Hx) as (Hx1 & _ & _).
    assert (Hi1 : status_writes evs_i = []).
    { subst evs_i. apply embedding_calls_only. apply insertEmbeddings_returns. }
    unfold status_writes in *. rewrite !flat_map_app. cbn.
    rewrite Hx1, Hi1. reflexivity. }
  refine ((fun H6 => conj (proj1 H6) (conj (proj1 (proj2 H6))
            (conj (proj1 (proj2 (proj2 H6)))
               (conj (proj1 (proj2 (proj2 (proj2 H6))))
                  (conj (proj1 (proj2 (proj2 (proj2 (proj2 H6)))))
                     (conj (proj2 (proj2 (proj2 (proj2 (proj2 H6))))) Hlast))))))
            _).
  clear Hlast.
  destruct (processFileAsync_cases h)
    as [(text & Htext & Hout & Hw & Hx)
       | (cause & error & evs & ok & Hout & Hev & Hw & Hx & Hstep & Hok)].
  - rewrite Hout, Hw.
    refine (conj _ (conj Hx (conj _ (conj _ (conj _ _)))));
      try discriminate; try (cbn; lia).
    + intros _. exists text. split; [ exact Htext | reflexivity ].
    + intros (c & c' & _ & [H | []]). discriminate.
  - assert (Hwrites :
              status_writes (events run h)
              = if ok
                then [(dataSourceId,
                       "Error processing: " ++ err_message cause, ERROR)]
                else []).
    { rewrite Hev, status_writes_app, Hw. destruct ok; reflexivity. }
    assert (Hcalls : extraction_calls (events run h) <= 1).
    { rewrite Hev, extraction_calls_app.
      change (extraction_calls [_]) with 0. lia. }
    rewrite Hout.
    refine (conj _ (conj Hcalls (conj _ (conj _ (conj _ _)))));
      try discriminate.
    + rewrite Hwrites. destruct ok; cbn; lia.
    + intros e He. injection He as <-.
      exists cause, evs, ok.
      split; [ exact Hev | split; [ exact Hw | split; [ exact Hstep | ] ] ].
      rewrite Hwrites. destruct ok; split; try assumption; reflexivity.
    + rewrite Hwrites.
      intros (c & c' & Hc & Hc'). destruct ok; cbn in Hc, Hc';
        [ destruct Hc as [Hc | []]; discriminate | contradiction ].
Qed.

End Status.

(** The text extraction fails: the run throws the error of the extraction
    after it has written the failure reason with status ERROR. *)
Lemma processFileAsync_single_status_write_witness :
  exists cause evs ok,
    events (processFileAsync (scripted extraction_fails_script) upload "d1" "u1") []
    = (evs ++ [mkEvent (DbUpdate "d1" ("Error processing: " ++ err_message cause)
                          ERROR) ok])%list
    /\ status_writes evs = []
    /\ (thrown_by (scripted extraction_fails_script) [] (DbFindUnique "d1")
        = Some cause
        \/ outcome (extractTextFromDocument (scripted extraction_fails_script)
                      (file_path upload))
             ([] ++ [mkEvent (DbFindUnique "d1") true])%list
           = Thrown cause
        \/ exists text evs0,
             outcome (extractTextFromDocument (scripted extraction_fails_script)
                        (file_path upload))
               ([] ++ [mkEvent (DbFindUnique "d1") true])%list
             = Returned text
             /\ evs = (evs0 ++ [mkEvent (DbUpdate "d1" text COMPLETED) false])%list
             /\ thrown_by (scripted extraction_fails_script) ([] ++ evs0)%list
                  (DbUpdate "d1" text COMPLETED)
                = Some cause)
    /\ (if ok
        then newError
               "[GeminiService] Failed to extract text from document: 503 model overloaded"
             = cause
             /\ status_writes
                  (events (processFileAsync (scripted extraction_fails_script)
                             upload "d1" "u1") [])
                = [("d1", "Error processing: " ++ err_message cause, ERROR)]
        else thrown_by (scripted extraction_fails_script) ([] ++ evs)%list
               (DbUpdate "d1" ("Error processing: " ++ err_message cause) ERROR)
             = Some (newError
                       "[GeminiService] Failed to extract text from document: 503 model overloaded")
             /\ status_writes
                  (events (processFileAsync (scripted extraction_fails_script)
                             upload "d1" "u1") [])
                = []).
Proof.
  apply (proj1 (proj2 (proj2 (proj2
           (@processFileAsync_single_status_write
              (scripted extraction_fails_script) upload "d1" "u1" []))))).
  reflexivity.
Defined.

(** The same run, written out. *)
Example ingest_with_failed_extraction :
  events (processFileAsync (scripted extraction_fails_script) upload "d1" "u1") []
  = [ mkEvent (DbFindUnique "d1") true;
      mkEvent (FsReadFile "uploads/notes.pdf") true;
      mkEvent (GenerateContent MODEL_NAME
                 [TextPart
                    "Your task is to read the data from the given file, extract all the informations and write it in a structured format, if there any images";
                  InlineData "%PDF" "application/pdf";
                  TextPart "output"]
                 (mkGenerationConfig 8192 1%float topP_095)) false;
      mkEvent (DbUpdate "d1"
                 "Error processing: [GeminiService] Failed to extract text from document: 503 model overloaded"
                 ERROR) true ]
  /\ outcome (processFileAsync (scripted extraction_fails_script) upload "d1" "u1") []
     = Thrown (newError
                 "[GeminiService] Failed to extract text from document: 503 model overloaded").
Proof. split; reflexivity. Qed.

(** C7 as the specification states it does not hold: every insert into the
    index throws, and the run still ends with the extracted text as content
    and status COMPLETED. *)
Lemma processFileAsync_completed_after_failed_insert :
  insert_failed
    (events (processFileAsync (scripted insert_fails_script) upload "d1" "u1") [])
  = true
  /\ outcome (processFileAsync (scripted insert_fails_script) upload "d1" "u1") []
     = Returned tt
  /\ status_writes
       (events (processFileAsync (scripted insert_fails_script) upload "d1" "u1") [])
     = [("d1", "Paragraph one.", COMPLETED)].
Proof. repeat split; reflexivity. Qed.

(** ** Empty documents *)

Section EmptyText.

Variable E : Env.
Variable file : UploadedFile.
Variables dataSourceId userId : string.

Hypothesis model_ready : gemini_model_ready E = true.
Hypothesis file_readable :
  forall h path, exists content, fs_readFile E h path = inr content.
Hypothesis nothing_extracted :
  forall h model parts config, exists candidate rest,
    model_generateContent E h model parts config
    = inr (Some (candidate :: rest))
    /\ empty_candidate candidate.
Hypothesis no_chunk : chunks_of E EmptyString = [].
Hypothesis lookup_ok :
  forall h, exists dataSource,
    db_dataSource_findUnique E h dataSourceId = inr dataSource.
Hypothesis update_ok :
  forall h content status,
    db_dataSource_update E h dataSourceId content status = inr tt.

Lemma extractTextFromDocument_empty (h : Trace) :
  outcome (extractTextFromDocument E (file_path file)) h = Returned EmptyString.
Proof.
  unfold extractTextFromDocument, fileToGenerativePart, first_part_text.
  unfold outcome, try_catch, bind, call, ret, throw.
  rewrite model_ready. cbn [negb].
  destruct (file_readable h (file_path file)) as [content ->]. cbn.
  match goal with
  | |- context [model_generateContent E ?h' ?m ?p ?c] =>
      destruct (nothing_extracted h' m p c)
        as (candidate & rest & -> & [Hnone | (parts & Hparts)])
  end; cbn.
  - rewrite Hnone. reflexivity.
  - rewrite Hparts. reflexivity.
Qed.

(** C8 (as the code has it).  When the model yields no text, the extraction
    returns the empty text (it only logs a warning), and, the splitter
    making no chunk of the empty text, the run requests no embedding,
    inserts nothing, persists the empty text and ends with status
    COMPLETED. *)
Theorem processFileAsync_completes_on_empty_text (h : Trace) :
  (forall h',
      outcome (extractTextFromDocument E (file_path file)) h'
      = Returned EmptyString)
  /\ outcome (processFileAsync E file dataSourceId userId) h = Returned tt
  /\ status_writes (events (processFileAsync E file dataSourceId userId) h)
     = [(dataSourceId, EmptyString, COMPLETED)]
  /\ inserted_rows (events (processFileAsync E file dataSourceId userId) h) = []
  /\ predict_calls (events (processFileAsync E file dataSourceId userId) h) = [].
Proof.
  split; [ exact extractTextFromDocument_empty | ].
  destruct (@processFileAsync_run E file dataSourceId userId EmptyString
              lookup_ok extractTextFromDocument_empty update_ok h)
    as (dataSource & evs_x & evs_i & Hlookup & Hrun & Hx & Hi).
  rewrite no_chunk in Hi. cbn in Hi. subst evs_i.
  unfold outcome, events. rewrite Hrun. cbn [fst snd].
  destruct (extraction_calls_only Hx) as (Hx1 & Hx2 & Hx3).
  split; [ reflexivity | ].
  unfold status_writes, inserted_rows, predict_calls in *.
  rewrite !flat_map_app. cbn. rewrite Hx1, Hx2, Hx3.
  repeat split; reflexivity.
Qed.

End EmptyText.

Lemma processFileAsync_completes_on_empty_text_witness :
  outcome (processFileAsync (scripted empty_extraction_script) upload "d1" "u1") []
  = Returned tt
  /\ status_writes
       (events (processFileAsync (scripted empty_extraction_script)
                  upload "d1" "u1") [])
     = [("d1", EmptyString, COMPLETED)].
Proof.
  pose proof (@processFileAsync_completes_on_empty_text
                (scripted empty_extraction_script) upload "d1" "u1"
                eq_refl
                (fun _ _ => ex_intro _ "%PDF" eq_refl)
                (fun _ _ _ _ =>
                   ex_intro _ (mkCandidate None)
                     (ex_intro _ [] (conj eq_refl (or_introl eq_refl))))
                eq_refl
                (fun _ => ex_intro _ (Some None) eq_refl)
                (fun _ _ _ => eq_refl) []) as H.
  exact (conj (proj1 (proj2 H)) (proj1 (proj2 (proj2 H)))).
Defined.

(** C8 as the specification states it does not hold: the extracted text is
    empty, no chunk is made of it, and the document ends with status
    COMPLETED. *)
Lemma processFileAsync_empty_text_is_completed :
  outcome (extractTextFromDocument (scripted empty_extraction_script)
             (file_path upload)) []
  = Returned EmptyString
  /\ chunks_of (scripted empty_extraction_script) EmptyString = []
  /\ outcome (processFileAsync (scripted empty_extraction_script)
                upload "d1" "u1") []
     = Returned tt
  /\ status_writes
       (events (processFileAsync (scripted empty_extraction_script)
                  upload "d1" "u1") [])
     = [("d1", EmptyString, COMPLETED)].
Proof. repeat split; reflexivity. Qed.

(** ** The handler and the fallback *)

Lemma bound_bind_post {A B : Type} (n1 n2 : nat) (R : A -> Prop)
    (m : M A) (k : A -> M B) :
  satisfies (fun _ => True) (post True R) m ->
  first_try_bound n1 m ->
  (forall a, R a -> first_try_bound n2 (k a)) ->
  first_try_bound (n1 + n2) (bind m k).
Proof.
  intros HR Hm Hk h. rewrite events_bind, first_tries_app, length_app.
  specialize (Hm h). destruct (HR h) as [_ Hout].
  destruct (outcome m h) as [a | e | ]; cbn [first_tries flat_map List.length];
    [ specialize (Hk a Hout (h ++ events m h)%list) | | ]; lia.
Qed.

(** [answerUserQuery] hands [searchMilvus] either the document identifiers
    or the subject, never both: a query through the handler makes at most
    one first try, so the subject fallback of [searchMilvus] is not reached
    from it. *)
Lemma answerUserQuery_never_falls_back (E : Env) (req : QueryRequest) :
  first_try_bound 1 (answerUserQuery E req).
Proof.
  unfold answerUserQuery. cbv zeta.
  apply bound_weaken with (n := 1 + 0); [ | lia ].
  apply bound_try; [ | intros e; apply bound_ret ].
  destruct (body_query req) as [query |];
    [ | eapply bound_weaken; [ apply bound_ret | lia ] ].
  destruct (negb (truthy query));
    [ eapply bound_weaken; [ apply bound_ret | lia ] | ].
  destruct (negb (query_model_ready E));
    [ eapply bound_weaken; [ apply bound_ret | lia ] | ].
  apply bound_weaken with (n := (0 + (1 + 0)) + 0); [ | lia ].
  apply bound_try; [ | intros e; apply bound_ret ].
  apply bound_bind_post with (R := fun so => fallback_depth so = 1).
  - destruct (truthy_opt (body_subjectId req)); [ | apply run_ret; reflexivity ].
    apply run_bind with (R1 := any);
      [ apply run_call; [ intros; exact I | intros; exact I ] | ].
    intros ids _. destruct (Nat.ltb 0 (List.length ids)); apply run_ret.
    + unfold fallback_depth. cbn. now rewrite andb_false_r.
    + reflexivity.
  - apply bound_zero with (Q := post False any).
    repeat run_step; exact I.
  - intros searchOptions Hdepth.
    apply bound_bind.
    + rewrite <- Hdepth. apply searchMilvus_rec_bound.
    + intros contextChunks.
      apply bound_zero with (Q := post False any).
      unfold first_part_text. repeat run_step; exact I.
Qed.

(** A run of [searchMilvus] to which the fallback does not apply, in an
    environment where the collection is listed and loads, the question
    embeds, and the search under the filter of the invocation finds
    nothing: four calls, the last being the one search, and the empty
    list. *)
Lemma searchMilvus_single_search (E : Env) (queryText userId : string)
    (options : SearchOptions) (h : Trace) :
  has_ids (dataSourceIds options) && truthy_opt (subjectId options) = false ->
  (forall h', exists collections,
      client_showCollections E h' = inr collections
      /\ has_collection collections = true) ->
  (forall h', client_loadCollection E h' COLLECTION_NAME = inr tt) ->
  (forall h' endpoint, exists v vs,
      predictionClient_predict E h' endpoint (instances_of queryText)
      = inr (v :: vs)) ->
  (forall h' req,
      sr_filter req
      = search_filter userId (subjectId options) (dataSourceIds options) ->
      exists r, client_search E h' req = inr r /\ no_results r = true) ->
  exists evs req,
    searchMilvus E queryText userId options h
    = ((evs ++ [mkEvent (MilvusSearch FirstTry req) true])%list, Returned [])
    /\ search_requests evs = []
    /\ sr_filter req
       = search_filter userId (subjectId options) (dataSourceIds options).
Proof.
  intros Hfb Hlisted Hloads Hembeds Hnothing.
  unfold searchMilvus. cbn [searchMilvus_rec].
  unfold showCollections, loadCollection, search, getEmbeddings.
  unfold try_catch, bind, call, ret.
  cbv zeta.
  destruct (Hlisted h) as (cs & -> & ->). cbn.
  rewrite Hloads. cbn.
  match goal with
  | |- context [predictionClient_predict E ?h' ?ep _] =>
      destruct (Hembeds h' ep) as (v & vs & Hv)
  end.
  unfold instances_of in Hv. rewrite Hv. cbn.
  match goal with
  | |- context [client_search E ?h' ?req] =>
      destruct (Hnothing h' req eq_refl) as (r & -> & ->)
  end.
  cbn. rewrite Hfb. cbn.
  eexists [_; _; _], _. split; [ reflexivity | split; reflexivity ].
Qed.

Section QueryWithDocuments.

Variable E : Env.
Variable req : QueryRequest.
Variable query : string.
Variable ids : list string.

Hypothesis has_query : body_query req = Some query.
Hypothesis query_given : truthy query = true.
Hypothesis model_ready : query_model_ready E = true.
Hypothesis subject_given : truthy_opt (body_subjectId req) = true.
Hypothesis documents_found : has_ids (Some ids) = true.
Hypothesis collection_listed :
  forall h, exists collections,
    client_showCollections E h = inr collections
    /\ has_collection collections = true.
Hypothesis collection_loads :
  forall h, client_loadCollection E h COLLECTION_NAME = inr tt.
Hypothesis question_embeds :
  forall h endpoint, exists v vs,
    predictionClient_predict E h endpoint (instances_of query) = inr (v :: vs).
Hypothesis nothing_under_ids :
  forall h rq,
    sr_filter rq = search_filter (req_userId req) None (Some ids) ->
    exists r, client_search E h rq = inr r /\ no_results r = true.

Lemma answerUserQuery_one_search (h : Trace) :
  db_dataSource_findMany E h (req_userId req)
    (or_else (body_subjectId req) EmptyString) = inr ids ->
  (exists rq,
      search_requests (events (answerUserQuery E req) h) = [(FirstTry, rq)]
      /\ sr_filter rq = search_filter (req_userId req) None (Some ids))
  /\ outcome (answerUserQuery E req) h
     = Returned (mkHttpResponse 200
                   (AnswerBody true no_context_answer query 0%float
                      (or_null (body_subjectId req)))).
Proof.
  intros Hfind.
  destruct (@searchMilvus_single_search E query (req_userId req)
              (mkSearchOptions (Some 3) None (Some ids))
              (h ++ [mkEvent (DbFindMany (req_userId req)
                                (or_else (body_subjectId req) EmptyString)) true])%list)
    as (evs & rq & Hrun & Hnone & Hfilter);
    try assumption.
  { cbn. apply andb_false_r. }
  assert (Hids : Nat.ltb 0 (List.length ids) = true).
  { destruct ids; [ discriminate documents_found | reflexivity ]. }
  unfold answerUserQuery, events, outcome. cbv zeta.
  rewrite has_query, query_given, model_ready, subject_given. cbn [negb].
  unfold try_catch, bind, call, ret. rewrite Hfind, Hids.
  cbn [topK subjectId dataSourceIds fst snd app]. rewrite Hrun.
  cbn [fst snd app List.length Nat.eqb].
  split; [ | reflexivity ].
  exists rq. split; [ | exact Hfilter ].
  rewrite app_nil_r.
  change (search_requests (?ev :: ?l)) with (search_requests l).
  unfold search_requests in *. rewrite flat_map_app, Hnone. reflexivity.
Qed.

(** C4 (as the code has it).  A query with a subject under which the
    tenant has documents searches under the document-identifier filter;
    when that search finds nothing, the query sends no other search and is
    answered as without context: [answerUserQuery] hands [searchMilvus] the
    document identifiers without the subject, so the subject fallback is
    not reached.  The fallback is a property of [searchMilvus] called with
    both: in the same environment such a call makes exactly one nested
    invocation, which searches under the subject-only filter.  Whatever the
    environment, a query makes at most one first try, and a call of
    [searchMilvus] makes at most two and returns. *)
Theorem answerUserQuery_never_reaches_the_fallback (h : Trace) :
  db_dataSource_findMany E h (req_userId req)
    (or_else (body_subjectId req) EmptyString) = inr ids ->
  (exists rq,
      search_requests (events (answerUserQuery E req) h) = [(FirstTry, rq)]
      /\ sr_filter rq = search_filter (req_userId req) None (Some ids))
  /\ outcome (answerUserQuery E req) h
     = Returned (mkHttpResponse 200
                   (AnswerBody true no_context_answer query 0%float
                      (or_null (body_subjectId req))))
  /\ (forall h', exists req1 req2,
         first_tries
           (events (searchMilvus E query (req_userId req)
                      (mkSearchOptions (Some 3) (body_subjectId req) (Some ids)))
              h')
         = [req1; req2]
         /\ sr_filter req1
            = search_filter (req_userId req) (body_subjectId req) (Some ids)
         /\ sr_filter req2
            = search_filter (req_userId req) (body_subjectId req) None)
  /\ (forall E' req' h',
         List.length (first_tries (events (answerUserQuery E' req') h')) <= 1)
  /\ (forall E' queryText' userId' options' h',
         List.length
           (first_tries (events (searchMilvus E' queryText' userId' options') h'))
         <= 2
         /\ exists hits,
              outcome (searchMilvus E' queryText' userId' options') h'
              = Returned hits).
Proof.
  intros Hfind.
  destruct (answerUserQuery_one_search h Hfind) as [Hone Hout].
  split; [ exact Hone | split; [ exact Hout | ] ].
  split; [ | split ].
  - intros h'.
    apply (@searchMilvus_fallback_tries E query (req_userId req)
             (mkSearchOptions (Some 3) (body_subjectId req) (Some ids)));
      try assumption.
    intros h0 rq Hrq. apply nothing_under_ids. rewrite Hrq. cbn.
    destruct ids; [ discriminate documents_found | reflexivity ].
  - intros E' req' h'. apply answerUserQuery_never_falls_back.
  - intros E' queryText' userId' options' h'. split.
    + pose proof (searchMilvus_rec_bound E' queryText' userId' 2 options' h') as H.
      unfold searchMilvus. unfold fallback_depth in H.
      destruct (has_ids (dataSourceIds options') && truthy_opt (subjectId options'));
        lia.
    + apply searchMilvus_returns.
Qed.

End QueryWithDocuments.

Lemma answerUserQuery_never_reaches_the_fallback_witness :
  (exists rq,
      search_requests
        (events (answerUserQuery (scripted subject_chunks_script)
                   (mkQueryRequest "u1" (Some "What is a cell?") (Some "s1"))) [])
      = [(FirstTry, rq)]
      /\ sr_filter rq = search_filter "u1" None (Some ["d1"; "d2"]))
  /\ outcome (answerUserQuery (scripted subject_chunks_script)
                (mkQueryRequest "u1" (Some "What is a cell?") (Some "s1"))) []
     = Returned (mkHttpResponse 200
                   (AnswerBody true no_context_answer "What is a cell?" 0%float
                      (Some "s1"))).
Proof.
  pose proof (@answerUserQuery_never_reaches_the_fallback
                (scripted subject_chunks_script)
                (mkQueryRequest "u1" (Some "What is a cell?") (Some "s1"))
                "What is a cell?" ["d1"; "d2"]
                eq_refl eq_refl eq_refl eq_refl eq_refl) as H.
  refine ((fun H' => conj (proj1 H') (proj1 (proj2 H'))) (H _ _ _ _ [] eq_refl)).
  - intros h'. exists [COLLECTION_NAME]. split; reflexivity.
  - intros h'. reflexivity.
  - intros h' endpoint. do 2 eexists. reflexivity.
  - intros h' rq Hrq. eexists. split; [ reflexivity | ].
    cbn [subject_chunks_script sc_search]. unfold search_rows. cbn in Hrq.
    rewrite Hrq.
    change (List.filter _ [foreign_chunk; subject_chunk]) with (@nil Row).
    destruct (sr_limit rq); reflexivity.
Defined.

(** C4 as the specification states it does not hold: the subject has two
    documents, no chunk carries their identifiers, a chunk of the tenant
    carries the subject, and the query makes the one search under the
    document identifiers and is answered as without context. *)
Lemma answerUserQuery_does_not_retry_with_the_subject :
  sc_documents subject_chunks_script "u1" "s1" = ["d1"; "d2"]
  /\ List.filter (selects (search_filter "u1" None (Some ["d1"; "d2"])))
       [foreign_chunk; subject_chunk]
     = []
  /\ List.filter (selects (search_filter "u1" (Some "s1") None))
       [foreign_chunk; subject_chunk]
     = [subject_chunk]
  /\ map (fun sr => (fst sr, sr_filter (snd sr)))
       (search_requests
          (events (answerUserQuery (scripted subject_chunks_script)
                     (mkQueryRequest "u1" (Some "What is a cell?") (Some "s1")))
             []))
     = [(FirstTry, search_filter "u1" None (Some ["d1"; "d2"]))]
  /\ outcome (answerUserQuery (scripted subject_chunks_script)
                (mkQueryRequest "u1" (Some "What is a cell?") (Some "s1"))) []
     = Returned (mkHttpResponse 200
                   (AnswerBody true no_context_answer "What is a cell?" 0%float
                      (Some "s1"))).
Proof. repeat split; reflexivity. Qed.

(** ** Examples *)

(** A run that makes the three kinds of search: the first try under the
    document identifiers finds nothing, the first try of the fallback meets
    a missing index, and the second try after the rebuild finds the chunk
    that carries the subject. *)
Example searchMilvus_three_searches :
  map (fun sr => (fst sr, sr_filter (snd sr)))
    (search_requests
       (events (searchMilvus legacy_env "What is a cell?" "u1"
                  (mkSearchOptions (Some 3) (Some "s1") (Some ["d1"]))) []))
  = [ (FirstTry, search_filter "u1" (Some "s1") (Some ["d1"]));
      (FirstTry, search_filter "u1" (Some "s1") None);
      (AfterIndexRebuild, search_filter "u1" (Some "s1") None) ]
  /\ outcome (searchMilvus legacy_env "What is a cell?" "u1"
                (mkSearchOptions (Some 3) (Some "s1") (Some ["d1"]))) []
     = Returned [mkHit "Cells are the unit of life." 0.5%float
                   (mkChunkMetadata 0 (Some "s1") EmptyString)].
Proof. split; reflexivity. Qed.

(** The filter strings, character by character. *)
Example search_filter_texts :
  search_filter "u1" None None
  = "user_id == " ++ dquote ++ "u1" ++ dquote
  /\ search_filter "u1" (Some "s1") None
     = "user_id == " ++ dquote ++ "u1" ++ dquote
       ++ " && subject_id == " ++ dquote ++ "s1" ++ dquote
  /\ search_filter "u1" (Some "s1") (Some ["d1"; "d2"])
     = "user_id == " ++ dquote ++ "u1" ++ dquote
       ++ " && (data_source_id == " ++ dquote ++ "d1" ++ dquote
       ++ " || data_source_id == " ++ dquote ++ "d2" ++ dquote ++ ")".
Proof. repeat split; reflexivity. Qed.

Example split_examples :
  split ";"%char "a;b;;c" = ["a"; "b"; EmptyString; "c"]
  /\ split ";"%char EmptyString = [EmptyString]
  /\ split ";"%char "no semicolon" = ["no semicolon"].
Proof. repeat split; reflexivity. Qed.

(** A search before the collection exists: one listing, and the empty
    list. *)
Example search_without_collection :
  searchMilvus (scripted empty_store_script) "What is photosynthesis?" "u1"
    (mkSearchOptions (Some 3) None None) []
  = ([mkEvent MilvusShowCollections true], Returned []).
Proof. reflexivity. Qed.

(** Scenario A of the specification: one short text, one chunk, one
    embedding call, one insert, status COMPLETED. *)
Example ingest_one_paragraph :
  let evs := events (processFileAsync (scripted quiet_script) upload "d1" "u1") [] in
  List.length (predict_calls evs) = 1
  /\ map row_text (inserted_rows evs) = ["Paragraph one."]
  /\ map row_user_id (inserted_rows evs) = ["u1"]
  /\ status_writes evs = [("d1", "Paragraph one.", COMPLETED)].
Proof. repeat split; reflexivity. Qed.

(** A query that finds one chunk is answered by the model, with the score
    of the first chunk. *)
Example answer_with_context :
  outcome (answerUserQuery (scripted two_documents_script)
             (mkQueryRequest "u1" (Some "What is a cell?") (Some "s1"))) []
  = Returned (mkHttpResponse 200
                (AnswerBody true "A cell is the unit of life."
                   "What is a cell?" 0.5%float (Some "s1"))).
Proof. reflexivity. Qed.

(** Requests that the handler refuses. *)
Example answer_without_query :
  outcome (answerUserQuery (scripted quiet_script)
             (mkQueryRequest "u1" (Some EmptyString) None)) []
  = Returned (mkHttpResponse 400
                (MessageBody false "Query is required and must be a string" None)).
Proof. reflexivity. Qed.

(** * Part III: further properties of the services *)

(** ** Filters written and read *)

(** X1.  The filter that [searchMilvus] writes, read back by the store,
    selects exactly the rows of the tenant that lie in the scope of the
    options: among the document identifiers when some are given, else under
    the subject when one is given, else any row of the tenant (identifiers
    without quote and backslash). *)
Theorem search_filter_selects_its_scope (userId : string)
    (subject : option string) (ids : option (list string)) (r : Row) :
  plain userId = true -> plain_opt subject = true -> plain_ids ids = true ->
  selects (search_filter userId subject ids) r = true
  <-> row_user_id r = userId
      /\ match ids with
         | Some (id :: rest) => In (row_data_source_id r) (id :: rest)
         | _ =>
             match subject with
             | Some s => truthy s = true -> row_subject_id r = s
             | None => True
             end
         end.
Proof.
  intros Hu Hs Hids.
  rewrite selects_search_filter by assumption.
  unfold filter_expr.
  destruct ids as [[| id rest] |];
    try (destruct subject as [s |]; [ destruct (truthy s) | ]);
    cbn [eval field_of];
    rewrite ?andb_true_iff, ?String.eqb_eq;
    try (split; [ intros H; split; [ apply H | ]; try (intros _; apply H);
                  try discriminate; exact I
                | intros [H1 H2]; try split; auto ]).
  all: rewrite existsb_exists; split.
  all: try (intros [H1 (x & Hx & Heq)]; apply String.eqb_eq in Heq; subst x;
            split; assumption).
  all: intros [H1 H2]; split; [ exact H1 | ];
    exists (row_data_source_id r); split; [ exact H2 | apply String.eqb_refl ].
Qed.

Lemma search_filter_selects_its_scope_witness :
  selects (search_filter "u1" (Some "s1") (Some ["d1"; "d2"])) 
    (mkRow "Cells." [] (mkChunkMetadata 0 (Some "s1") "d2") "u1" "s1" "d2")
  = true
  <-> "u1" = "u1" /\ In "d2" ["d1"; "d2"].
Proof.
  apply (search_filter_selects_its_scope "u1" (Some "s1") (Some ["d1"; "d2"])
           (mkRow "Cells." [] (mkChunkMetadata 0 (Some "s1") "d2") "u1" "s1" "d2"));
    reflexivity.
Defined.

(** ** Deleting the chunks of a document or of a subject *)

Lemma read_render_eq (f : Field) (value : string) :
  plain value = true ->
  read_filter (render_eq f value) = Some (EEq (field_text f) value).
Proof.
  intros Hv. unfold read_filter, lex.
  rewrite <- (append_empty_r (render_eq f value)).
  rewrite lex_render_eq by exact Hv. reflexivity.
Qed.

Lemma selects_render_eq (f : Field) (value : string) (r : Row) :
  plain value = true ->
  selects (render_eq f value) r = String.eqb (field_of f r) value.
Proof.
  intros Hv. unfold selects. rewrite read_render_eq by exact Hv.
  destruct f; reflexivity.
Qed.

Lemma entities_update_rows (f : list Row -> list Row) (name name' : string) :
  f [] = [] ->
  forall st,
    entities (update_rows st name f) name'
    = if String.eqb name name' then f (entities st name') else entities st name'.
Proof.
  intros Hf. induction st as [| [m rows] st IH]; cbn [update_rows entities].
  - rewrite Hf. destruct (String.eqb name name'); reflexivity.
  - destruct (String.eqb m name) eqn:Hm; cbn [entities].
    + apply String.eqb_eq in Hm. subst m.
      destruct (String.eqb name name'); reflexivity.
    + rewrite IH. destruct (String.eqb m name') eqn:Hm'; [ | reflexivity ].
      apply String.eqb_eq in Hm'. subst m.
      rewrite String.eqb_sym, Hm. reflexivity.
Qed.

(** The two delete functions have one shape: load the collection, then
    delete the entities that a comparison on one field selects; any error
    is caught. *)
Lemma delete_by_field (E : Env) (f : Field) (value : string) (h : Trace)
    (st : Store) (name : string) :
  plain value = true ->
  let filter := render_eq f value in
  let load := MilvusLoadCollection COLLECTION_NAME in
  let delete := MilvusDeleteEntities COLLECTION_NAME filter in
  let run :=
    try_catch
      (bind (loadCollection E COLLECTION_NAME)
         (fun _ => call delete
                     (fun h => client_deleteEntities E h COLLECTION_NAME filter)))
      (fun _ => ret tt) in
  outcome run h = Returned tt
  /\ events run h
     = match thrown_by E h load with
       | Some _ => [mkEvent load false]
       | None =>
           [mkEvent load true;
            mkEvent delete
              match thrown_by E (h ++ [mkEvent load true])%list delete with
              | Some _ => false
              | None => true
              end]
       end
  /\ entities (store_after selects (events run h) st) name
     = match thrown_by E h load,
             thrown_by E (h ++ [mkEvent load true])%list delete with
       | None, None =>
           if String.eqb name COLLECTION_NAME
           then List.filter (fun r => negb (String.eqb (field_of f r) value))
                  (entities st name)
           else entities st name
       | _, _ => entities st name
       end.
Proof.
  intros Hv. cbv zeta.
  unfold outcome, events, try_catch, bind, loadCollection, call, ret.
  cbn [thrown_by].
  destruct (client_loadCollection E h COLLECTION_NAME) as [e | []];
    cbn [error_of fst snd app]; [ repeat split; reflexivity | ].
  destruct (client_deleteEntities E _ COLLECTION_NAME _) as [e | []];
    cbn [error_of fst snd app]; (split; [ reflexivity | split; [ reflexivity | ] ]).
  - reflexivity.
  - unfold store_after. cbn [fold_left store_step ev_ok ev_call negb].
    rewrite entities_update_rows by reflexivity.
    rewrite String.eqb_sym.
    destruct (String.eqb name COLLECTION_NAME); [ | reflexivity ].
    apply filter_ext. intros r. rewrite selects_render_eq by exact Hv.
    reflexivity.
Qed.

(** X2.  [deleteEmbeddingsByDataSource] never throws.  It loads the
    collection and, when the load succeeds, asks once for the deletion of
    the entities whose [data_source_id] is the given identifier; after a
    failed load it asks for nothing.  In a store that reads the filter,
    when both calls succeed the collection loses exactly the rows of that
    document and no other collection changes; when one fails, nothing
    changes (identifier without quote and backslash). *)
Theorem deleteEmbeddingsByDataSource_removes_the_document (E : Env)
    (dataSourceId : string) (h : Trace) (st : Store) (name : string) :
  plain dataSourceId = true ->
  outcome (deleteEmbeddingsByDataSource E dataSourceId) h = Returned tt
  /\ events (deleteEmbeddingsByDataSource E dataSourceId) h
     = match thrown_by E h (MilvusLoadCollection COLLECTION_NAME) with
       | Some _ => [mkEvent (MilvusLoadCollection COLLECTION_NAME) false]
       | None =>
           [mkEvent (MilvusLoadCollection COLLECTION_NAME) true;
            mkEvent (MilvusDeleteEntities COLLECTION_NAME
                       (render_eq F_data_source_id dataSourceId))
              match thrown_by E
                      (h ++ [mkEvent (MilvusLoadCollection COLLECTION_NAME) true])%list
                      (MilvusDeleteEntities COLLECTION_NAME
                         (render_eq F_data_source_id dataSourceId)) with
              | Some _ => false
              | None => true
              end]
       end
  /\ entities
       (store_after selects
          (events (deleteEmbeddingsByDataSource E dataSourceId) h) st) name
     = match thrown_by E h (MilvusLoadCollection COLLECTION_NAME),
             thrown_by E
               (h ++ [mkEvent (MilvusLoadCollection COLLECTION_NAME) true])%list
               (MilvusDeleteEntities COLLECTION_NAME
                  (render_eq F_data_source_id dataSourceId)) with
       | None, None =>
           if String.eqb name COLLECTION_NAME
           then List.filter
                  (fun r => negb (String.eqb (row_data_source_id r) dataSourceId))
                  (entities st name)
           else entities st name
       | _, _ => entities st name
       end.
Proof.
  intros Hplain.
  exact (delete_by_field E F_data_source_id dataSourceId h st name Hplain).
Qed.

Lemma deleteEmbeddingsByDataSource_removes_the_document_witness :
  entities
    (store_after selects
       (events (deleteEmbeddingsByDataSource (scripted quiet_script) "d1") [])
       [(COLLECTION_NAME, [foreign_chunk; subject_chunk])])
    COLLECTION_NAME
  = [subject_chunk].
Proof.
  exact (proj2 (proj2 (deleteEmbeddingsByDataSource_removes_the_document
                         (scripted quiet_script) "d1" []
                         [(COLLECTION_NAME, [foreign_chunk; subject_chunk])]
                         COLLECTION_NAME eq_refl))).
Defined.

(** X3.  [deleteEmbeddingsBySubject] never throws.  It loads the collection
    and, when the load succeeds, asks once for the deletion of the entities
    whose [subject_id] is the given subject; after a failed load it asks
    for nothing.  In a store that reads the filter, when both calls succeed
    the collection loses exactly the rows of that subject and no other
    collection changes; when one fails, nothing changes (identifier without
    quote and backslash). *)
Theorem deleteEmbeddingsBySubject_removes_the_subject (E : Env)
    (subject : string) (h : Trace) (st : Store) (name : string) :
  plain subject = true ->
  outcome (deleteEmbeddingsBySubject E subject) h = Returned tt
  /\ events (deleteEmbeddingsBySubject E subject) h
     = match thrown_by E h (MilvusLoadCollection COLLECTION_NAME) with
       | Some _ => [mkEvent (MilvusLoadCollection COLLECTION_NAME) false]
       | None =>
           [mkEvent (MilvusLoadCollection COLLECTION_NAME) true;
            mkEvent (MilvusDeleteEntities COLLECTION_NAME
                       (render_eq F_subject_id subject))
              match thrown_by E
                      (h ++ [mkEvent (MilvusLoadCollection COLLECTION_NAME) true])%list
                      (MilvusDeleteEntities COLLECTION_NAME
                         (render_eq F_subject_id subject)) with
              | Some _ => false
              | None => true
              end]
       end
  /\ entities
       (store_after selects (events (deleteEmbeddingsBySubject E subject) h) st)
       name
     = match thrown_by E h (MilvusLoadCollection COLLECTION_NAME),
             thrown_by E
               (h ++ [mkEvent (MilvusLoadCollection COLLECTION_NAME) true])%list
               (MilvusDeleteEntities COLLECTION_NAME
                  (render_eq F_subject_id subject)) with
       | None, None =>
           if String.eqb name COLLECTION_NAME
           then List.filter
                  (fun r => negb (String.eqb (row_subject_id r) subject))
                  (entities st name)
           else entities st name
       | _, _ => entities st name
       end.
Proof.
  intros Hplain.
  exact (delete_by_field E F_subject_id subject h st name Hplain).
Qed.

Lemma deleteEmbeddingsBySubject_removes_the_subject_witness :
  entities
    (store_after selects
       (events (deleteEmbeddingsBySubject (scripted quiet_script) "s1") [])
       [(COLLECTION_NAME, [foreign_chunk; subject_chunk])])
    COLLECTION_NAME
  = [].
Proof.
  exact (proj2 (proj2 (deleteEmbeddingsBySubject_removes_the_subject
                         (scripted quiet_script) "s1" []
                         [(COLLECTION_NAME, [foreign_chunk; subject_chunk])]
                         COLLECTION_NAME eq_refl))).
Defined.

(** ** The rows that ingestion writes *)

Lemma subsequence_In {A : Type} (l1 l2 : list A) (x : A) :
  subsequence l1 l2 -> In x l1 -> In x l2.
Proof.
  induction 1 as [| y l1 l2 _ IH | y l1 l2 _ IH]; intros Hin.
  - exact Hin.
  - right. apply IH. exact Hin.
  - destruct Hin as [-> | Hin]; [ left; reflexivity | right; apply IH; exact Hin ].
Qed.

Lemma subsequence_map {A B : Type} (f : A -> B) (l1 l2 : list A) :
  subsequence l1 l2 -> subsequence (map f l1) (map f l2).
Proof. induction 1; cbn; constructor; assumption. Qed.

Lemma map_mapi {A B C : Type} (g : B -> C) (f : A -> nat -> B) (l : list A) :
  map g (mapi f l) = mapi (fun x i => g (f x i)) l.
Proof.
  unfold mapi. generalize 0.
  induction l as [| x l IH]; intros i; cbn; [ reflexivity | now rewrite IH ].
Qed.

Lemma events_call {R : Type} (c : Call) (oracle : Trace -> JsError + R)
    (h : Trace) :
  events (call c oracle) h
  = [mkEvent c match oracle h with inr _ => true | inl _ => false end].
Proof. unfold events, call. destruct (oracle h); reflexivity. Qed.

Lemma outcome_call {R : Type} (c : Call) (oracle : Trace -> JsError + R)
    (h : Trace) :
  outcome (call c oracle) h
  = match oracle h with inr r => Returned r | inl e => Thrown e end.
Proof. unfold outcome, call. destruct (oracle h); reflexivity. Qed.

(** The rows that the loop inserts are the rows that [insert_row] makes of
    some of the documents, in their order, each with the vector that the
    embedding model returned for it; every insert carries one row. *)
Lemma insert_loop_rows (E : Env) (userId : string) (metadata : InsertMetadata)
    (documents : list ChunkDoc) :
  forall h,
    exists pairs : list (ChunkDoc * Vector),
      inserted_rows (events (insert_loop E documents userId metadata) h)
      = map (fun p => insert_row (fst p) (snd p) userId metadata) pairs
      /\ subsequence (map fst pairs) documents
      /\ Forall (fun ev => match ev_call ev with
                           | MilvusInsert name data =>
                               name = COLLECTION_NAME /\ List.length data = 1
                           | VertexPredict _ _ => True
                           | _ => False
                           end)
           (events (insert_loop E documents userId metadata) h).
Proof.
  induction documents as [| doc rest IH]; intros h; cbn [insert_loop].
  - exists []. repeat split; constructor.
  - rewrite events_bind.
    destruct (getEmbeddings_events E (pageContent doc) h) as (ok & -> & _).
    destruct (outcome (getEmbeddings E (pageContent doc)) h) as [[v |] | e | ].
    + cbv zeta. rewrite events_bind, !events_call, outcome_call.
      destruct (client_insert E _ _ _) as [e | []]; cbn [fst snd app].
      * exists []. split; [ reflexivity | ].
        split; [ apply subsequence_nil | ].
        repeat constructor.
      * match goal with
        | |- context [events (insert_loop E rest userId metadata) ?h'] =>
            destruct (IH h') as (pairs & Hrows & Hsub & Hev)
        end.
        exists ((doc, v) :: pairs). split; [ | split ].
        -- cbn [inserted_rows flat_map ev_call ev_ok app map fst snd].
           f_equal. exact Hrows.
        -- cbn [map fst]. apply sub_keep. exact Hsub.
        -- constructor; [ exact I | ].
           constructor; [ split; reflexivity | exact Hev ].
    + match goal with
      | |- context [events (insert_loop E rest userId metadata) ?h'] =>
          destruct (IH h') as (pairs & Hrows & Hsub & Hev)
      end.
      exists pairs. split; [ exact Hrows | split ].
      * apply sub_skip. exact Hsub.
      * constructor; [ exact I | exact Hev ].
    + exists []. split; [ reflexivity | ].
      split; [ apply subsequence_nil | repeat constructor ].
    + exists []. split; [ reflexivity | ].
      split; [ apply subsequence_nil | repeat constructor ].
Qed.

Lemma insert_row_fields (doc : ChunkDoc) (v : Vector) (userId : string)
    (metadata : InsertMetadata) :
  let r := insert_row doc v userId metadata in
  row_text r = pageContent doc
  /\ row_embedding r = v
  /\ row_user_id r = userId
  /\ row_data_source_id r = im_dataSourceId metadata
  /\ row_subject_id r = or_else (im_subjectId metadata) EmptyString
  /\ row_metadata r
     = mkChunkMetadata (doc_chunk_id doc) (or_null (im_subjectId metadata))
         (im_dataSourceId metadata).
Proof. repeat split. Qed.


(** X5.  What ingestion writes for a tenant stays with that tenant: a row
    that [insertEmbeddings] has inserted for [userId] is selected by no
    search filter of another tenant, whatever its subject and document
    identifiers, and it is selected by the filters of its own tenant: the
    tenant alone, the tenant with the document of the row, and the tenant
    with the subject of the row (identifiers without quote and
    backslash). *)
Theorem ingested_rows_stay_with_their_tenant (E : Env)
    (documents : list ChunkDoc) (userId : string) (metadata : InsertMetadata)
    (h : Trace) (other : string) (subject : option string)
    (ids : option (list string)) (r : Row) :
  plain userId = true ->
  plain (im_dataSourceId metadata) = true ->
  plain_opt (im_subjectId metadata) = true ->
  plain other = true -> plain_opt subject = true -> plain_ids ids = true ->
  String.eqb other userId = false ->
  In r (inserted_rows (events (insertEmbeddings E documents userId metadata) h)) ->
  selects (search_filter other subject ids) r = false
  /\ selects (search_filter userId None None) r = true
  /\ selects (search_filter userId None (Some [im_dataSourceId metadata])) r = true
  /\ selects (search_filter userId (im_subjectId metadata) None) r = true.
Proof.
  intros Hu Hd Hs Ho Hos Hoi Hother Hin.
  rewrite insertEmbeddings_events in Hin.
  destruct (insert_loop_rows E userId metadata documents h)
    as (pairs & Hrows & _ & _).
  rewrite Hrows in Hin. apply in_map_iff in Hin as ([doc v] & <- & _).
  cbn [fst snd].
  split; [ | split; [ | split ] ].
  - destruct (selects (search_filter other subject ids)
                (insert_row doc v userId metadata)) eqn:Hsel; [ | reflexivity ].
    rewrite selects_search_filter in Hsel by assumption.
    apply filter_expr_tenant in Hsel. cbn in Hsel. subst other.
    rewrite String.eqb_refl in Hother. discriminate.
  - rewrite selects_search_filter by reflexivity || assumption.
    cbn. apply String.eqb_refl.
  - rewrite selects_search_filter;
      [ | assumption | reflexivity | cbn; rewrite Hd; reflexivity ].
    cbn. rewrite !String.eqb_refl. reflexivity.
  - rewrite selects_search_filter by reflexivity || assumption.
    destruct metadata as [[[| c s] |] d]; cbn;
      rewrite ?String.eqb_refl, ?Ascii.eqb_refl; reflexivity.
Qed.

Lemma ingested_rows_stay_with_their_tenant_witness :
  selects (search_filter "u2" (Some "s1") (Some ["d1"]))
    (mkRow "alpha" (length_embedding "alpha") (mkChunkMetadata 0 (Some "s1") "d1")
       "u1" "s1" "d1")
  = false
  /\ selects (search_filter "u1" None None)
       (mkRow "alpha" (length_embedding "alpha")
          (mkChunkMetadata 0 (Some "s1") "d1") "u1" "s1" "d1")
     = true
  /\ selects (search_filter "u1" None (Some ["d1"]))
       (mkRow "alpha" (length_embedding "alpha")
          (mkChunkMetadata 0 (Some "s1") "d1") "u1" "s1" "d1")
     = true
  /\ selects (search_filter "u1" (Some "s1") None)
       (mkRow "alpha" (length_embedding "alpha")
          (mkChunkMetadata 0 (Some "s1") "d1") "u1" "s1" "d1")
     = true.
Proof.
  apply (ingested_rows_stay_with_their_tenant (scripted quiet_script)
           [mkChunkDoc "alpha" 0] "u1" (mkInsertMetadata (Some "s1") "d1") []
           "u2" (Some "s1") (Some ["d1"]));
    try reflexivity.
  left. reflexivity.
Defined.

Section ChunkPositions.

Variable E : Env.
Variable file : UploadedFile.
Variables dataSourceId userId : string.
Variable text : string.

Hypothesis lookup_ok :
  forall h, exists dataSource,
    db_dataSource_findUnique E h dataSourceId = inr dataSource.
Hypothesis extraction_ok :
  forall h,
    outcome (extractTextFromDocument E (file_path file)) h = Returned text.
Hypothesis update_ok :
  forall h content status,
    db_dataSource_update E h dataSourceId content status = inr tt.

(** X6.  When the lookup, the extraction and the status write succeed, the
    rows that a run of [processFileAsync] leaves in the index are chunks of
    the extracted text, each numbered with its position in the output of
    the splitter and in the order of that output, and each tagged with the
    tenant, with the document, and with the subject that the document
    record had at the lookup (the empty string when it has none). *)
Theorem processFileAsync_rows_carry_chunk_positions (h : Trace) :
  subsequence
    (map (fun r => (chunk_id (row_metadata r), row_text r))
       (inserted_rows (events (processFileAsync E file dataSourceId userId) h)))
    (mapi (fun chunk index => (index, chunk)) (chunks_of E text))
  /\ exists dataSource,
       db_dataSource_findUnique E h dataSourceId = inr dataSource
       /\ Forall (fun r =>
                    row_user_id r = userId
                    /\ row_data_source_id r = dataSourceId
                    /\ md_dataSourceId (row_metadata r) = dataSourceId
                    /\ row_subject_id r
                       = or_else match dataSource with
                                 | Some subject => subject
                                 | None => None
                                 end EmptyString)
            (inserted_rows
               (events (processFileAsync E file dataSourceId userId) h)).
Proof.
  destruct (@processFileAsync_run E file dataSourceId userId text
              lookup_ok extraction_ok update_ok h)
    as (dataSource & evs_x & evs_i & Hlookup & Hrun & Hx & Hi).
  unfold events. rewrite Hrun. cbn [fst].
  destruct (extraction_calls_only Hx) as (_ & Hx2 & _).
  assert (Hrows :
            inserted_rows
              ((mkEvent (DbFindUnique dataSourceId) true :: evs_x)
                 ++ evs_i
                 ++ [mkEvent (DbUpdate dataSourceId text COMPLETED) true])%list
            = inserted_rows evs_i).
  { unfold inserted_rows in *. rewrite !flat_map_app. cbn.
    rewrite Hx2. cbn. apply app_nil_r. }
  rewrite Hrows. subst evs_i. rewrite insertEmbeddings_events.
  match goal with
  | |- context [events (insert_loop E ?docs userId ?md) ?h'] =>
      destruct (insert_loop_rows E userId md docs h') as (pairs & Hpairs & Hsub & _)
  end.
  rewrite Hpairs. split.
  - rewrite map_map. cbn [insert_row row_text row_metadata chunk_id].
    rewrite <- (map_map fst (fun doc => (doc_chunk_id doc, pageContent doc))).
    rewrite <- (map_mapi (fun doc => (doc_chunk_id doc, pageContent doc))
                  (fun chunk index => mkChunkDoc chunk index)).
    apply subsequence_map. exact Hsub.
  - exists dataSource. split; [ exact Hlookup | ].
    apply Forall_map. apply Forall_forall. intros p _.
    cbn [insert_row row_user_id row_data_source_id row_metadata md_dataSourceId
           row_subject_id im_dataSourceId im_subjectId].
    repeat split.
    destruct dataSource as [[[| c s] |] |]; reflexivity.
Qed.

End ChunkPositions.

Lemma processFileAsync_rows_carry_chunk_positions_witness :
  subsequence
    (map (fun r => (chunk_id (row_metadata r), row_text r))
       (inserted_rows
          (events (processFileAsync (scripted second_embedding_fails_script)
                     upload "d1" "u1") [])))
    (mapi (fun chunk index => (index, chunk))
       (chunks_of (scripted second_embedding_fails_script) two_paragraphs)).
Proof.
  exact (proj1 (@processFileAsync_rows_carry_chunk_positions
                  (scripted second_embedding_fails_script) upload "d1" "u1"
                  two_paragraphs
                  (fun _ => ex_intro _ (Some None) eq_refl)
                  (fun _ => eq_refl)
                  (fun _ _ _ => eq_refl) [])).
Defined.

(** ** Text extraction *)


(** ** The module initialisation *)

(** X8.  The initialisation that runs when the Milvus module is loaded
    never throws, whatever the store answers: it returns after the calls of
    [createCollection] and, when that returned, of [createIndex].  It only
    lists the collections, creates the collection, and describes and
    creates the index, so it changes no stored entity. *)
Theorem initialize_never_throws (E : Env) (h : Trace) :
  outcome (initialize E) h = Returned tt
  /\ Forall (fun ev => reset_call (ev_call ev)
                       /\ changes_entities (ev_call ev) = false
                       /\ match ev_call ev with
                          | MilvusDropIndex _ | MilvusLoadCollection _ => False
                          | _ => True
                          end)
       (events (initialize E) h)
  /\ (forall matches st name,
         entities (store_after matches (events (initialize E) h) st) name
         = entities st name)
  /\ events (initialize E) h
     = (events (createCollection E) h
        ++ match outcome (createCollection E) h with
           | Returned _ => events (createIndex E) (h ++ events (createCollection E) h)
           | _ => []
           end)%list.
Proof.
  assert (H : satisfies
                (fun ev => reset_call (ev_call ev)
                           /\ changes_entities (ev_call ev) = false
                           /\ match ev_call ev with
                              | MilvusDropIndex _ | MilvusLoadCollection _ => False
                              | _ => True
                              end)
                (returns (fun _ => True)) (initialize E)).
  { unfold initialize.
    apply run_try_returns with (handler := fun _ => tt); [ | intros; exact I ].
    unfold createCollection, createIndex, showCollections.
    repeat run_step; try exact I; cbn; auto. }
  destruct (H h) as [Hev ([] & Hout & _)].
  split; [ exact Hout | split; [ exact Hev | split ] ].
  - intros matches st name. apply store_after_frame.
    eapply Forall_impl; [ | exact Hev ]. intros ev (_ & Hc & _). exact Hc.
  - unfold initialize. rewrite events_try, events_bind.
    destruct (outcome (bind (createCollection E) (fun _ => createIndex E)) h)
      eqn:Hbind; cbn [events ret fst]; rewrite ?app_nil_r; reflexivity.
Qed.

(** ** The answers of the query handler *)

Lemma searchMilvus_halts (E : Env) (queryText userId : string)
    (options : SearchOptions) :
  satisfies (fun _ => True) (post False any)
    (searchMilvus E queryText userId options).
Proof.
  eapply satisfies_weaken with (P := fun _ => True);
    [ unfold searchMilvus;
      apply searchMilvus_rec_run
        with (Embedded := any) (Found := any) (Result := any)
             (subject0 := subjectId options) (ids0 := dataSourceIds options)
             (limit0 := match topK options with Some k => k | None => 2 end);
      try (left; reflexivity); try (intros; exact I); auto
    | auto | ].
  - apply getEmbeddings_any. intros; exact I.
  - intros [hits | e | ]; cbn; auto.
    unfold fallback_depth.
    destruct (has_ids (dataSourceIds options) && truthy_opt (subjectId options));
      lia.
Qed.

(** X9.  [answerUserQuery] answers every request: it never throws, and its
    status is 200, 400 or 500.  The status is 400 exactly when the query is
    missing, not a string or empty, and then nothing is called; when the
    model is not initialised the status is 500 and nothing is called
    either.  Every answer with status 200 has [success: true] and gives
    back the query and the subject of the request ([null] when there is
    none). *)
Theorem answerUserQuery_answers_every_request (E : Env) (req : QueryRequest)
    (h : Trace) :
  exists response,
    outcome (answerUserQuery E req) h = Returned response
    /\ (res_status response = 200 \/ res_status response = 400
        \/ res_status response = 500)
    /\ (res_status response = 400 <-> truthy_opt (body_query req) = false)
    /\ (truthy_opt (body_query req) = false ->
        events (answerUserQuery E req) h = []
        /\ response
           = mkHttpResponse 400
               (MessageBody false "Query is required and must be a string" None))
    /\ (truthy_opt (body_query req) = true -> query_model_ready E = false ->
        events (answerUserQuery E req) h = []
        /\ response
           = mkHttpResponse 500
               (MessageBody false "Gemini model not initialized" None))
    /\ (res_status response = 200 ->
        exists answer score,
          res_body response
          = AnswerBody true answer (or_else (body_query req) EmptyString) score
              (or_null (body_subjectId req))).
Proof.
  destruct (body_query req) as [query |] eqn:Hquery;
    [ destruct (truthy query) eqn:Htruthy | ].
  2, 3: eexists; unfold answerUserQuery, outcome, events; cbv zeta;
    rewrite Hquery, ?Htruthy; cbn;
    repeat split; auto; intros; cbn in *; first [ congruence | lia ].
  destruct (query_model_ready E) eqn:Hready.
  2: { eexists. unfold answerUserQuery, outcome, events. cbv zeta.
       rewrite Hquery, Htruthy, Hready. cbn.
       repeat split; auto; intros; cbn in *; first [ congruence | lia ]. }
  set (R := fun response : HttpResponse =>
              res_status response = 500
              \/ exists answer score,
                   response
                   = mkHttpResponse 200
                       (AnswerBody true answer query score
                          (or_null (body_subjectId req)))).
  assert (H : satisfies (fun _ => True) (returns R) (answerUserQuery E req)).
  { unfold answerUserQuery. cbv zeta. rewrite Hquery, Htruthy, Hready.
    cbn [negb].
    apply run_try_returns
      with (handler := fun error =>
                         mkHttpResponse 500
                           (MessageBody false "Failed to answer query"
                              (Some (err_message error))));
      [ | intros e; left; reflexivity ].
    apply run_try;
      [ | intros e; apply run_ret; right; do 2 eexists; reflexivity ].
    apply run_bind with (R1 := any).
    { repeat run_step; exact I. }
    intros searchOptions _.
    apply run_bind with (R1 := any); [ apply searchMilvus_halts | ].
    intros contextChunks _. unfold first_part_text.
    repeat run_step; try exact I;
      first [ left; reflexivity | right; do 2 eexists; reflexivity ]. }
  destruct (H h) as [_ (response & Hout & HR)].
  exists response. split; [ exact Hout | ].
  cbn [truthy_opt or_else]. rewrite Htruthy.
  destruct HR as [H500 | (answer & score & ->)].
  - rewrite H500. repeat split; auto; intros; cbn in *; first [ congruence | lia ].
  - cbn. repeat split; auto; try (intros; cbn in *; first [ congruence | lia ]).
    intros _. do 2 eexists. reflexivity.
Qed.

(** ** The number of hits of a search *)

(** X10.  [searchMilvus] asks the store for [topK] results, or for two when
    the caller names no [topK]: every search request of a run -- the primary
    search, the search after an index rebuild and the searches of the
    subject fallback -- carries that limit and the metric COSINE.  When the
    store never answers a request with more results than the request's
    limit, the run returns at most that many hits. *)
Theorem searchMilvus_honours_topK (E : Env) (queryText userId : string)
    (options : SearchOptions) (h : Trace) :
  Forall (fun request =>
            sr_limit (snd request)
            = match topK options with Some k => k | None => 2 end
            /\ sr_metric_type (snd request) = "COSINE")
    (search_requests (events (searchMilvus E queryText userId options) h))
  /\ ((forall h' req results,
          client_search E h' req = inr (Some results) ->
          length results <= sr_limit req) ->
      exists hits,
        outcome (searchMilvus E queryText userId options) h = Returned hits
        /\ length hits <= match topK options with Some k => k | None => 2 end).
Proof.
  split.
  - assert (H : satisfies
                  (fun ev => match ev_call ev with
                             | MilvusSearch _ req =>
                                 sr_limit req
                                 = match topK options with
                                   | Some k => k
                                   | None => 2
                                   end
                                 /\ sr_metric_type req = "COSINE"
                             | _ => True
                             end)
                  (post (2 < fallback_depth options) any)
                  (searchMilvus E queryText userId options)).
    { unfold searchMilvus.
      apply searchMilvus_rec_run
        with (Embedded := any) (Found := any) (subject0 := subjectId options)
             (ids0 := dataSourceIds options)
             (limit0 := match topK options with Some k => k | None => 2 end);
        try (intros; exact I); try (left; reflexivity); auto.
      - intros c ok Hc. destruct c; cbn in *; try exact I. discriminate.
      - apply getEmbeddings_any. intros; exact I.
      - intros site v d ok _ _. cbn. split; reflexivity. }
    destruct (H h) as [Hev _]. unfold search_requests.
    apply Forall_flat_map. eapply Forall_impl; [ | exact Hev ].
    intros [c ok] Hc. cbn in *.
    destruct c; try constructor; [ exact Hc | constructor ].
  - intros Hstore.
    assert (H : satisfies (fun _ => True)
                  (post (2 < fallback_depth options)
                     (fun hits : list Hit =>
                        length hits
                        <= match topK options with Some k => k | None => 2 end))
                  (searchMilvus E queryText userId options)).
    { unfold searchMilvus.
      apply searchMilvus_rec_run
        with (Embedded := any)
             (Found := fun found =>
                         forall results, found = Some results ->
                           length results
                           <= match topK options with Some k => k | None => 2 end)
             (subject0 := subjectId options) (ids0 := dataSourceIds options)
             (limit0 := match topK options with Some k => k | None => 2 end);
        try (intros; exact I); try (left; reflexivity); auto.
      - apply getEmbeddings_any. intros; exact I.
      - intros h' v d found _ _ Hfound results ->.
        exact (Hstore _ _ _ Hfound).
      - cbn. lia.
      - intros [results |] Hfound _; cbn; [ | lia ].
        rewrite length_map. apply Hfound. reflexivity. }
    destruct (H h) as [_ Hout].
    destruct (searchMilvus_returns E queryText userId options h) as [hits Hhits].
    exists hits. split; [ exact Hhits | ].
    rewrite Hhits in Hout. cbn in Hout. exact Hout.
Qed.

Lemma searchMilvus_honours_topK_witness :
  exists hits,
    outcome (searchMilvus
               (scripted three_chunks_script)
               "What is a cell?" "u1"
               (mkSearchOptions None (Some "s1") None)) []
    = Returned hits
    /\ length hits <= 2.
Proof.
  apply (proj2 (searchMilvus_honours_topK
                  (scripted three_chunks_script)
                  "What is a cell?" "u1"
                  (mkSearchOptions None (Some "s1") None) [])).
  intros h' req results Hfound. cbn in Hfound. unfold search_rows in Hfound.
  injection Hfound as <-. rewrite length_map. apply firstn_le_length.
Defined.
